(** * ResumePilot: the match scorer, the quota gate, the broadcast registry and
    the batch-job orchestrator, embedded from the TypeScript sources

    The embedding, one module per source file:
    - [JS]            the string, array, number and regular-expression
                      primitives of JavaScript that the sources call
    - [Schema]        shared/schema.ts, the structured resume
    - [ATSEngine]     server/services/ats-engine.ts
    - [QuotaGate], [GeminiScorer]
                      server/services/gemini-ats-scorer.ts
    - [Storage]       server/storage.ts, the tables the batch processor uses
    - [Broadcast], [BatchJobs], [AtsRoute]
                      server/routes.ts
    - [EmbeddingCache]
                      server/services/gemini-enhanced.ts
    - [AtsStore]      client/src/store/ats-store.ts and the message handler
                      of client/src/components/ats-panel.tsx
    - [WsClient]      client/src/lib/websocket.ts

    The properties follow in [ATSEngineFacts], [QuotaFacts], [GeminiFacts],
    [BroadcastFacts], [BatchFacts], [AtsRouteFacts], [EmbeddingCacheFacts],
    [AtsStoreFacts] and [WsClientFacts].

    Conventions of the embedding.
    - A JavaScript string is a Rocq [string]; a character is read as a
      Latin-1 code unit (U+0000..U+00FF), so [String.length] is the JS
      [length] of the text.
    - A JavaScript number that the code only uses as an integer is a [Z].
      The grade-level estimate of the readability score, which the code
      compares with the edges of its bands, is computed in doubles
      ([Double], the primitive binary64 arithmetic). The shares of the
      keyword and quantification scores, the halves of the formatting
      score and the percentage of a batch are exact rationals [Q], and an
      embedding is a vector of reals: the rounding of a double is not
      modelled there. [NaN] is explicit where the code can produce it.
    - State (module-level [let] variables, the SQLite tables, the channel
      map) is passed explicitly; what comes from outside the process (the
      clock, environment variables, the answer of the external model, the
      state of a socket) is an argument.
    - An [async] function gives way to other tasks at an [await] of the
      network or of a timer, and not at an [await] of the store, whose
      methods have synchronous bodies. The batch processor and the
      embedding cache are modelled with these places ([BatchJobs.handle],
      [EmbeddingCache.startEmbedding]); every other handler is modelled
      as one task. Time is not modelled. *)

From Stdlib Require Import ZArith QArith Qround String Ascii List Bool Lia Reals Lra.
From Stdlib Require Import Numbers.DecimalString.
From Stdlib Require Floats.
From stdpp Require Import gmap strings list fin_maps.
Import ListNotations.

Local Open Scope string_scope.
Local Open Scope Z_scope.

(* ===================================================================== *)
(** ** JavaScript primitives used by the sources                          *)
(* ===================================================================== *)

Module JS.

(** Character classes of a JS regular expression (no [u] flag). *)
Definition code (c : ascii) : N := N_of_ascii c.

Definition inRange (lo hi : N) (c : ascii) : bool :=
  ((lo <=? code c) && (code c <=? hi))%N.

(** [\d] *)
Definition isDigit (c : ascii) : bool := inRange 48 57 c.

(** [\w] is [A-Za-z0-9_]. *)
Definition isWordChar (c : ascii) : bool :=
  isDigit c || inRange 65 90 c || inRange 97 122 c || (code c =? 95)%N.

(** [\s] restricted to Latin-1: TAB, LF, VT, FF, CR, SP and NBSP. *)
Definition isSpace (c : ascii) : bool :=
  inRange 9 13 c || (code c =? 32)%N || (code c =? 160)%N.

(** [String.prototype.toLowerCase] on Latin-1 code units. *)
Definition toLowerChar (c : ascii) : ascii :=
  if inRange 65 90 c || (inRange 192 222 c && negb (code c =? 215)%N)
  then ascii_of_N (code c + 32) else c.

Fixpoint mapChars (f : ascii -> ascii) (s : string) : string :=
  match s with
  | EmptyString => EmptyString
  | String c s' => String (f c) (mapChars f s')
  end.

Definition toLowerCase (s : string) : string := mapChars toLowerChar s.

Fixpoint filterChars (p : ascii -> bool) (s : string) : string :=
  match s with
  | EmptyString => EmptyString
  | String c s' => if p c then String c (filterChars p s') else filterChars p s'
  end.

Fixpoint existsChar (p : ascii -> bool) (s : string) : bool :=
  match s with
  | EmptyString => false
  | String c s' => p c || existsChar p s'
  end.

Definition strlen (s : string) : Z := Z.of_nat (String.length s).

(** Truthiness of a string: the empty string is the only falsy one. *)
Definition truthy (s : string) : bool :=
  match s with EmptyString => false | _ => true end.

(** [s.includes(p)] *)
Fixpoint includes (s p : string) : bool :=
  String.prefix p s ||
  match s with
  | EmptyString => false
  | String _ s' => includes s' p
  end.

(** [s.split(re)] for a separator [re] that matches a maximal non-empty
    run of characters of one class ([/\s+/], [/[.!?]+/]): the pieces
    between the runs, an empty piece before a leading run and after a
    trailing one, and [[""]] for the empty string. *)
Fixpoint splitRunsFrom (sep : ascii -> bool) (s : string)
         (inRun : bool) (cur : string) : list string :=
  match s with
  | EmptyString => [cur]
  | String c s' =>
      if sep c
      then if inRun then splitRunsFrom sep s' true cur
           else cur :: splitRunsFrom sep s' true EmptyString
      else splitRunsFrom sep s' false (cur +:+ String c EmptyString)
  end.

Definition splitRuns (sep : ascii -> bool) (s : string) : list string :=
  splitRunsFrom sep s false EmptyString.

(** [s.trim().length > 0]: some character is not white space. *)
Definition nonBlank (s : string) : bool := existsChar (fun c => negb (isSpace c)) s.

(** [arr.join(sep)] *)
Fixpoint join (sep : string) (l : list string) : string :=
  match l with
  | [] => EmptyString
  | [x] => x
  | x :: rest => x +:+ sep +:+ join sep rest
  end.

(** [arr.slice(0, n)] *)
Definition slice0 {A} (n : nat) (l : list A) : list A := firstn n l.

(** [arr.includes(x)] on strings. *)
Definition arrIncludes (l : list string) (x : string) : bool :=
  existsb (String.eqb x) l.

(** A [Set<string>] keeps one copy of each element, in insertion order. *)
Definition setAdd (x : string) (set : list string) : list string :=
  if arrIncludes set x then set else set ++ [x].

Definition setHas (set : list string) (x : string) : bool := arrIncludes set x.

(** [Math.round]: the nearest integer, a tie going up. *)
Definition Math_round (q : Q) : Z := Qfloor (q + (1 # 2)).

(** A number printed in a template literal (integers only). *)
Definition showZ (z : Z) : string := NilZero.string_of_int (Z.to_int z).

(** *** Regular expressions

    The fragment the sources use, matched by backtracking in the order a
    JS engine tries the alternatives (greedy quantifiers first). The
    continuation receives the character before the current position (for
    [\b]) and the rest of the input. *)
Inductive regex : Type :=
| Eps
| Cls (p : ascii -> bool)
| Seq (r1 r2 : regex)
| Alt (r1 r2 : regex)
| Opt (r : regex)
| Star (p : ascii -> bool)
| Bnd.

Definition Plus (p : ascii -> bool) : regex := Seq (Cls p) (Star p).

Definition isWordOpt (o : option ascii) : bool :=
  match o with Some c => isWordChar c | None => false end.

Definition peek (s : string) : option ascii :=
  match s with EmptyString => None | String c _ => Some c end.

Section Matcher.
Context {A : Type}.

Fixpoint starMatch (p : ascii -> bool) (prev : option ascii) (s : string)
         (k : option ascii -> string -> option A) : option A :=
  match s with
  | String c s' =>
      if p c
      then match starMatch p (Some c) s' k with
           | Some a => Some a
           | None => k prev s
           end
      else k prev s
  | EmptyString => k prev s
  end.

Fixpoint rmatch (r : regex) (prev : option ascii) (s : string)
         (k : option ascii -> string -> option A) : option A :=
  match r with
  | Eps => k prev s
  | Cls p =>
      match s with
      | String c s' => if p c then k (Some c) s' else None
      | EmptyString => None
      end
  | Seq r1 r2 => rmatch r1 prev s (fun prev' s' => rmatch r2 prev' s' k)
  | Alt r1 r2 =>
      match rmatch r1 prev s k with
      | Some a => Some a
      | None => rmatch r2 prev s k
      end
  | Opt r1 =>
      match rmatch r1 prev s k with
      | Some a => Some a
      | None => k prev s
      end
  | Star p => starMatch p prev s k
  | Bnd =>
      if xorb (isWordOpt prev) (isWordOpt (peek s)) then k prev s else None
  end.
End Matcher.

(** [re.test(s)] for a regex without the [g] flag: a match at some start. *)
Fixpoint searchFrom (r : regex) (prev : option ascii) (s : string) : bool :=
  match rmatch r prev s (fun _ _ => Some tt) with
  | Some _ => true
  | None =>
      match s with
      | EmptyString => false
      | String c s' => searchFrom r (Some c) s'
      end
  end.

Definition test (r : regex) (s : string) : bool := searchFrom r None s.

(** A literal character, and a literal word, under the [i] flag. *)
Definition chrI (c : ascii) : regex :=
  Cls (fun x => Ascii.eqb (toLowerChar x) (toLowerChar c)).

Definition chr (c : ascii) : regex := Cls (Ascii.eqb c).

Fixpoint litI (w : string) : regex :=
  match w with
  | EmptyString => Eps
  | String c w' => Seq (chrI c) (litI w')
  end.

(** [s.match(re)] with the [g] flag: the texts of the successive matches,
    each search resuming where the last match ended. [fuel] bounds the
    number of steps; every step consumes a character, so
    [S (String.length s)] steps reach the end of [s]. *)
Fixpoint matchAllFrom (fuel : nat) (r : regex) (prev : option ascii) (s : string)
  : list string :=
  match fuel with
  | O => []
  | S fuel' =>
      let skip :=
        match s with
        | EmptyString => []
        | String c s' => matchAllFrom fuel' r (Some c) s'
        end in
      match rmatch r prev s (fun prev' rest => Some (prev', rest)) with
      | Some (prev', rest) =>
          let n := (String.length s - String.length rest)%nat in
          let m := String.substring 0 n s in
          match n with
          | O => m :: skip
          | S _ => m :: matchAllFrom fuel' r prev' rest
          end
      | None => skip
      end
  end.

Definition matchAll (r : regex) (s : string) : list string :=
  matchAllFrom (S (String.length s)) r None s.

(** A call returns a value or throws. *)
Inductive Completion (A : Type) : Type :=
| Return (a : A)
| Throw (message : string).
Arguments Return {A} a.
Arguments Throw {A} message.

Definition bind {A B : Type} (c : Completion A) (k : A -> Completion B) : Completion B :=
  match c with
  | Return a => k a
  | Throw message => Throw message
  end.

Notation "x <- c ;; k" := (bind c (fun x => k))
  (at level 100, c at next level, right associativity).

End JS.

(* ===================================================================== *)
(** ** Numbers that the code computes in floating point                  *)
(* ===================================================================== *)

Module Double.
Import PrimFloat.

(** A JavaScript number as the IEEE 754 binary64 value it is; the
    arithmetic is the primitive one, rounded to nearest, ties to even. *)
Definition double : Set := float.

(** An integer as a double: exact for a magnitude below [2^53], which the
    lengths of arrays stay far below. *)
Definition ofZ (z : Z) : double :=
  if z <? 0 then opp (of_uint63 (Uint63.of_Z (- z))) else of_uint63 (Uint63.of_Z z).

Definition leb (x y : double) : bool := PrimFloat.leb x y.

Definition ltb (x y : double) : bool := PrimFloat.ltb x y.

(** [Math.round] of a double: the nearest integer, a tie going up, with
    the sign of the argument on a zero result. A double with a
    non-negative exponent is an integer already; otherwise its magnitude
    is below [2^53] and its exact value is [m * 2^e]. *)
Definition Math_round (x : double) : double :=
  match FloatOps.Prim2SF x with
  | SpecFloat.S754_finite negative m e =>
      if 0 <=? e then x
      else
        let exact : Q := (if negative then Z.neg m else Z.pos m) # (2 ^ Z.to_pos (- e)) in
        let z := JS.Math_round exact in
        if z =? 0 then (if negative then opp zero else zero) else ofZ z
  | _ => x
  end.

End Double.

(* ===================================================================== *)
(** ** shared/schema.ts: the structured resume                            *)
(* ===================================================================== *)

Module Schema.

(** [resumeJsonSchema]; the optional sections the scorers never read
    (projects, certifications, achievements) are left out. *)
Record PersonalInfo : Type := {
  pi_name : string;
  pi_email : string;
  pi_phone : string;
  pi_location : string;
  pi_website : option string;
  pi_linkedin : option string;
  pi_github : option string
}.

Record ExperienceItem : Type := {
  exp_title : string;
  exp_company : string;
  exp_location : option string;
  exp_startDate : string;
  exp_endDate : string;
  exp_bullets : list string
}.

Record EducationItem : Type := {
  edu_degree : string;
  edu_school : string;
  edu_location : option string;
  edu_graduation : string;
  edu_gpa : option string
}.

(** [skills] is a JS record; the association list is in the order
    [Object.values] and [Object.entries] enumerate it. *)
Record ResumeJson : Type := {
  personalInfo : PersonalInfo;
  summary : string;
  experience : list ExperienceItem;
  skills : list (string * list string);
  education : option (list EducationItem)
}.

End Schema.

(* ===================================================================== *)
(** ** server/services/ats-engine.ts                                      *)
(* ===================================================================== *)

Module ATSEngine.
Import JS Schema.

Record KeywordData : Type := {
  kw_score : Z;
  kw_matched : Z;
  kw_total : Z;
  kw_missing : list string
}.

Record QuantificationData : Type := {
  qn_score : Z;
  qn_total : Z;
  qn_quantifiedBullets : Z;
  qn_totalBullets : Z
}.

Record FormattingData : Type := { fm_score : Z; fm_total : Z }.

Record ReadabilityData : Type := {
  rd_score : Z;
  rd_total : Z;
  rd_gradeLevel : Double.double
}.

(** The relevancy score is the one field the embeddings path overwrites
    with the rounding of a quotient, which is [NaN] for a zero vector. *)
Inductive number : Type :=
| NaN
| Num (z : Z).

Definition num_add (a b : number) : number :=
  match a, b with
  | Num x, Num y => Num (x + y)
  | _, _ => NaN
  end.

Record RelevancyData : Type := { rl_score : number; rl_total : Z }.

Record ATSBreakdown : Type := {
  keywords : KeywordData;
  relevancy : RelevancyData;
  quantification : QuantificationData;
  formatting : FormattingData;
  readability : ReadabilityData
}.

Record ATSResult : Type := {
  overall : number;
  breakdown : ATSBreakdown;
  suggestions : list string
}.

Definition COMMON_KEYWORDS : list string :=
  [ "javascript"; "python"; "java"; "typescript"; "c++"; "c#"; "php"; "ruby"; "go"; "rust";
    "react"; "angular"; "vue"; "node.js"; "express"; "django"; "flask"; "spring"; "laravel";
    "mysql"; "postgresql"; "mongodb"; "redis"; "elasticsearch"; "sql"; "nosql";
    "aws"; "azure"; "gcp"; "docker"; "kubernetes"; "jenkins"; "terraform"; "ansible";
    "git"; "agile"; "scrum"; "rest"; "api"; "microservices"; "ci/cd"; "testing" ].

Definition phrases : list string :=
  [ "machine learning"; "data science"; "full stack"; "software engineering";
    "web development"; "mobile development"; "cloud computing"; "data analysis";
    "project management"; "quality assurance"; "user experience"; "database design" ].

(** [/[^\w\s\-\.]/g] replaced by a space. *)
Definition keepChar (c : ascii) : ascii :=
  if isWordChar c || isSpace c || Ascii.eqb c "-" || Ascii.eqb c "."
  then c else " "%char.

Definition extractKeywords (text : string) : list string :=
  if negb (truthy text) then []
  else
    let words :=
      List.filter (fun word => 2 <? strlen word)
                  (splitRuns isSpace (mapChars keepChar (toLowerCase text))) in
    let keywords := fold_left (fun set word => setAdd word set) words [] in
    fold_left
      (fun set phrase =>
         if includes (toLowerCase text) phrase
         then setAdd (filterChars (fun c => negb (isSpace c)) phrase) set
         else set)
      phrases keywords.

Definition importantKeywords (jdKeywords : list string) : list string :=
  List.filter (fun keyword => (3 <? strlen keyword) || arrIncludes COMMON_KEYWORDS keyword)
              jdKeywords.

Definition calculateKeywordScore (resumeText jdText : string) : KeywordData :=
  let jdKeywords := extractKeywords jdText in
  let resumeKeywords := extractKeywords resumeText in
  let importantJDKeywords := importantKeywords jdKeywords in
  let matchedCount :=
    Z.of_nat (length (List.filter (fun keyword => setHas resumeKeywords keyword)
                                  importantJDKeywords)) in
  let missing :=
    slice0 10 (List.filter (fun keyword => negb (setHas resumeKeywords keyword))
                           importantJDKeywords) in
  let total := Z.of_nat (length importantJDKeywords) in
  let score :=
    if 0 <? total
    then Math_round ((inject_Z matchedCount / inject_Z total) * 40)%Q
    else 0 in
  {| kw_score := score; kw_matched := matchedCount; kw_total := total;
     kw_missing := missing |}.

(** [/\d+[%$]?|\$\d+|\d+\+?\s*(users?|customers?|projects?|team|people|million|thousand|k\b)/i] *)
Definition unitWords : regex :=
  Alt (Seq (litI "user") (Opt (chrI "s")))
 (Alt (Seq (litI "customer") (Opt (chrI "s")))
 (Alt (Seq (litI "project") (Opt (chrI "s")))
 (Alt (litI "team")
 (Alt (litI "people")
 (Alt (litI "million")
 (Alt (litI "thousand")
      (Seq (chrI "k") Bnd))))))).

Definition metricPattern : regex :=
  Alt (Seq (Plus isDigit) (Opt (Cls (fun c => Ascii.eqb c "%" || Ascii.eqb c "$"))))
 (Alt (Seq (chr "$") (Plus isDigit))
      (Seq (Plus isDigit) (Seq (Opt (chr "+")) (Seq (Star isSpace) unitWords)))).

Definition isQuantified (bullet : string) : bool := test metricPattern bullet.

(** The two counters of the nested [forEach], threaded as a pair
    [(totalBullets, quantifiedBullets)]. *)
Definition countBullet (acc : Z * Z) (bullet : string) : Z * Z :=
  let '(totalBullets, quantifiedBullets) := acc in
  (totalBullets + 1,
   if isQuantified bullet then quantifiedBullets + 1 else quantifiedBullets).

Definition countBullets (resume : ResumeJson) : Z * Z :=
  fold_left (fun acc exp => fold_left countBullet (exp_bullets exp) acc)
            (experience resume) (0, 0).

Definition calculateQuantificationScore (resume : ResumeJson) : QuantificationData :=
  let '(totalBullets, quantifiedBullets) := countBullets resume in
  let percentage : Q :=
    if 0 <? totalBullets then (inject_Z quantifiedBullets / inject_Z totalBullets)%Q
    else 0%Q in
  let score := Math_round (percentage * 15)%Q in
  {| qn_score := score; qn_total := 15;
     qn_quantifiedBullets := quantifiedBullets; qn_totalBullets := totalBullets |}.

Definition bulletPenalty (score : Q) (bullet : string) : Q :=
  if (strlen bullet <? 20) || (150 <? strlen bullet)
  then (score - (1 # 2))%Q else score.

Definition calculateFormattingScore (resume : ResumeJson) : FormattingData :=
  let score : Q := 10%Q in
  let score :=
    if negb (truthy (pi_name (personalInfo resume)))
       || negb (truthy (pi_email (personalInfo resume)))
    then (score - 2)%Q else score in
  let score :=
    if negb (truthy (summary resume)) || (strlen (summary resume) <? 50)
    then (score - 1)%Q else score in
  let score :=
    if (Z.of_nat (length (experience resume)) =? 0) then (score - 3)%Q else score in
  (* [!resume.skills]: a record is an object, which is truthy *)
  let score :=
    fold_left (fun score exp => fold_left bulletPenalty (exp_bullets exp) score)
              (experience resume) score in
  {| fm_score := Z.max 0 (Math_round score); fm_total := 10 |}.

Definition isSentenceEnd (c : ascii) : bool :=
  Ascii.eqb c "." || Ascii.eqb c "!" || Ascii.eqb c "?".

Definition isVowel (c : ascii) : bool :=
  existsb (Ascii.eqb c) (list_ascii_of_string "aeiouAEIOU").

Definition syllablesOf (word : string) : Z :=
  Z.max 1 (strlen (filterChars isVowel word)).

Section Readability.
Import PrimFloat.
#[local] Set Warnings "-inexact-float".

Definition gradeBand (gradeLevel : Double.double) : Z :=
  if (8 <=? gradeLevel)%float && (gradeLevel <=? 12)%float then 10
  else if (6 <=? gradeLevel)%float && (gradeLevel <=? 14)%float then 7
  else 4.

Definition sentencesOf (text : string) : list string :=
  List.filter nonBlank (splitRuns isSentenceEnd text).

Definition wordsOf (text : string) : list string :=
  List.filter (fun w => 0 <? strlen w) (splitRuns isSpace text).

Definition syllablesIn (words : list string) : Z :=
  fold_left (fun count word => count + syllablesOf word) words 0.

(** The simplified Flesch-Kincaid grade level, in the doubles and in the
    order of operations of the source: the literals [0.39], [11.8] and
    [15.59] are their nearest doubles and each operation rounds. *)
Definition gradeLevelOf (nSentences nWords syllables : Z) : Double.double :=
  let avgSentenceLength := (Double.ofZ nWords / Double.ofZ nSentences)%float in
  let avgSyllablesPerWord := (Double.ofZ syllables / Double.ofZ nWords)%float in
  (0.39 * avgSentenceLength + 11.8 * avgSyllablesPerWord - 15.59)%float.

Definition calculateReadabilityScore (text : string) : ReadabilityData :=
  let sentences := sentencesOf text in
  let words := wordsOf text in
  let syllables := syllablesIn words in
  let nSentences := Z.of_nat (length sentences) in
  let nWords := Z.of_nat (length words) in
  if (nSentences =? 0) || (nWords =? 0)
  then {| rd_score := 5; rd_total := 10; rd_gradeLevel := 12%float |}
  else
    let gradeLevel := gradeLevelOf nSentences nWords syllables in
    {| rd_score := gradeBand gradeLevel; rd_total := 10;
       rd_gradeLevel := (Double.Math_round (gradeLevel * 10) / 10)%float |}.

Definition num_ltb (a : number) (b : Z) : bool :=
  match a with Num x => x <? b | NaN => false end.

Definition pushIf (cond : bool) (item : string) (l : list string) : list string :=
  if cond then l ++ [item] else l.

Definition generateSuggestions (b : ATSBreakdown) : list string :=
  let suggestions : list string := [] in
  let suggestions :=
    pushIf (0 <? Z.of_nat (length (kw_missing (keywords b))))
           ("Add missing keywords: " +:+ join ", " (slice0 3 (kw_missing (keywords b))))
           suggestions in
  let suggestions :=
    let needed :=
      qn_totalBullets (quantification b) - qn_quantifiedBullets (quantification b) in
    pushIf (qn_score (quantification b) <? 10)
           ("Add metrics to " +:+ showZ needed +:+ " more bullet points (%, $, #users)")
           suggestions in
  let suggestions :=
    pushIf (12 <? rd_gradeLevel (readability b))%float
           "Simplify sentence structure to improve readability" suggestions in
  let suggestions :=
    pushIf (num_ltb (rl_score (relevancy b)) 20)
           "Better align experience descriptions with job requirements" suggestions in
  let suggestions :=
    pushIf (fm_score (formatting b) <? 8)
           "Improve resume structure and ensure all required sections are complete"
           suggestions in
  slice0 5 suggestions.

End Readability.

(** The text of the resume: every field, the empty ones dropped, joined
    by single spaces. *)
Definition resumeTextOf (resume : ResumeJson) : string :=
  join " "
    (List.filter truthy
       ([ pi_name (personalInfo resume);
          pi_email (personalInfo resume);
          summary resume ]
        ++ flat_map (fun exp => exp_title exp :: exp_company exp :: exp_bullets exp)
                    (experience resume)
        ++ List.filter truthy (flat_map snd (skills resume))
        ++ flat_map (fun edu => [edu_degree edu; edu_school edu])
                    (match education resume with Some l => l | None => [] end))).

Definition sumScores (kw : Z) (rel : number) (qn fm rd : Z) : number :=
  num_add (num_add (num_add (num_add (Num kw) rel) (Num qn)) (Num fm)) (Num rd).

Definition computeATSScore (resume : ResumeJson) (jdText : string) : ATSResult :=
  let resumeText := resumeTextOf resume in
  let keywordData := calculateKeywordScore resumeText jdText in
  let quantificationData := calculateQuantificationScore resume in
  let formattingData := calculateFormattingScore resume in
  let readabilityData := calculateReadabilityScore (resumeText +:+ " " +:+ jdText) in
  let relevancyScore :=
    Z.min 25 (Math_round (inject_Z (kw_score keywordData) * (6 # 10) + 10)%Q) in
  let breakdown :=
    {| keywords := keywordData;
       relevancy := {| rl_score := Num relevancyScore; rl_total := 25 |};
       quantification := quantificationData;
       formatting := formattingData;
       readability := readabilityData |} in
  let overall :=
    sumScores (kw_score (keywords breakdown)) (rl_score (relevancy breakdown))
              (qn_score (quantification breakdown)) (fm_score (formatting breakdown))
              (rd_score (readability breakdown)) in
  {| overall := overall; breakdown := breakdown;
     suggestions := generateSuggestions breakdown |}.

(** *** The embeddings path

    An embedding is a vector of reals; the similarity needs a square
    root, so this part of the model is over [R]. A quotient by zero is
    [0 / 0] (a zero norm forces a zero dot product), which is [NaN]. The
    rounding, the overflow and the underflow of doubles are not modelled:
    the model is used at vectors whose products, sums and square roots
    are exact in doubles. *)
Inductive real_number : Type :=
| RNaN
| RNum (r : R).

Definition cosineStep (acc : R * R * R) (ab : R * R) : R * R * R :=
  let '(dotProduct, normA, normB) := acc in
  let '(a, b) := ab in
  (dotProduct + a * b, normA + a * a, normB + b * b)%R.

Definition calculateCosineSimilarity (a b : list R) : real_number :=
  if negb (Nat.eqb (length a) (length b)) then RNum 0%R
  else
    let '(dotProduct, normA, normB) :=
      fold_left cosineStep (combine a b) (0, 0, 0)%R in
    let denominator := (sqrt normA * sqrt normB)%R in
    if Req_EM_T denominator 0%R then RNaN
    else RNum (dotProduct / denominator)%R.

(** [Math.round] of a real: [floor (x + 1/2)]. *)
Definition Math_round_R (x : real_number) : number :=
  match x with
  | RNaN => NaN
  | RNum r => Num (Int_part (r + / 2)%R)
  end.

Definition real_mul (x : real_number) (c : R) : real_number :=
  match x with
  | RNaN => RNaN
  | RNum r => RNum (r * c)%R
  end.

Definition computeATSScoreWithEmbeddings
           (resume : ResumeJson) (jdText : string)
           (resumeEmbedding jdEmbedding : option (list R)) : ATSResult :=
  let baseResult := computeATSScore resume jdText in
  match resumeEmbedding, jdEmbedding with
  | Some re, Some je =>
      let cosineSimilarity := calculateCosineSimilarity re je in
      let enhancedRelevancyScore := Math_round_R (real_mul cosineSimilarity 25%R) in
      let b := breakdown baseResult in
      let b' :=
        {| keywords := keywords b;
           relevancy := {| rl_score := enhancedRelevancyScore;
                           rl_total := rl_total (relevancy b) |};
           quantification := quantification b;
           formatting := formatting b;
           readability := readability b |} in
      {| overall :=
           sumScores (kw_score (keywords b')) enhancedRelevancyScore
                     (qn_score (quantification b')) (fm_score (formatting b'))
                     (rd_score (readability b'));
         breakdown := b';
         suggestions := suggestions baseResult |}
  | _, _ => baseResult
  end.

End ATSEngine.

(* ===================================================================== *)
(** ** server/services/gemini-ats-scorer.ts: the quota gate               *)
(* ===================================================================== *)

Module QuotaGate.

(** The two module-level variables [dailyRequestCount], [lastResetDate]. *)
Record QuotaState : Type := {
  dailyRequestCount : Z;
  lastResetDate : string
}.

Definition MAX_DAILY_REQUESTS : Z := 45.

(** [today] is [new Date().toDateString()] at the time of the call. *)
Definition checkQuotaLimit (today : string) (q : QuotaState) : bool * QuotaState :=
  let q' :=
    if negb (String.eqb today (lastResetDate q))
    then {| dailyRequestCount := 0; lastResetDate := today |}
    else q in
  (dailyRequestCount q' <? MAX_DAILY_REQUESTS, q').

Definition incrementQuotaCount (q : QuotaState) : QuotaState :=
  {| dailyRequestCount := dailyRequestCount q + 1;
     lastResetDate := lastResetDate q |}.

(** [n] calls of [incrementQuotaCount]. *)
Fixpoint consume (n : nat) (q : QuotaState) : QuotaState :=
  match n with
  | O => q
  | S n' => consume n' (incrementQuotaCount q)
  end.

End QuotaGate.

(* ===================================================================== *)
(** ** server/services/gemini-ats-scorer.ts: the assisted scorer          *)
(* ===================================================================== *)

Module GeminiScorer.
Import JS Schema QuotaGate.

(** A JS number: a finite value (an exact rational here), an infinity
    ([JSON.parse] of [1e999]) or [NaN]. *)
Inductive jsnum : Type :=
| JNaN
| JNegInf
| JFin (q : Q)
| JPosInf.

(** A value of [any] type, as [JSON.parse] and property access give it. *)
#[local] Set Warnings "-register-all".
Inductive JValue : Type :=
| JUndefined
| JNull
| JBool (b : bool)
| JNumber (n : jsnum)
| JString (s : string)
| JArray (items : list JValue)
| JObject (fields : list (string * JValue)).
#[local] Set Warnings "register-all".

(** The conversions of the JS engine that are not code of the repository:
    [ToNumber] of a string, and of an array whose conversion to a string
    does not throw. *)
Record Runtime : Type := {
  StringToNumber : string -> jsnum;
  ArrayToNumber : list JValue -> jsnum
}.

(** [Object.hasOwn]: the object was parsed from JSON text with this key. *)
Definition hasOwn (fields : list (string * JValue)) (key : string) : bool :=
  existsb (fun field => String.eqb (fst field) key) fields.

(** The conversion of a parsed value to a primitive returns. A parsed
    object holds no function: with a key [toString] of its own, which
    hides [Object.prototype.toString], neither [valueOf] nor [toString]
    gives a primitive and the conversion throws a [TypeError], whatever
    the hint. An array is converted by [join], which converts each
    element other than [null] to a string. *)
Fixpoint convertible (v : JValue) : bool :=
  match v with
  | JArray items => forallb convertible items
  | JObject fields => negb (hasOwn fields "toString")
  | _ => true
  end.

Definition isTruthy (v : JValue) : bool :=
  match v with
  | JUndefined | JNull => false
  | JBool b => b
  | JNumber JNaN => false
  | JNumber (JFin q) => negb (Qeq_bool q 0)
  | JNumber _ => true
  | JString s => truthy s
  | JArray _ | JObject _ => true
  end.

(** [v || d] *)
Definition orElse (v d : JValue) : JValue := if isTruthy v then v else d.

(** An object without a key [toString] of its own is converted through
    the string [[object Object]], which is not a number. *)
Definition ToNumber (rt : Runtime) (v : JValue) : Completion jsnum :=
  match v with
  | JUndefined => Return JNaN
  | JNull => Return (JFin 0)
  | JBool b => Return (if b then JFin 1 else JFin 0)
  | JNumber n => Return n
  | JString s => Return (StringToNumber rt s)
  | JArray items =>
      if convertible v then Return (ArrayToNumber rt items) else Throw "TypeError"
  | JObject _ =>
      if convertible v then Return JNaN else Throw "TypeError"
  end.

(** [a <= b] on numbers that are not [NaN]. *)
Definition num_leb (a b : jsnum) : bool :=
  match a, b with
  | JNaN, _ | _, JNaN => false
  | JNegInf, _ => true
  | _, JPosInf => true
  | JFin p, JFin q => Qle_bool p q
  | _, _ => false
  end.

Definition num_max (a b : jsnum) : jsnum :=
  match a, b with
  | JNaN, _ | _, JNaN => JNaN
  | _, _ => if num_leb a b then b else a
  end.

Definition num_min (a b : jsnum) : jsnum :=
  match a, b with
  | JNaN, _ | _, JNaN => JNaN
  | _, _ => if num_leb a b then a else b
  end.

(** [Math.max(lo, v)] and [Math.min(hi, v)] with a numeric literal first. *)
Definition Math_max (rt : Runtime) (lo : Q) (v : JValue) : Completion jsnum :=
  n <- ToNumber rt v ;;
  Return (num_max (JFin lo) n).

Definition Math_min (hi : Q) (n : jsnum) : jsnum := num_min (JFin hi) n.

Definition num_add (a b : jsnum) : jsnum :=
  match a, b with
  | JNaN, _ | _, JNaN => JNaN
  | JFin p, JFin q => JFin (p + q)
  | JPosInf, JNegInf | JNegInf, JPosInf => JNaN
  | JPosInf, _ | _, JPosInf => JPosInf
  | JNegInf, _ | _, JNegInf => JNegInf
  end.

Fixpoint lookupField (fields : list (string * JValue)) (key : string) : JValue :=
  match fields with
  | [] => JUndefined
  | (k, v) :: rest => if String.eqb k key then v else lookupField rest key
  end.

(** [v?.key] for a key that no prototype defines ([score], [matched],
    [total], [missing], ...): the field of an object, [undefined] for
    anything else. *)
Definition getOpt (v : JValue) (key : string) : JValue :=
  match v with
  | JObject fields => lookupField fields key
  | _ => JUndefined
  end.

Record KeywordData : Type := {
  kw_score : jsnum;
  kw_matched : jsnum;
  kw_total : jsnum;
  kw_missing : list JValue
}.

Record RelevancyData : Type := { rl_score : jsnum; rl_total : jsnum }.

Record QuantificationData : Type := {
  qn_score : jsnum;
  qn_total : jsnum;
  qn_quantifiedBullets : jsnum;
  qn_totalBullets : jsnum
}.

Record FormattingData : Type := { fm_score : jsnum; fm_total : jsnum }.

Record ReadabilityData : Type := {
  rd_score : jsnum;
  rd_total : jsnum;
  rd_gradeLevel : jsnum
}.

Record ATSBreakdown : Type := {
  keywords : KeywordData;
  relevancy : RelevancyData;
  quantification : QuantificationData;
  formatting : FormattingData;
  readability : ReadabilityData
}.

Record ATSResult : Type := {
  overall : jsnum;
  breakdown : ATSBreakdown;
  suggestions : list JValue
}.

Definition sumScores (b : ATSBreakdown) : jsnum :=
  num_add (num_add (num_add (num_add (kw_score (keywords b)) (rl_score (relevancy b)))
                            (qn_score (quantification b)))
                   (fm_score (formatting b)))
          (rd_score (readability b)).

Definition ofZ (z : Z) : jsnum := JFin (inject_Z z).

Definition orNA (s : string) : string := if truthy s then s else "N/A".

Definition optLine (label : string) (o : option string) : list string :=
  match o with
  | Some v => if truthy v then [label +:+ v] else []
  | None => []
  end.

Definition NL : string := String (ascii_of_N 10) EmptyString.

(** The bullet sign U+2022 is outside Latin-1; it stands here as its
    UTF-8 bytes, which are not word characters. *)
Definition convertResumeToText (resume : ResumeJson) : string :=
  let p := personalInfo resume in
  let parts :=
    ([ "Name: " +:+ orNA (pi_name p);
       "Email: " +:+ orNA (pi_email p);
       "Phone: " +:+ orNA (pi_phone p);
       "Location: " +:+ orNA (pi_location p) ]
     ++ optLine "LinkedIn: " (pi_linkedin p)
     ++ optLine "GitHub: " (pi_github p))%list in
  let parts :=
    if truthy (summary resume)
    then (parts ++ [NL +:+ "PROFESSIONAL SUMMARY:" +:+ NL +:+ summary resume])%list
    else parts in
  let parts :=
    match experience resume with
    | [] => parts
    | exps =>
        (parts ++ [NL +:+ "WORK EXPERIENCE:"]
         ++ flat_map
              (fun exp =>
                 [ NL +:+ orNA (exp_title exp) +:+ " at " +:+ orNA (exp_company exp);
                   orNA (exp_startDate exp) +:+ " - " +:+ orNA (exp_endDate exp) ]
                 ++ List.map (fun bullet => "• " +:+ bullet) (exp_bullets exp))
              exps)%list
    end in
  let parts :=
    (parts ++ [NL +:+ "SKILLS:"]
     ++ flat_map
          (fun entry : string * list string =>
             let (category, items) := entry in
             match items with
             | [] => []
             | _ => [category +:+ ": " +:+ join ", " items]
             end)
          (skills resume))%list in
  let parts :=
    match education resume with
    | Some ((_ :: _) as edus) =>
        (parts ++ [NL +:+ "EDUCATION:"]
         ++ flat_map
              (fun edu =>
                 [orNA (edu_degree edu) +:+ " - " +:+ orNA (edu_school edu)]
                 ++ (if truthy (edu_graduation edu)
                     then ["Graduation: " +:+ edu_graduation edu] else [])
                 ++ optLine "GPA: " (edu_gpa edu))
              edus)%list
    | _ => parts
    end in
  join NL parts.

Definition stopWords : list string :=
  [ "the"; "and"; "for"; "are"; "but"; "not"; "you"; "all"; "can"; "had"; "her";
    "was"; "one"; "our"; "out"; "day"; "get"; "has"; "him"; "his"; "how"; "may";
    "new"; "now"; "old"; "see"; "two"; "way"; "who"; "boy"; "did"; "its"; "let";
    "put"; "say"; "she"; "too"; "use" ].

(** [/\b\w{3,}\b/g] *)
Definition wordPattern : regex :=
  Seq Bnd (Seq (Cls isWordChar) (Seq (Cls isWordChar) (Seq (Cls isWordChar)
    (Seq (Star isWordChar) Bnd)))).

Definition fallbackSuggestions : list string :=
  [ "Add more relevant keywords from the job description";
    "Include specific metrics and numbers in experience bullets";
    "Ensure all required sections are complete and well-formatted";
    "Tailor your experience descriptions to match job requirements" ].

(** The bullets are classified with the same regular-expression literal
    as in ats-engine.ts. *)
Definition getFallbackATSScore (resume : ResumeJson) (jdText : string) : ATSResult :=
  let resumeText := toLowerCase (convertResumeToText resume) in
  let jdLower := toLowerCase jdText in
  let jdWords := matchAll wordPattern jdLower in
  let uniqueWords := fold_left (fun set w => setAdd w set) jdWords [] in
  let commonKeywords :=
    slice0 20 (List.filter (fun word => negb (arrIncludes stopWords word)
                                        && (3 <? strlen word)) uniqueWords) in
  let matchedKeywords :=
    List.filter (fun keyword => includes resumeText keyword) commonKeywords in
  let nMatched := Z.of_nat (length matchedKeywords) in
  let nCommon := Z.of_nat (length commonKeywords) in
  let keywordScore :=
    Math_round ((inject_Z nMatched / inject_Z (Z.max nCommon 1)) * 40)%Q in
  let '(totalBullets, quantifiedBullets) := ATSEngine.countBullets resume in
  let quantificationScore :=
    if 0 <? totalBullets
    then Math_round ((inject_Z quantifiedBullets / inject_Z totalBullets) * 15)%Q
    else 0 in
  let formattingScore := 10 in
  let formattingScore :=
    if negb (truthy (pi_name (personalInfo resume)))
       || negb (truthy (pi_email (personalInfo resume)))
    then formattingScore - 3 else formattingScore in
  let formattingScore :=
    if negb (truthy (summary resume)) || (strlen (summary resume) <? 50)
    then formattingScore - 2 else formattingScore in
  let formattingScore :=
    if Z.of_nat (length (experience resume)) =? 0
    then formattingScore - 3 else formattingScore in
  (* [!resume.skills]: a record is an object, which is truthy *)
  let breakdown :=
    {| keywords :=
         {| kw_score := ofZ keywordScore;
            kw_matched := ofZ nMatched;
            kw_total := ofZ nCommon;
            kw_missing :=
              List.map JString
                (slice0 5 (List.filter (fun kw => negb (arrIncludes matchedKeywords kw))
                                       commonKeywords)) |};
       relevancy := {| rl_score := ofZ (Z.min 25 (keywordScore + 5)); rl_total := ofZ 25 |};
       quantification :=
         {| qn_score := ofZ quantificationScore; qn_total := ofZ 15;
            qn_quantifiedBullets := ofZ quantifiedBullets;
            qn_totalBullets := ofZ totalBullets |};
       formatting := {| fm_score := ofZ (Z.max 0 formattingScore); fm_total := ofZ 10 |};
       readability := {| rd_score := ofZ 8; rd_total := ofZ 10; rd_gradeLevel := ofZ 10 |}
    |} in
  {| overall := sumScores breakdown;
     breakdown := breakdown;
     suggestions := List.map JString fallbackSuggestions |}.

(** *** The call to the external model

    What the code cannot decide by itself comes from the environment:
    the two environment variables, the date, and the outcome of the
    request. [parsed] is the value of [JSON.parse] on the matched part of
    [text] ([None] when it throws); the match starts with a brace, so a
    value it returns is an object, given by its fields. *)
Inductive ModelOutcome : Type :=
| ClientFails
| CallFails
| ResponseText (text : string) (parsed : option (list (string * JValue))).

Record Env : Type := {
  GEMINI_API_KEY : option string;
  VITE_GEMINI_API_KEY : option string;
  today : string;
  model : ModelOutcome
}.

(** [process.env.GEMINI_API_KEY || process.env.VITE_GEMINI_API_KEY] *)
Definition apiKeyOf (env : Env) : option string :=
  match GEMINI_API_KEY env with
  | Some k => if truthy k then Some k else VITE_GEMINI_API_KEY env
  | None => VITE_GEMINI_API_KEY env
  end.

Definition keyUnusable (apiKey : option string) : bool :=
  match apiKey with
  | None => true
  | Some k =>
      negb (truthy k) || String.eqb k "your_gemini_api_key_here"
      || String.eqb k "default_key"
  end.

(** [/\{[\s\S]*\}/] *)
Definition jsonPattern : regex :=
  Seq (chr "{") (Seq (Star (fun _ => true)) (chr "}")).

Definition isArray (v : JValue) : bool :=
  match v with JArray _ => true | _ => false end.

Definition sliceArray (n : nat) (v : JValue) : list JValue :=
  match v with JArray items => slice0 n items | _ => [] end.

Definition zero : JValue := JNumber (JFin 0).
Definition one : JValue := JNumber (JFin 1).

(** [Math.min(hi, Math.max(0, v || 0))] *)
Definition clampScore (rt : Runtime) (hi : Q) (v : JValue) : Completion jsnum :=
  n <- Math_max rt 0 (orElse v zero) ;;
  Return (Math_min hi n).

(** "Validate and sanitize scores": the ten numeric fields are converted
    in the order of the object literal, and the first conversion that
    throws ends the evaluation. *)
Definition sanitize (rt : Runtime) (analysis : list (string * JValue))
  : Completion ATSResult :=
  let kw := lookupField analysis "keywords" in
  let rl := lookupField analysis "relevancy" in
  let qn := lookupField analysis "quantification" in
  let fm := lookupField analysis "formatting" in
  let rd := lookupField analysis "readability" in
  kwScore <- clampScore rt 40 (getOpt kw "score") ;;
  kwMatched <- Math_max rt 0 (orElse (getOpt kw "matched") zero) ;;
  kwTotal <- Math_max rt 1 (orElse (getOpt kw "total") one) ;;
  rlScore <- clampScore rt 25 (getOpt rl "score") ;;
  qnScore <- clampScore rt 15 (getOpt qn "score") ;;
  qnQuantifiedBullets <- Math_max rt 0 (orElse (getOpt qn "quantifiedBullets") zero) ;;
  qnTotalBullets <- Math_max rt 1 (orElse (getOpt qn "totalBullets") one) ;;
  fmScore <- clampScore rt 10 (getOpt fm "score") ;;
  rdScore <- clampScore rt 10 (getOpt rd "score") ;;
  rdGradeLevel <- Math_max rt 1 (orElse (getOpt rd "gradeLevel") (JNumber (JFin 10))) ;;
  let breakdown :=
    {| keywords :=
         {| kw_score := kwScore;
            kw_matched := kwMatched;
            kw_total := kwTotal;
            kw_missing :=
              if isArray (getOpt kw "missing")
              then sliceArray 5 (getOpt kw "missing") else [] |};
       relevancy := {| rl_score := rlScore; rl_total := ofZ 25 |};
       quantification :=
         {| qn_score := qnScore;
            qn_total := ofZ 15;
            qn_quantifiedBullets := qnQuantifiedBullets;
            qn_totalBullets := qnTotalBullets |};
       formatting := {| fm_score := fmScore; fm_total := ofZ 10 |};
       readability :=
         {| rd_score := rdScore;
            rd_total := ofZ 10;
            rd_gradeLevel := rdGradeLevel |}
    |} in
  Return {| overall := sumScores breakdown;
            breakdown := breakdown;
            suggestions :=
              if isArray (lookupField analysis "suggestions")
              then sliceArray 5 (lookupField analysis "suggestions")
              else [JString "Resume analyzed successfully"] |}.

(** The inner [try]: the match and [JSON.parse]. *)
Definition parseResponse (text : string)
           (parsed : option (list (string * JValue)))
  : Completion (list (string * JValue)) :=
  if test jsonPattern text
  then match parsed with
       | Some analysis => Return analysis
       | None => Throw "SyntaxError"
       end
  else Throw "No JSON found in response".

(** The body of the outer [try]: the inner [catch] answers a failure of
    the match and of [JSON.parse] with the fallback result; a conversion
    that throws while the scores are sanitized leaves the body. *)
Definition scoreBody (rt : Runtime) (env : Env) (q : QuotaState)
           (resume : ResumeJson) (jdText : string)
  : Completion ATSResult * QuotaState :=
  if keyUnusable (apiKeyOf env)
  then (Return (getFallbackATSScore resume jdText), q)
  else
    let '(hasQuota, q) := checkQuotaLimit (today env) q in
    if negb hasQuota
    then (Return (getFallbackATSScore resume jdText), q)
    else
      match model env with
      | ClientFails => (Throw "Gemini client", q)
      | CallFails => (Throw "generateContent", incrementQuotaCount q)
      | ResponseText text parsed =>
          let q := incrementQuotaCount q in
          match parseResponse text parsed with
          | Throw _ => (Return (getFallbackATSScore resume jdText), q)
          | Return analysis => (sanitize rt analysis, q)
          end
      end.

(** The function with its outer [catch]. *)
Definition computeGeminiATSScore (rt : Runtime) (env : Env) (q : QuotaState)
           (resume : ResumeJson) (jdText : string)
  : Completion ATSResult * QuotaState :=
  match scoreBody rt env q resume jdText with
  | (Return result, q') => (Return result, q')
  | (Throw _, q') => (Return (getFallbackATSScore resume jdText), q')
  end.

End GeminiScorer.

(* ===================================================================== *)
(** ** server/storage.ts: the tables the batch processor uses             *)
(* ===================================================================== *)

Module Storage.
Import Schema.

Inductive JobStatus : Type := pending | running | completed | error.

(** One entry of the [results] array of a batch. *)
Record BatchResult : Type := {
  res_jdId : string;
  res_jdTitle : string;
  res_coverId : option string;
  res_error : option string;
  res_success : bool
}.

(** What the processor stores in the [artifacts] column. *)
Inductive Artifacts : Type :=
| ResultsArtifact (results : list BatchResult)
| ErrorArtifact (message : string).

Record BatchPayload : Type := {
  resumeId : string;
  jdIds : list string;
  tone : string;
  wordCount : Z;
  userId : string
}.

(** The rows, without the [created_at] and [updated_at] columns. *)
Record Job : Type := {
  job_id : string;
  job_type : string;
  job_payload : BatchPayload;
  job_status : JobStatus;
  job_artifacts : option Artifacts
}.

Record Resume : Type := {
  resume_id : string;
  resume_userId : string;
  resume_title : string;
  resume_json : ResumeJson
}.

Record JobDescription : Type := {
  jd_id : string;
  jd_title : string;
  jd_company : string;
  jd_rawText : string
}.

Record CoverLetter : Type := {
  cl_id : string;
  cl_userId : string;
  cl_resumeId : string;
  cl_jdId : string;
  cl_tone : string;
  cl_contentMd : string;
  cl_version : Z
}.

Record Store : Type := {
  resumes : gmap string Resume;
  jobDescriptions : gmap string JobDescription;
  coverLetters : gmap string CoverLetter;
  jobs : gmap string Job
}.

Definition getJob (db : Store) (id : string) : option Job := jobs db !! id.

Definition getResume (db : Store) (id : string) : option Resume := resumes db !! id.

Definition getJobDescription (db : Store) (id : string) : option JobDescription :=
  jobDescriptions db !! id.

Definition withJobs (db : Store) (js : gmap string Job) : Store :=
  {| resumes := resumes db; jobDescriptions := jobDescriptions db;
     coverLetters := coverLetters db; jobs := js |}.

(** [createJob]: [id] is the value [randomUUID()] returned. *)
Definition createJob (db : Store) (id : string) (type : string)
           (payload : BatchPayload) (status : JobStatus) : Job * Store :=
  let job := {| job_id := id; job_type := type; job_payload := payload;
                job_status := status; job_artifacts := None |} in
  (job, withJobs db (<[id := job]> (jobs db))).

(** [updateJobStatus]: an UPDATE of the row with this id, if there is one. *)
Definition updateJobStatus (db : Store) (id : string) (status : JobStatus)
           (artifacts : option Artifacts) : Store :=
  match jobs db !! id with
  | Some job =>
      withJobs db (<[id := {| job_id := job_id job; job_type := job_type job;
                              job_payload := job_payload job;
                              job_status := status;
                              job_artifacts := artifacts |}]> (jobs db))
  | None => db
  end.

(** [createCoverLetter]: [id] is the value [randomUUID()] returned. *)
Definition createCoverLetter (db : Store) (id : string) (userId resumeId jdId tone
                                                         contentMd : string)
           (version : Z) : CoverLetter * Store :=
  let letter := {| cl_id := id; cl_userId := userId; cl_resumeId := resumeId;
                   cl_jdId := jdId; cl_tone := tone; cl_contentMd := contentMd;
                   cl_version := version |} in
  (letter,
   {| resumes := resumes db; jobDescriptions := jobDescriptions db;
      coverLetters := <[id := letter]> (coverLetters db); jobs := jobs db |}).

End Storage.

(* ===================================================================== *)
(** ** server/routes.ts: the channel registry                             *)
(* ===================================================================== *)

Module Broadcast.
Import JS.

(** A connection is known by a handle; its [readyState] belongs to the
    socket library and is read when a message is about to be sent. *)
Definition ConnId : Type := nat.

Inductive ReadyState : Type := CONNECTING | OPEN | CLOSING | CLOSED.

Definition isOpen (s : ReadyState) : bool :=
  match s with OPEN => true | _ => false end.

(** A [Set<WebSocket>] in insertion order. *)
Definition connAdd (ws : ConnId) (set : list ConnId) : list ConnId :=
  if existsb (Nat.eqb ws) set then set else set ++ [ws].

Definition connDelete (ws : ConnId) (set : list ConnId) : list ConnId :=
  List.filter (fun x => negb (Nat.eqb ws x)) set.

(** The handler of an incoming [{channel}] message. *)
Definition subscribe (channel : string) (ws : ConnId)
           (wsConnections : gmap string (list ConnId)) : gmap string (list ConnId) :=
  if truthy channel
  then
    let wsConnections :=
      match wsConnections !! channel with
      | Some _ => wsConnections
      | None => <[channel := []]> wsConnections
      end in
    match wsConnections !! channel with
    | Some set => <[channel := connAdd ws set]> wsConnections
    | None => wsConnections
    end
  else wsConnections.

(** The [close] handler. *)
Definition unsubscribe (ws : ConnId) (wsConnections : gmap string (list ConnId))
  : gmap string (list ConnId) :=
  connDelete ws <$> wsConnections.

Section Publish.
Context {D : Type}.

(** The text [JSON.stringify({ channel, data })], kept as the pair it
    serializes. *)
Record Message : Type := { msg_channel : string; msg_data : D }.

(** One [ws.send(message)]. *)
Definition Delivery : Type := (ConnId * Message)%type.

Definition sendIfOpen (readyState : ConnId -> ReadyState) (message : Message)
           (sent : list Delivery) (ws : ConnId) : list Delivery :=
  if isOpen (readyState ws) then sent ++ [(ws, message)] else sent.

(** [broadcastToChannel] at a payload that is an object which
    [JSON.stringify] accepts, as the object literals of every call in
    routes.ts are: [Object.keys] and [JSON.stringify] return, and so does
    [ws.send] on an open socket. [sent] is the journal of the messages
    handed to the sockets. *)
Definition broadcastToChannel (readyState : ConnId -> ReadyState)
           (wsConnections : gmap string (list ConnId))
           (channel : string) (data : D) (sent : list Delivery) : list Delivery :=
  match wsConnections !! channel with
  | Some connections =>
      let message := {| msg_channel := channel; msg_data := data |} in
      fold_left (sendIfOpen readyState message) connections sent
  | None => sent
  end.

(** The parameter [data] has the type [any]. [Object.keys(data)], in the
    first log statement, throws a [TypeError] on [null] and on
    [undefined]; [JSON.stringify] throws one on a value that holds a
    cycle or a [BigInt]. *)
Inductive Payload : Type :=
| Nullish
| Unserializable
| Plain (data : D).

(** [broadcastToChannel] at any payload: how the call ends, and the
    journal as the call leaves it. The set of the channel is looked up
    first; [Object.keys(data)] is evaluated before the test of the set,
    and [JSON.stringify] after it, before the first [ws.send]. *)
Definition broadcastToChannelAny (readyState : ConnId -> ReadyState)
           (wsConnections : gmap string (list ConnId))
           (channel : string) (data : Payload) (sent : list Delivery)
  : Completion unit * list Delivery :=
  let connections := wsConnections !! channel in
  match data with
  | Nullish => (Throw "TypeError", sent)
  | Unserializable =>
      match connections with
      | Some _ => (Throw "TypeError", sent)
      | None => (Return tt, sent)
      end
  | Plain d => (Return tt, broadcastToChannel readyState wsConnections channel d sent)
  end.
End Publish.

Arguments Message D : clear implicits.
Arguments Delivery D : clear implicits.
Arguments Payload D : clear implicits.
Arguments Nullish {D}.
Arguments Unserializable {D}.

End Broadcast.

(* ===================================================================== *)
(** ** server/routes.ts: the batch endpoint and its background processor  *)
(* ===================================================================== *)

Module BatchJobs.
Import JS Storage Broadcast.

(** The payloads published on the channel [batch:<jobId>]. *)
Inductive BatchEvent : Type :=
| Generating (progress : Z) (current : string)
| Completed (results : list BatchResult).

(** What one pass of the inner [try] block meets: the letter that
    [generateCoverLetter] returned and the id under which
    [createCoverLetter] stored it, or an exception from either. *)
Inductive TargetOutcome : Type :=
| Generated (content coverId : string)
| Failed.

(** [readyState k ws] is the state of the socket [ws] at the time of the
    [k]-th publish; [targetOp i jd] is what the operation meets for the
    target at index [i]. *)
Record Env : Type := {
  readyState : nat -> ConnId -> ReadyState;
  targetOp : nat -> JobDescription -> TargetOutcome
}.

(** The state of the process: the tables and the channel map, with three
    journals that record what the code did: the calls of
    [broadcastToChannel] ([published]), the messages handed to sockets
    ([sent]), and the statuses stored for each job, one entry per INSERT or
    UPDATE of a row of [jobs] ([statusLog]). *)
Record World : Type := {
  db : Store;
  wsConnections : gmap string (list ConnId);
  published : list (string * BatchEvent);
  sent : list (Delivery BatchEvent);
  statusLog : list (string * JobStatus)
}.

Definition withDb (w : World) (db' : Store) : World :=
  {| db := db'; wsConnections := wsConnections w; published := published w;
     sent := sent w; statusLog := statusLog w |}.

Definition publish (env : Env) (channel : string) (data : BatchEvent) (w : World)
  : World :=
  {| db := db w; wsConnections := wsConnections w;
     published := published w ++ [(channel, data)];
     sent := broadcastToChannel (readyState env (length (published w)))
                                (wsConnections w) channel data (sent w);
     statusLog := statusLog w |}.

Definition setJobStatus (id : string) (status : JobStatus)
           (artifacts : option Artifacts) (w : World) : World :=
  {| db := updateJobStatus (db w) id status artifacts;
     wsConnections := wsConnections w; published := published w; sent := sent w;
     statusLog :=
       match getJob (db w) id with
       | Some _ => statusLog w ++ [(id, status)]
       | None => statusLog w
       end |}.

(** *** POST /api/covers/batch *)
Record BatchRequest : Type := {
  req_resumeId : string;
  req_jdIds : option (list string);   (* [None]: not an array *)
  req_tone : option string;
  req_wordCount : option Z;
  req_userIdHeader : option string
}.

Inductive Response : Type :=
| JobAccepted (jobId : string)
| BadRequest (message : string).

Definition orDefault {A} (o : option A) (d : A) : A :=
  match o with Some x => x | None => d end.

Definition headerOr (o : option string) (d : string) : string :=
  match o with Some s => if truthy s then s else d | None => d end.

(** The statements of the handler itself; [newId] is the id that
    [createJob] draws. Between [createJob] and its response the handler
    calls [processBatchCoverLetters], which starts in the state that
    this function returns and stores [running] before the server takes
    another request: [handle], below, is the whole task. *)
Definition postCoversBatch (newId : string) (req : BatchRequest) (w : World)
  : Response * World :=
  match req_jdIds req with
  | Some ((_ :: _) as ids) =>
      let payload :=
        {| resumeId := req_resumeId req; jdIds := ids;
           tone := orDefault (req_tone req) "professional";
           wordCount := orDefault (req_wordCount req) 250;
           userId := headerOr (req_userIdHeader req) "anonymous" |} in
      let '(job, db') := createJob (db w) newId "batch_cover_letters" payload pending in
      (JobAccepted (job_id job),
       {| db := db'; wsConnections := wsConnections w; published := published w;
          sent := sent w; statusLog := statusLog w ++ [(newId, pending)] |})
  | _ => (BadRequest "jdIds array is required", w)
  end.

(** GET /api/jobs/:id *)
Definition getJobStatus (w : World) (id : string) : option Job := getJob (db w) id.

(** *** processBatchCoverLetters *)

(** [Math.round((i / jds.length) * 100)] in exact arithmetic. *)
Definition progressOf (i : nat) (n : nat) : Z :=
  Math_round ((inject_Z (Z.of_nat i) / inject_Z (Z.of_nat n)) * 100)%Q.

(** The same expression in the doubles of the code: the quotient is
    rounded before it is multiplied, which can move a value that is at a
    half in exact arithmetic. *)
Definition progressInDoubles (i : nat) (n : nat) : Double.double :=
  Double.Math_round
    (PrimFloat.mul (PrimFloat.div (Double.ofZ (Z.of_nat i)) (Double.ofZ (Z.of_nat n)))
                   (Double.ofZ 100)).

Definition successEntry (jd : JobDescription) (coverId : string) : BatchResult :=
  {| res_jdId := jd_id jd; res_jdTitle := jd_title jd; res_coverId := Some coverId;
     res_error := None; res_success := true |}.

Definition failureEntry (jd : JobDescription) : BatchResult :=
  {| res_jdId := jd_id jd; res_jdTitle := jd_title jd; res_coverId := None;
     res_error := Some "Generation failed"; res_success := false |}.

(** The [for] loop from index [i] on; [n] is [jds.length]. The delay
    between two targets takes time and changes no state. *)
Fixpoint targetLoop (env : Env) (channel : string) (p : BatchPayload) (n : nat)
         (i : nat) (jds : list (option JobDescription))
         (w : World) (results : list BatchResult) : World * list BatchResult :=
  match jds with
  | [] => (w, results)
  | None :: rest => targetLoop env channel p n (S i) rest w results
  | Some jd :: rest =>
      let w := publish env channel (Generating (progressOf i n) (jd_title jd)) w in
      match targetOp env i jd with
      | Generated content coverId =>
          let '(coverLetter, db') :=
            createCoverLetter (db w) coverId (userId p) (resumeId p) (jd_id jd)
                              (tone p) content 1 in
          targetLoop env channel p n (S i) rest (withDb w db')
                     (results ++ [successEntry jd (cl_id coverLetter)])
      | Failed =>
          targetLoop env channel p n (S i) rest w (results ++ [failureEntry jd])
      end
  end.

(** The store of this model does not fail, so the outer [catch] (which
    would store [error]) is entered by no run; the inner one is
    [Failed]. *)
Definition processBatchCoverLetters (env : Env) (jobId : string) (w : World) : World :=
  match getJob (db w) jobId with
  | None => w
  | Some job =>
      let w := setJobStatus jobId running None w in
      let p := job_payload job in
      let resume := getResume (db w) (resumeId p) in
      let jds := List.map (getJobDescription (db w)) (jdIds p) in
      match resume with
      | None => setJobStatus jobId error (Some (ErrorArtifact "Resume not found")) w
      | Some _ =>
          let channel := "batch:" +:+ jobId in
          let '(w, results) := targetLoop env channel p (length jds) 0 jds w [] in
          let w := publish env channel (Completed results) w in
          setJobStatus jobId completed (Some (ResultsArtifact results)) w
      end
  end.

(** The statuses stored for one job, oldest first. *)
Definition statusesOf (id : string) (w : World) : list JobStatus :=
  List.map snd (List.filter (fun e => String.eqb (fst e) id) (statusLog w)).

(** The entry the loop appends for the target at index [i]. *)
Definition entryFor (env : Env) (i : nat) (jd : JobDescription) : BatchResult :=
  match targetOp env i jd with
  | Generated _ coverId => successEntry jd coverId
  | Failed => failureEntry jd
  end.

(** The targets whose lookup gave a job description, each with its index
    in the requested list. *)
Fixpoint resolvedFrom (i : nat) (jds : list (option JobDescription))
  : list (nat * JobDescription) :=
  match jds with
  | [] => []
  | None :: rest => resolvedFrom (S i) rest
  | Some jd :: rest => (i, jd) :: resolvedFrom (S i) rest
  end.

(** *** The server, one task at a time

    Every method of the store is an [async] function with a synchronous
    body, so an [await] of one resumes in a microtask, before the server
    takes another request or runs a timer. The processor gives way to
    other tasks at two places only: while [generateCoverLetter] is
    pending, and during the delay of one second. *)
Inductive Wait : Type :=
| AwaitGeneration (jd : JobDescription)
| AwaitDelay.

(** The local variables of a suspended [processBatchCoverLetters]:
    [sp_i] is the index [i], [sp_rest] holds the elements of [jds] after
    that index, and [sp_total] is [jds.length]. *)
Record Suspended : Type := {
  sp_payload : BatchPayload;
  sp_total : nat;
  sp_i : nat;
  sp_rest : list (option JobDescription);
  sp_results : list BatchResult;
  sp_wait : Wait
}.

(** The process between two tasks: its state and the processors that are
    suspended, by the id of their job. *)
Record Server : Type := {
  world : World;
  waiting : gmap string Suspended
}.

(** The [for] loop from index [i], until it gives way at the call of
    [generateCoverLetter] or ends; after the loop the processor publishes
    the results and stores [completed]. *)
Fixpoint loopFrom (env : Env) (jobId : string) (p : BatchPayload) (n : nat)
         (i : nat) (jds : list (option JobDescription))
         (results : list BatchResult) (w : World) : World * option Suspended :=
  match jds with
  | [] =>
      let channel := "batch:" +:+ jobId in
      let w := publish env channel (Completed results) w in
      (setJobStatus jobId completed (Some (ResultsArtifact results)) w, None)
  | None :: rest => loopFrom env jobId p n (S i) rest results w
  | Some jd :: rest =>
      let channel := "batch:" +:+ jobId in
      let w := publish env channel (Generating (progressOf i n) (jd_title jd)) w in
      (w, Some {| sp_payload := p; sp_total := n; sp_i := i; sp_rest := rest;
                  sp_results := results; sp_wait := AwaitGeneration jd |})
  end.

(** [processBatchCoverLetters] from its call to the first place where it
    gives way, or to its end. *)
Definition startProcessor (env : Env) (jobId : string) (w : World)
  : World * option Suspended :=
  match getJob (db w) jobId with
  | None => (w, None)
  | Some job =>
      let w := setJobStatus jobId running None w in
      let p := job_payload job in
      let resume := getResume (db w) (resumeId p) in
      let jds := List.map (getJobDescription (db w)) (jdIds p) in
      match resume with
      | None =>
          (setJobStatus jobId error (Some (ErrorArtifact "Resume not found")) w, None)
      | Some _ => loopFrom env jobId p (length jds) 0 jds [] w
      end
  end.

(** The rest of the inner [try] block once [generateCoverLetter] has
    settled, up to the delay. *)
Definition afterGeneration (sp : Suspended) (jd : JobDescription)
           (outcome : TargetOutcome) (w : World) : World * Suspended :=
  let p := sp_payload sp in
  match outcome with
  | Generated content coverId =>
      let '(coverLetter, db') :=
        createCoverLetter (db w) coverId (userId p) (resumeId p) (jd_id jd)
                          (tone p) content 1 in
      (withDb w db',
       {| sp_payload := p; sp_total := sp_total sp; sp_i := sp_i sp;
          sp_rest := sp_rest sp;
          sp_results := sp_results sp ++ [successEntry jd (cl_id coverLetter)];
          sp_wait := AwaitDelay |})
  | Failed =>
      (w,
       {| sp_payload := p; sp_total := sp_total sp; sp_i := sp_i sp;
          sp_rest := sp_rest sp;
          sp_results := sp_results sp ++ [failureEntry jd];
          sp_wait := AwaitDelay |})
  end.

(** What the server runs without giving way: a request to the batch
    endpoint, the continuation of a processor whose generation settled
    with [outcome] or whose delay elapsed, a message that subscribes a
    socket, and the [close] of a socket. *)
Inductive Task : Type :=
| PostCoversBatch (newId : string) (req : BatchRequest)
| GenerationSettles (jobId : string) (outcome : TargetOutcome)
| DelayElapses (jobId : string)
| SubscribeMessage (channel : string) (ws : ConnId)
| SocketCloses (ws : ConnId).

Definition withWorld (s : Server) (w : World) : Server :=
  {| world := w; waiting := waiting s |}.

Definition withConnections (w : World) (connections : gmap string (list ConnId))
  : World :=
  {| db := db w; wsConnections := connections; published := published w;
     sent := sent w; statusLog := statusLog w |}.

(** A task that meets no processor in the state it continues changes
    nothing; [randomUUID] draws no id that is in use. *)
Definition handle (env : Env) (task : Task) (s : Server) : Server :=
  match task with
  | PostCoversBatch newId req =>
      match getJob (db (world s)) newId with
      | Some _ => s
      | None =>
          match postCoversBatch newId req (world s) with
          | (JobAccepted jobId, w) =>
              match startProcessor env jobId w with
              | (w, Some sp) => {| world := w; waiting := <[jobId := sp]> (waiting s) |}
              | (w, None) => withWorld s w
              end
          | (BadRequest _, w) => withWorld s w
          end
      end
  | GenerationSettles jobId outcome =>
      match waiting s !! jobId with
      | Some sp =>
          match sp_wait sp with
          | AwaitGeneration jd =>
              let '(w, sp) := afterGeneration sp jd outcome (world s) in
              {| world := w; waiting := <[jobId := sp]> (waiting s) |}
          | AwaitDelay => s
          end
      | None => s
      end
  | DelayElapses jobId =>
      match waiting s !! jobId with
      | Some sp =>
          match sp_wait sp with
          | AwaitDelay =>
              match loopFrom env jobId (sp_payload sp) (sp_total sp) (S (sp_i sp))
                             (sp_rest sp) (sp_results sp) (world s) with
              | (w, Some sp) => {| world := w; waiting := <[jobId := sp]> (waiting s) |}
              | (w, None) => {| world := w; waiting := delete jobId (waiting s) |}
              end
          | AwaitGeneration _ => s
          end
      | None => s
      end
  | SubscribeMessage channel ws =>
      withWorld s (withConnections (world s)
                                   (subscribe channel ws (wsConnections (world s))))
  | SocketCloses ws =>
      withWorld s (withConnections (world s) (unsubscribe ws (wsConnections (world s))))
  end.

(** The tasks of a list, one after the other. *)
Definition run (env : Env) (tasks : list Task) (s : Server) : Server :=
  fold_left (fun s task => handle env task s) tasks s.

(** The status that GET /api/jobs/:id reports. *)
Definition reportedStatus (s : Server) (id : string) : option JobStatus :=
  job_status <$> getJobStatus (world s) id.

End BatchJobs.


(* ===================================================================== *)
(** ** server/routes.ts: POST /api/ats/score and GET /api/ats/score       *)
(* ===================================================================== *)

Module AtsRoute.
Import JS Schema QuotaGate GeminiScorer Storage Broadcast.

(** The two payloads published on the channel [ats:<resumeId>:<jdId>]:
    the result with the flag [partial], then with the flag [final]. *)
Inductive ScoreEvent : Type :=
| PartialScore (result : ATSResult)
| FinalScore (result : ATSResult).

(** The two fields the handler reads from the body, for a body in which
    each of them is absent ([None]) or a string. *)
Record ScoreRequest : Type := {
  body_resumeId : option string;
  body_jdId : option string
}.

(** [req.body] has the type [any]: an id can also be a truthy value that
    is not a string. The handler hands it to the look-up of the store as
    the bind parameter of its statement. The database driver refuses to
    bind a boolean and throws; the values that it accepts without their
    being strings (a number, an array) are left out here. *)
Inductive AnyScoreRequest : Type :=
| TypedIds (req : ScoreRequest)
| RejectedId.

Inductive ScoreResponse : Type :=
| ScoreOk (channel : string) (result : ATSResult)
| Status400 (error : string)
| Status404 (error : string)
| Status500 (error : string).

(** The state the two handlers work on: the tables (with [ats_scores],
    keyed by its unique pair of columns), the channel map, the quota
    variables of the scorer, and the journal of the messages handed to
    sockets. *)
Record Server : Type := {
  db : Store;
  atsScores : gmap (string * string) ATSResult;
  wsConnections : gmap string (list ConnId);
  quota : QuotaState;
  sent : list (Delivery ScoreEvent)
}.

Definition withQuota (s : Server) (q : QuotaState) (sent' : list (Delivery ScoreEvent))
  : Server :=
  {| db := db s; atsScores := atsScores s; wsConnections := wsConnections s;
     quota := q; sent := sent' |}.

Definition channelOf (resumeId jdId : string) : string :=
  "ats:" +:+ resumeId +:+ ":" +:+ jdId.

Definition badRequest : ScoreResponse := Status400 "resumeId and jdId are required".

Definition notFound : ScoreResponse := Status404 "Resume or job description not found".

(** POST /api/ats/score on a body whose ids are absent or strings.
    [readyState k] is the state of the sockets at the [k]-th publish of
    the handler. A row of the store holds a resume that follows the
    schema, so its look-up returns. *)
Definition postAtsScore (rt : Runtime) (env : Env) (readyState : nat -> ConnId -> ReadyState)
           (req : ScoreRequest) (s : Server) : ScoreResponse * Server :=
  match body_resumeId req, body_jdId req with
  | Some resumeId, Some jdId =>
      if negb (truthy resumeId) || negb (truthy jdId) then (badRequest, s)
      else
        match getResume (db s) resumeId, getJobDescription (db s) jdId with
        | Some resume, Some jd =>
            let channel := channelOf resumeId jdId in
            match computeGeminiATSScore rt env (quota s) (resume_json resume)
                                        (jd_rawText jd) with
            | (Return atsResult, q) =>
                let sent1 :=
                  broadcastToChannel (readyState 0%nat) (wsConnections s) channel
                                     (PartialScore atsResult) (sent s) in
                let sent2 :=
                  broadcastToChannel (readyState 1%nat) (wsConnections s) channel
                                     (FinalScore atsResult) sent1 in
                (ScoreOk channel atsResult, withQuota s q sent2)
            | (Throw _, q) =>
                (Status500 "Failed to compute ATS score", withQuota s q (sent s))
            end
        | _, _ => (notFound, s)
        end
  | _, _ => (badRequest, s)
  end.

(** POST /api/ats/score on any body: a look-up that throws is met before
    the scorer is called and anything is published, and the [catch] block
    answers 500. *)
Definition postAtsScoreAny (rt : Runtime) (env : Env)
           (readyState : nat -> ConnId -> ReadyState)
           (req : AnyScoreRequest) (s : Server) : ScoreResponse * Server :=
  match req with
  | TypedIds req => postAtsScore rt env readyState req s
  | RejectedId => (Status500 "Failed to compute ATS score", s)
  end.


End AtsRoute.

(* ===================================================================== *)
(** ** server/services/gemini-enhanced.ts: the cached embedding           *)
(* ===================================================================== *)

Module EmbeddingCache.
Import JS QuotaGate.

(** What the request for an embedding meets: an exception while the client
    is built, an exception of [embedContent], or the values it returns. *)
Inductive EmbedOutcome : Type :=
| EmbedClientFails
| EmbedCallFails
| EmbedValues (values : list R).

(** The environment of one call: the two variables, the date, the vector
    that the calls of [Math.random] draw for a mock embedding, and the
    outcome of the request. *)
Record Env : Type := {
  GEMINI_API_KEY : option string;
  VITE_GEMINI_API_KEY : option string;
  today : string;
  mockEmbedding : list R;
  embedContent : EmbedOutcome
}.

(** The module-level state: [embeddingCache] and the two quota variables
    of this module. *)
Record State : Type := {
  embeddingCache : gmap string (list R);
  quota : QuotaState
}.

(** [process.env.GEMINI_API_KEY || process.env.VITE_GEMINI_API_KEY] *)
Definition apiKeyOf (env : Env) : option string :=
  match GEMINI_API_KEY env with
  | Some k => if truthy k then Some k else VITE_GEMINI_API_KEY env
  | None => VITE_GEMINI_API_KEY env
  end.

(** [embeddingCache.set(cacheKey, v)], with the quota variables as the
    call leaves them. *)
Definition remember (cacheKey : string) (v : list R) (st : State) (q : QuotaState) : State :=
  {| embeddingCache := <[cacheKey := v]> (embeddingCache st); quota := q |}.

(** The key of a text: its first 100 characters. *)
Definition cacheKeyOf (text : string) : string := String.substring 0 100 text.

(** How far a call gets before it gives way: it has its answer, or it
    is suspended at [await model.embedContent(text)], where other calls
    can run. *)
Inductive Progress : Type :=
| Answered (embedding : list R)
| Awaiting (cacheKey : string).

(** The call up to its answer or to the [await]. When the client cannot
    be built, the [catch] block looks the cache up again; nothing was
    put under the key since the first look-up, so the mock vector is
    drawn. *)
Definition startEmbedding (env : Env) (text : string) (st : State) : Progress * State :=
  let cacheKey := cacheKeyOf text in
  match embeddingCache st !! cacheKey with
  | Some cachedEmbedding => (Answered cachedEmbedding, st)
  | None =>
      if GeminiScorer.keyUnusable (apiKeyOf env)
      then (Answered (mockEmbedding env),
            remember cacheKey (mockEmbedding env) st (quota st))
      else
        let '(hasQuota, q) := checkQuotaLimit (today env) (quota st) in
        if negb hasQuota
        then (Answered (mockEmbedding env), remember cacheKey (mockEmbedding env) st q)
        else
          match embedContent env with
          | EmbedClientFails =>
              (Answered (mockEmbedding env),
               remember cacheKey (mockEmbedding env) st q)
          | _ =>
              (Awaiting cacheKey,
               {| embeddingCache := embeddingCache st;
                  quota := incrementQuotaCount q |})
          end
  end.

(** The call from the moment [embedContent] settles, in the state of
    that moment: the values are put under the key, whatever is there;
    after an exception the [catch] block answers with the entry that
    another call has put under the key meanwhile, and draws the mock
    vector when there is none. *)
Definition finishEmbedding (env : Env) (cacheKey : string) (st : State)
  : list R * State :=
  match embedContent env with
  | EmbedValues values => (values, remember cacheKey values st (quota st))
  | _ =>
      match embeddingCache st !! cacheKey with
      | Some cachedEmbedding => (cachedEmbedding, st)
      | None =>
          (mockEmbedding env, remember cacheKey (mockEmbedding env) st (quota st))
      end
  end.

(** A call during which no other call runs. *)
Definition generateEmbeddingWithCache (env : Env) (text : string) (st : State)
  : list R * State :=
  match startEmbedding env text st with
  | (Answered embedding, st) => (embedding, st)
  | (Awaiting cacheKey, st) => finishEmbedding env cacheKey st
  end.

End EmbeddingCache.

(* ===================================================================== *)
(** ** client/src/store/ats-store.ts and components/ats-panel.tsx         *)
(* ===================================================================== *)

Module AtsStore.
Import JS GeminiScorer.

(** [arr.slice(-n)] for [n > 0]: the last [n] elements. *)
Definition sliceLast {A} (n : nat) (l : list A) : list A := skipn (length l - n) l.

(** The fields of the store that a score message changes. A score is the
    value that [JSON.parse] gave for it. *)
Record ATSState : Type := {
  atsScore : option JValue;
  isScoring : bool;
  scoreHistory : list JValue
}.

Definition initialState : ATSState :=
  {| atsScore := None; isScoring := false; scoreHistory := [] |}.

Definition setATSScore (score : JValue) (st : ATSState) : ATSState :=
  {| atsScore := Some score; isScoring := isScoring st; scoreHistory := scoreHistory st |}.

Definition setIsScoring (scoring : bool) (st : ATSState) : ATSState :=
  {| atsScore := atsScore st; isScoring := scoring; scoreHistory := scoreHistory st |}.

Definition addToHistory (score : JValue) (st : ATSState) : ATSState :=
  {| atsScore := atsScore st; isScoring := isScoring st;
     scoreHistory := sliceLast 9 (scoreHistory st) ++ [score] |}.

(** [data.channel?.startsWith('ats:')]: a channel that is not a string has
    no [startsWith], and the call throws into the [catch] of the socket
    handler, which leaves the store as it is. *)
Definition isAtsChannel (channel : JValue) : bool :=
  match channel with
  | JString s => String.prefix "ats:" s
  | _ => false
  end.

(** The [onMessage] callback of the panel, on the parsed message. For a
    message that is [null], reading [data.channel] throws into the same
    [catch]; the store is left as it is, as it is here. *)
Definition onMessage (st : ATSState) (data : JValue) : ATSState :=
  if isAtsChannel (getOpt data "channel") && isTruthy (getOpt data "data")
  then
    let st := setATSScore (getOpt data "data") st in
    if isTruthy (getOpt (getOpt data "data") "final")
    then addToHistory (getOpt (getOpt data "data") "overall") (setIsScoring false st)
    else st
  else st.

(** The message that [broadcastToChannel] serializes for a score, as the
    client parses it: [flag] is [partial] or [final]. *)
Definition scoreMessage (flag channel : string) (overall breakdown suggestions : JValue)
  : JValue :=
  JObject [ ("channel", JString channel);
            ("data", JObject [ (flag, JBool true); ("overall", overall);
                               ("breakdown", breakdown);
                               ("suggestions", suggestions) ]) ].

End AtsStore.

(* ===================================================================== *)
(** ** client/src/lib/websocket.ts: the reconnecting socket               *)
(* ===================================================================== *)

Module WsClient.
Import Broadcast.

Definition maxReconnectAttempts : Z := 5.

(** The three refs of the hook, with what the browser holds for it: the
    sockets that have not fired [close] yet, each with its [readyState],
    and the timers that are pending. Sockets and timers are named by
    numbers drawn from [nextId]. *)
Record Hook : Type := {
  wsRef : option nat;
  reconnectTimeoutRef : option nat;
  reconnectAttempts : Z;
  sockets : gmap nat ReadyState;
  timers : list nat;
  nextId : nat
}.

(** [connect]: a new socket, with the handlers below bound to it. The
    constructor is called with the URL of the page, which is well-formed,
    so it does not throw; the [error] handler changes no state. *)
Definition connect (h : Hook) : Hook :=
  {| wsRef := Some (nextId h);
     reconnectTimeoutRef := reconnectTimeoutRef h;
     reconnectAttempts := reconnectAttempts h;
     sockets := <[nextId h := CONNECTING]> (sockets h);
     timers := timers h;
     nextId := S (nextId h) |}.

Definition onopen (h : Hook) : Hook :=
  {| wsRef := wsRef h; reconnectTimeoutRef := reconnectTimeoutRef h;
     reconnectAttempts := 0;
     sockets := sockets h; timers := timers h; nextId := nextId h |}.

(** [onclose]: a timer for the reconnection, unless five were made. *)
Definition onclose (h : Hook) : Hook :=
  if reconnectAttempts h <? maxReconnectAttempts
  then {| wsRef := wsRef h; reconnectTimeoutRef := Some (nextId h);
          reconnectAttempts := reconnectAttempts h;
          sockets := sockets h; timers := timers h ++ [nextId h];
          nextId := S (nextId h) |}
  else h.

(** The callback of the timer. *)
Definition onTimeout (h : Hook) : Hook :=
  connect {| wsRef := wsRef h; reconnectTimeoutRef := reconnectTimeoutRef h;
             reconnectAttempts := reconnectAttempts h + 1;
             sockets := sockets h; timers := timers h; nextId := nextId h |}.

Definition clearTimeout (t : nat) (pending : list nat) : list nat :=
  List.filter (fun x => negb (Nat.eqb t x)) pending.

(** [ws.close()]: an open or connecting socket starts closing; its [close]
    event comes later. *)
Definition closing (s : ReadyState) : ReadyState :=
  match s with
  | CONNECTING | OPEN => CLOSING
  | other => other
  end.

Definition disconnect (h : Hook) : Hook :=
  let pending :=
    match reconnectTimeoutRef h with
    | Some t => clearTimeout t (timers h)
    | None => timers h
    end in
  {| wsRef := None; reconnectTimeoutRef := None;
     reconnectAttempts := reconnectAttempts h;
     sockets :=
       match wsRef h with
       | Some s => alter closing s (sockets h)
       | None => sockets h
       end;
     timers := pending; nextId := nextId h |}.

(** What can happen to a mounted hook: a connecting socket opens, a socket
    that has not closed yet closes, a pending timer fires, or the component
    calls [disconnect] (as the clean-up of the effect does). *)
Inductive Event : Type :=
| SocketOpened (s : nat)
| SocketClosed (s : nat)
| TimerFired (t : nat)
| Disconnect.

Definition withSockets (h : Hook) (m : gmap nat ReadyState) : Hook :=
  {| wsRef := wsRef h; reconnectTimeoutRef := reconnectTimeoutRef h;
     reconnectAttempts := reconnectAttempts h;
     sockets := m; timers := timers h; nextId := nextId h |}.

Definition withTimers (h : Hook) (pending : list nat) : Hook :=
  {| wsRef := wsRef h; reconnectTimeoutRef := reconnectTimeoutRef h;
     reconnectAttempts := reconnectAttempts h;
     sockets := sockets h; timers := pending; nextId := nextId h |}.

(** One event; [None] when the browser cannot deliver it in this state. *)
Definition step (h : Hook) (e : Event) : option Hook :=
  match e with
  | SocketOpened s =>
      match sockets h !! s with
      | Some CONNECTING => Some (onopen (withSockets h (<[s := OPEN]> (sockets h))))
      | _ => None
      end
  | SocketClosed s =>
      match sockets h !! s with
      | Some _ => Some (onclose (withSockets h (delete s (sockets h))))
      | None => None
      end
  | TimerFired t =>
      if existsb (Nat.eqb t) (timers h)
      then Some (onTimeout (withTimers h (clearTimeout t (timers h))))
      else None
  | Disconnect => Some (disconnect h)
  end.

Fixpoint run (events : list Event) (h : Hook) : option Hook :=
  match events with
  | [] => Some h
  | e :: rest =>
      match step h e with
      | Some h' => run rest h'
      | None => None
      end
  end.

(** The hook after the effect of the first render: one call of [connect]. *)
Definition mounted : Hook :=
  connect {| wsRef := None; reconnectTimeoutRef := None; reconnectAttempts := 0;
             sockets := ∅; timers := []; nextId := 0 |}.

End WsClient.


(* ===================================================================== *)
(** ** The keyword coverage as the specification words it                 *)
(* ===================================================================== *)

Module SpecWords.
Import JS ATSEngine.

(** "tokenize the target text into words of length >3 plus a fixed
    multi-word phrase list; tokenize the candidate text the same way":
    the tokens of the code that are longer than three characters (a phrase
    enters the token set with its blanks removed, which is longer). *)
Definition specTokens (text : string) : list string :=
  List.filter (fun token => 3 <? strlen token) (extractKeywords text).

(** "score = round(40 x matchedCount / totalCount), 0 if totalCount is 0" *)
Definition specKeywordScore (candidateText targetText : string) : Z :=
  let target := specTokens targetText in
  let candidate := specTokens candidateText in
  let matchedCount := Z.of_nat (length (List.filter (setHas candidate) target)) in
  let totalCount := Z.of_nat (length target) in
  if totalCount =? 0 then 0
  else Math_round (40 * inject_Z matchedCount / inject_Z totalCount)%Q.

(** "the grade-level estimate lies in [lo, hi]": the two comparisons of
    doubles that the code makes; both fail on [NaN]. *)
Definition gradeWithin (lo hi : Z) (gradeLevel : Double.double) : bool :=
  Double.leb (Double.ofZ lo) gradeLevel && Double.leb gradeLevel (Double.ofZ hi).

(** 39 sentences, 59 words and 135 vowels: the estimate is 12 in exact
    arithmetic and the double above 12 in the code. *)
Definition edgeText : string :=
  join " " (repeat "a." 38 ++ repeat "aaaaa" 19 ++ ["a"; "a."]).

End SpecWords.

(* ===================================================================== *)
(** ** Concrete inputs                                                    *)
(* ===================================================================== *)

Module Samples.
Import JS Schema.

Definition blankInfo : PersonalInfo :=
  {| pi_name := ""; pi_email := ""; pi_phone := ""; pi_location := "";
     pi_website := None; pi_linkedin := None; pi_github := None |}.

(** A resume with every section empty. *)
Definition blankResume : ResumeJson :=
  {| personalInfo := blankInfo; summary := ""; experience := []; skills := [];
     education := None |}.

Definition annInfo : PersonalInfo :=
  {| pi_name := "Ann Lee"; pi_email := "ann@example.org"; pi_phone := "555-0100";
     pi_location := "Oslo"; pi_website := None; pi_linkedin := None;
     pi_github := None |}.

Definition annJob : ExperienceItem :=
  {| exp_title := "Engineer"; exp_company := "Acme"; exp_location := None;
     exp_startDate := "2020"; exp_endDate := "2023";
     exp_bullets := ["Built 3 services for 2000 users"; "Led the platform team"] |}.

Definition annResume : ResumeJson :=
  {| personalInfo := annInfo;
     summary := "Engineer with python and sql skills";
     experience := [annJob];
     skills := [("languages", ["python"; "sql"])];
     education := None |}.

End Samples.


(* ===================================================================== *)
(** ** Vocabulary for the statements about the assisted scorer            *)
(* ===================================================================== *)

Module GeminiTerms.
Import JS Schema QuotaGate GeminiScorer Samples.

(** [analysis.<section>?.score] *)
Definition scoreField (analysis : list (string * JValue)) (section : string) : JValue :=
  getOpt (lookupField analysis section) "score".

(** The field holds a number, a boolean or [null], or is absent: its
    conversion to a number does not go through a string. *)
Definition plainScore (v : JValue) : Prop :=
  match v with
  | JString _ | JArray _ | JObject _ => False
  | _ => True
  end.

(** The ten fields that the code converts to a number, in the order in
    which it reads them. *)
Definition numericFields (analysis : list (string * JValue)) : list JValue :=
  let kw := lookupField analysis "keywords" in
  let rl := lookupField analysis "relevancy" in
  let qn := lookupField analysis "quantification" in
  let fm := lookupField analysis "formatting" in
  let rd := lookupField analysis "readability" in
  [ getOpt kw "score"; getOpt kw "matched"; getOpt kw "total";
    getOpt rl "score";
    getOpt qn "score"; getOpt qn "quantifiedBullets"; getOpt qn "totalBullets";
    getOpt fm "score";
    getOpt rd "score"; getOpt rd "gradeLevel" ].

(** No numeric field is an object with a key [toString] or an array that
    holds one. *)
Definition allConvertible (analysis : list (string * JValue)) : bool :=
  forallb convertible (numericFields analysis).

(** A finite number between [0] and [hi]. *)
Definition inScoreRange (hi : Q) (n : jsnum) : Prop :=
  exists q : Q, n = JFin q /\ (0 <= q)%Q /\ (q <= hi)%Q.

Definition freshQuota : QuotaState :=
  {| dailyRequestCount := 0; lastResetDate := "Tue Nov 03 2026" |}.

(** A configured key and the answer [{}]: JSON that parses and holds none
    of the fields of the schema. *)
Definition emptyObjectEnv : Env :=
  {| GEMINI_API_KEY := Some "AIza-test-key"; VITE_GEMINI_API_KEY := None;
     today := "Tue Nov 03 2026";
     model := ResponseText "{}" (Some []) |}.

(** The answer [{"keywords":{"score":{"toString":0}}}]: it parses, and
    its keyword score cannot be converted to a number. *)
Definition trapAnalysis : list (string * JValue) :=
  [ ("keywords", JObject [("score", JObject [("toString", JNumber (JFin 0))])]) ].

Definition trapEnv : Env :=
  {| GEMINI_API_KEY := Some "AIza-test-key"; VITE_GEMINI_API_KEY := None;
     today := "Tue Nov 03 2026";
     model := ResponseText "{...}" (Some trapAnalysis) |}.

(** An answer that follows the schema, with two scores out of range. *)
Definition greedyAnalysis : list (string * JValue) :=
  [ ("keywords", JObject [("score", JNumber (JFin 55)); ("matched", JNumber (JFin 7));
                          ("total", JNumber (JFin 9)); ("missing", JArray [JString "aws"])]);
    ("relevancy", JObject [("score", JNumber (JFin (-3))); ("total", JNumber (JFin 25))]);
    ("quantification", JObject [("score", JNumber (JFin 9))]);
    ("formatting", JObject [("score", JNumber (JFin (17 # 2)))]);
    ("readability", JObject [("score", JNumber (JFin 8)); ("gradeLevel", JNumber (JFin 11))]);
    ("suggestions", JArray [JString "Mention AWS"]) ].

Definition greedyEnv : Env :=
  {| GEMINI_API_KEY := None; VITE_GEMINI_API_KEY := Some "AIza-test-key";
     today := "Tue Nov 03 2026";
     model := ResponseText "Here is the analysis: {...}" (Some greedyAnalysis) |}.

End GeminiTerms.


(* ===================================================================== *)
(** ** Vocabulary and concrete inputs for the batch processor             *)
(* ===================================================================== *)

Module BatchTerms.
Import JS Schema Storage Broadcast BatchJobs Samples.

Definition entriesOf (env : Env) (resolved : list (nat * JobDescription))
  : list BatchResult :=
  List.map (fun e => entryFor env (fst e) (snd e)) resolved.

Definition progressEventsOf (channel : string) (n : nat)
           (resolved : list (nat * JobDescription)) : list (string * BatchEvent) :=
  List.map (fun e => (channel, Generating (progressOf (fst e) n) (jd_title (snd e))))
           resolved.

Definition countSuccess (flag : bool) (results : list BatchResult) : nat :=
  length (List.filter (fun r => Bool.eqb (res_success r) flag) results).

Definition annRow : Resume :=
  {| resume_id := "resume-1"; resume_userId := "user-1"; resume_title := "Ann Lee";
     resume_json := annResume |}.

Definition jdBackend : JobDescription :=
  {| jd_id := "jd-a"; jd_title := "Backend Engineer"; jd_company := "Acme";
     jd_rawText := "Python and SQL engineer" |}.

Definition jdData : JobDescription :=
  {| jd_id := "jd-b"; jd_title := "Data Engineer"; jd_company := "Globex";
     jd_rawText := "Spark pipelines" |}.

Definition jdPlatform : JobDescription :=
  {| jd_id := "jd-c"; jd_title := "Platform Engineer"; jd_company := "Initech";
     jd_rawText := "Kubernetes and AWS" |}.

Definition sampleStore : Store :=
  {| resumes := <["resume-1" := annRow]> ∅;
     jobDescriptions :=
       <["jd-a" := jdBackend]> (<["jd-b" := jdData]> (<["jd-c" := jdPlatform]> ∅));
     coverLetters := ∅;
     jobs := ∅ |}.

(** One open connection subscribed to the channel of the job to come. *)
Definition sampleWorld : World :=
  {| db := sampleStore;
     wsConnections := <["batch:job-1" := [1%nat]]> ∅;
     published := []; sent := []; statusLog := [] |}.

Definition requestFor (ids : list string) : BatchRequest :=
  {| req_resumeId := "resume-1"; req_jdIds := Some ids; req_tone := None;
     req_wordCount := None; req_userIdHeader := Some "user-1" |}.

(** The operation fails for the target at index 1 and succeeds elsewhere. *)
Definition secondFails : Env :=
  {| readyState := fun _ _ => OPEN;
     targetOp := fun i jd =>
       if Nat.eqb i 1 then Failed
       else Generated ("Dear team at " +:+ jd_company jd) ("cover-" +:+ jd_id jd) |}.

Definition queued (ids : list string) : World :=
  snd (postCoversBatch "job-1" (requestFor ids) sampleWorld).

Definition queuedJob (ids : list string) : Job :=
  {| job_id := "job-1"; job_type := "batch_cover_letters";
     job_payload := {| resumeId := "resume-1"; jdIds := ids; tone := "professional";
                       wordCount := 250; userId := "user-1" |};
     job_status := pending; job_artifacts := None |}.

(** A server on which no processor is suspended. *)
Definition idle (w : World) : Server := {| world := w; waiting := ∅ |}.

(** The tasks of one processor from index [i] on: each generation
    settles with the outcome that [targetOp] gives for its target, and
    each delay elapses. *)
Fixpoint tasksFor (env : Env) (jobId : string) (i : nat)
         (jds : list (option JobDescription)) : list Task :=
  match jds with
  | [] => []
  | None :: rest => tasksFor env jobId (S i) rest
  | Some jd :: rest =>
      GenerationSettles jobId (targetOp env i jd) :: DelayElapses jobId
      :: tasksFor env jobId (S i) rest
  end.

(** The request for three targets, and then the seven tasks of its
    processor. *)
Definition batchOfThree : list Task :=
  PostCoversBatch "job-1" (requestFor ["jd-a"; "jd-b"; "jd-c"])
  :: tasksFor secondFails "job-1" 0 [Some jdBackend; Some jdData; Some jdPlatform].

(** What the lifecycle of a job reads in a state: the status of its row
    and the statuses stored for it. *)
Definition view (w : World) (id : string) : option JobStatus * list JobStatus :=
  (job_status <$> getJob (db w) id, statusesOf id w).
Arguments view : simpl never.

(** The life of a job as the server shows it between two tasks: no job
    and nothing stored for the id; or the status [running], stored after
    [pending], with the processor of the job suspended; or one of
    [completed] and [error], stored after [pending] and [running], with
    no processor left. *)
Definition lifecycle (s : Server) (id : string) : Prop :=
  match reportedStatus s id with
  | None => statusesOf id (world s) = [] /\ waiting s !! id = None
  | Some pending => False
  | Some running =>
      statusesOf id (world s) = [pending; running] /\ is_Some (waiting s !! id)
  | Some final =>
      statusesOf id (world s) = [pending; running; final] /\ waiting s !! id = None
  end.

(** What one task does to one job: nothing; or it creates the job and
    leaves it [running] with its processor suspended; or it creates the
    job and leaves it [completed] or [error]; or it takes a [running]
    job to [completed]. *)
Inductive Change (s s' : Server) (id : string) : Prop :=
| Untouched :
    view (world s') id = view (world s) id ->
    (waiting s' !! id = None <-> waiting s !! id = None) ->
    Change s s' id
| Started :
    view (world s) id = (None, []) ->
    view (world s') id = (Some running, [pending; running]) ->
    is_Some (waiting s' !! id) ->
    Change s s' id
| StartedAndEnded (final : JobStatus) :
    view (world s) id = (None, []) ->
    final = completed \/ final = error ->
    view (world s') id = (Some final, [pending; running; final]) ->
    waiting s' !! id = None ->
    Change s s' id
| Ended :
    view (world s) id = (Some running, [pending; running]) ->
    view (world s') id = (Some completed, [pending; running; completed]) ->
    waiting s' !! id = None ->
    Change s s' id.

End BatchTerms.


(* ===================================================================== *)
(** ** Vocabulary for the statements about the match scorer               *)
(* ===================================================================== *)

Module ScoreTerms.
Import JS Schema ATSEngine.

(** The test of the formatting check on one bullet:
    [bullet.length < 20 || bullet.length > 150]. *)
Definition outOfBand (bullet : string) : bool :=
  (strlen bullet <? 20) || (150 <? strlen bullet).

(** What is left of the 10 formatting points after the checks of the
    required sections. *)
Definition sectionPoints (resume : ResumeJson) : Z :=
  10
  - (if negb (truthy (pi_name (personalInfo resume)))
        || negb (truthy (pi_email (personalInfo resume))) then 2 else 0)
  - (if negb (truthy (summary resume)) || (strlen (summary resume) <? 50) then 1 else 0)
  - (if Z.of_nat (length (experience resume)) =? 0 then 3 else 0).

End ScoreTerms.

(* ===================================================================== *)
(** ** Vocabulary for the statements about the progress events            *)
(* ===================================================================== *)

Module ProgressTerms.
Import Storage BatchJobs.

(** The [progress] field of a payload; the completion event carries the
    literal 100. *)
Definition progressValue (e : BatchEvent) : Z :=
  match e with
  | Generating progress _ => progress
  | Completed _ => 100
  end.

Fixpoint nonDecreasing (l : list Z) : Prop :=
  match l with
  | a :: ((b :: _) as rest) => a <= b /\ nonDecreasing rest
  | _ => True
  end.


End ProgressTerms.

(* ===================================================================== *)
(** ** Vocabulary for the statements about the reconnecting socket        *)
(* ===================================================================== *)

Module WsClientTerms.
Import Broadcast WsClient.

(** What holds of a mounted hook at any time: at most five attempts are
    counted, and either one socket has not closed yet and no timer is
    pending, or no socket is left and one timer is pending, which was set
    with fewer than five attempts counted, or neither a socket nor a timer
    is left. *)
Definition oneAtATime (h : Hook) : Prop :=
  0 <= reconnectAttempts h <= maxReconnectAttempts /\
  ((exists s st, sockets h = {[s := st]} /\ timers h = [])
   \/ (sockets h = ∅ /\ (exists t, timers h = [t])
       /\ reconnectAttempts h < maxReconnectAttempts)
   \/ (sockets h = ∅ /\ timers h = [])).

End WsClientTerms.

(* ===================================================================== *)
(** * Properties of the match scorer (ats-engine.ts)                      *)
(* ===================================================================== *)

Module ATSEngineFacts.
Import JS Schema ATSEngine SpecWords Samples.

(** *** Rounding *)

Lemma Math_round_inject (n : Z) : Math_round (inject_Z n) = n.
Proof.
  unfold Math_round, Qfloor, Qplus, inject_Z. simpl.
  rewrite Z.mul_1_r.
  symmetry. apply (Z.div_unique_pos _ 2 n 1); lia.
Qed.

Lemma Math_round_mono (p q : Q) : (p <= q)%Q -> Math_round p <= Math_round q.
Proof.
  intros H. unfold Math_round. apply Qfloor_resp_le.
  apply Qplus_le_compat; [exact H | apply Qle_refl].
Qed.

Lemma Math_round_comp (p q : Q) : (p == q)%Q -> Math_round p = Math_round q.
Proof. intros H. unfold Math_round. apply Qfloor_comp. rewrite H. reflexivity. Qed.

Lemma Math_round_bounds (q : Q) (n : Z) :
  (0 <= q)%Q -> (q <= inject_Z n)%Q -> 0 <= Math_round q <= n.
Proof.
  intros H0 Hn. split.
  - pose proof (Math_round_mono (inject_Z 0) q H0) as H.
    rewrite (Math_round_inject 0) in H. exact H.
  - pose proof (Math_round_mono _ _ Hn) as H. rewrite Math_round_inject in H. exact H.
Qed.

(** A share [m / t] of [c] points lies between [0] and [c]. *)
Lemma ratio_bounds (m t c : Z) :
  0 <= m <= t -> 0 < t -> 0 <= c ->
  (0 <= inject_Z m / inject_Z t * inject_Z c)%Q /\
  (inject_Z m / inject_Z t * inject_Z c <= inject_Z c)%Q.
Proof.
  intros Hm Ht Hc.
  destruct t as [|t|t]; try lia.
  unfold Qdiv, Qinv, Qmult, Qle, inject_Z; simpl.
  split; nia.
Qed.

Lemma share_bounds (m t c : Z) :
  0 <= m <= t -> 0 < t -> 0 <= c ->
  0 <= Math_round (inject_Z m / inject_Z t * inject_Z c)%Q <= c.
Proof.
  intros Hm Ht Hc. destruct (ratio_bounds m t c Hm Ht Hc) as [Hlo Hhi].
  apply Math_round_bounds; assumption.
Qed.

(** *** Lists *)

Lemma filter_shorter {A} (f : A -> bool) (l : list A) :
  (length (List.filter f l) <= length l)%nat.
Proof. induction l as [|x l IH]; simpl; [lia|]. destruct (f x); simpl; lia. Qed.

Lemma In_slice0 {A} (n : nat) (l : list A) (x : A) : In x (slice0 n l) -> In x l.
Proof.
  unfold slice0. revert l. induction n as [|n IH]; intros [|y l]; simpl; try tauto.
  intros [H|H]; [left; exact H | right; apply IH; exact H].
Qed.

Lemma arrIncludes_In (l : list string) (x : string) :
  arrIncludes l x = true <-> In x l.
Proof.
  unfold arrIncludes. rewrite existsb_exists. split.
  - intros [y [Hy He]]. apply String.eqb_eq in He. subst. exact Hy.
  - intros H. exists x. split; [exact H | apply String.eqb_refl].
Qed.

(** *** Keyword coverage *)

Lemma important_spec (jdKeywords : list string) (k : string) :
  In k (importantKeywords jdKeywords) <->
  In k jdKeywords /\ (3 < strlen k \/ In k COMMON_KEYWORDS).
Proof.
  unfold importantKeywords. rewrite filter_In, orb_true_iff, Z.ltb_lt, arrIncludes_In.
  reflexivity.
Qed.

Lemma keyword_bounds (resumeText jdText : string) :
  0 <= kw_score (calculateKeywordScore resumeText jdText) <= 40.
Proof.
  unfold calculateKeywordScore; cbn [kw_score].
  set (important := importantKeywords (extractKeywords jdText)).
  set (inResume := fun keyword => setHas (extractKeywords resumeText) keyword).
  destruct (0 <? Z.of_nat (length important)) eqn:Ht; [|lia].
  apply Z.ltb_lt in Ht.
  pose proof (filter_shorter inResume important) as Hle.
  apply (share_bounds _ _ 40); lia.
Qed.

(** *** The metric pattern matches exactly the bullets that hold a digit *)

Lemma starMatch_total (p : ascii -> bool) (k : option ascii -> string -> option unit) :
  (forall prev s, k prev s = Some tt) ->
  forall s prev, starMatch p prev s k = Some tt.
Proof.
  intros Hk. induction s as [|c s IH]; intros prev; simpl.
  - apply Hk.
  - destruct (p c); [rewrite IH; reflexivity | apply Hk].
Qed.

Lemma metricPattern_digit (c : ascii) (s : string) (prev : option ascii) :
  isDigit c = true ->
  rmatch metricPattern prev (String c s) (fun _ _ => Some tt) = Some tt.
Proof.
  intros Hc. unfold metricPattern, Plus.
  cbn [rmatch]. rewrite Hc.
  rewrite starMatch_total; [reflexivity|].
  intros prev' s'. cbn [rmatch].
  destruct s' as [|d s']; [reflexivity|].
  destruct (_ || _); reflexivity.
Qed.

Lemma metricPattern_no_digit {A} (s : string) (prev : option ascii)
      (k : option ascii -> string -> option A) :
  existsChar isDigit s = false -> rmatch metricPattern prev s k = None.
Proof.
  intros H. unfold metricPattern, Plus. destruct s as [|c s]; [reflexivity|].
  simpl in H. apply orb_false_iff in H. destruct H as [Hc Hs].
  cbn [rmatch chr]. rewrite Hc.
  destruct (Ascii.eqb "$" c); [|reflexivity].
  destruct s as [|d s]; [reflexivity|].
  simpl in Hs. apply orb_false_iff in Hs. destruct Hs as [Hd _].
  rewrite Hd. reflexivity.
Qed.

Lemma isQuantified_digit (bullet : string) :
  isQuantified bullet = existsChar isDigit bullet.
Proof.
  unfold isQuantified, test. generalize (@None ascii) as prev.
  induction bullet as [|c s IH]; intros prev.
  - reflexivity.
  - cbn [searchFrom existsChar].
    destruct (isDigit c) eqn:Hc.
    + rewrite metricPattern_digit by exact Hc. reflexivity.
    + cbn [orb].
      destruct (rmatch metricPattern prev (String c s) (fun _ _ => Some tt)) eqn:Hm.
      * destruct (existsChar isDigit s) eqn:Hs; [reflexivity|].
        rewrite metricPattern_no_digit in Hm; [discriminate|].
        simpl. rewrite Hc, Hs. reflexivity.
      * apply IH.
Qed.

(** *** Counting the bullets *)

Lemma countBullet_fold (bs : list string) (t q : Z) :
  fold_left countBullet bs (t, q) =
  (t + Z.of_nat (length bs), q + Z.of_nat (length (List.filter isQuantified bs))).
Proof.
  revert t q. induction bs as [|b bs IH]; intros t q.
  - simpl. f_equal; lia.
  - cbn [fold_left countBullet List.filter]. rewrite IH.
    destruct (isQuantified b); cbn [length]; f_equal; lia.
Qed.

Lemma countBullets_spec (resume : ResumeJson) :
  countBullets resume =
  (Z.of_nat (length (flat_map exp_bullets (experience resume))),
   Z.of_nat (length (List.filter isQuantified
                                 (flat_map exp_bullets (experience resume))))).
Proof.
  unfold countBullets.
  assert (H : forall exps t q,
    fold_left (fun acc exp => fold_left countBullet (exp_bullets exp) acc) exps (t, q) =
    (t + Z.of_nat (length (flat_map exp_bullets exps)),
     q + Z.of_nat (length (List.filter isQuantified (flat_map exp_bullets exps))))).
  { induction exps as [|e exps IH]; intros t q.
    - simpl. f_equal; lia.
    - cbn [fold_left flat_map]. rewrite countBullet_fold, IH.
      rewrite List.filter_app, !length_app. f_equal; lia. }
  rewrite H. f_equal.
Qed.

Lemma quantification_bounds (resume : ResumeJson) :
  0 <= qn_score (calculateQuantificationScore resume) <= 15 /\
  qn_total (calculateQuantificationScore resume) = 15.
Proof.
  unfold calculateQuantificationScore. rewrite countBullets_spec.
  cbn [qn_score qn_total]. split; [|reflexivity].
  set (bullets := flat_map exp_bullets (experience resume)).
  pose proof (filter_shorter isQuantified bullets) as Hq.
  destruct (0 <? Z.of_nat (length bullets)) eqn:Ht.
  - apply Z.ltb_lt in Ht. apply (share_bounds _ _ 15); lia.
  - vm_compute. split; discriminate.
Qed.

(** *** Formatting, readability and relevancy stay in range *)

Lemma bulletPenalty_le (s : Q) (b : string) : (bulletPenalty s b <= s)%Q.
Proof.
  unfold bulletPenalty. destruct (_ || _); [|apply Qle_refl].
  unfold Qminus. rewrite <- (Qplus_0_r s) at 2.
  apply Qplus_le_compat; [apply Qle_refl | discriminate].
Qed.

Lemma bulletPenalties_le (exps : list ExperienceItem) (s : Q) :
  (fold_left (fun score exp => fold_left bulletPenalty (exp_bullets exp) score) exps s
   <= s)%Q.
Proof.
  assert (Hin : forall bs s0, (fold_left bulletPenalty bs s0 <= s0)%Q).
  { induction bs as [|b bs IH]; intros s0; simpl; [apply Qle_refl|].
    eapply Qle_trans; [apply IH | apply bulletPenalty_le]. }
  revert s. induction exps as [|e exps IH]; intros s; simpl; [apply Qle_refl|].
  eapply Qle_trans; [apply IH | apply Hin].
Qed.

Lemma formatting_bounds (resume : ResumeJson) :
  0 <= fm_score (calculateFormattingScore resume) <= 10 /\
  fm_total (calculateFormattingScore resume) = 10.
Proof.
  unfold calculateFormattingScore. cbn [fm_score fm_total].
  split; [|reflexivity]. split; [lia|].
  apply Z.max_lub; [lia|].
  match goal with |- Math_round (fold_left _ _ ?s0) <= _ =>
    assert (H0 : (s0 <= inject_Z 10)%Q) end.
  { destruct (_ || _); destruct (_ || _); destruct (_ =? 0); discriminate. }
  rewrite <- (Math_round_inject 10).
  apply Math_round_mono.
  eapply Qle_trans; [apply bulletPenalties_le | exact H0].
Qed.

Lemma gradeBand_within (g : Double.double) :
  gradeBand g =
  if gradeWithin 8 12 g then 10 else if gradeWithin 6 14 g then 7 else 4.
Proof. reflexivity. Qed.

Lemma gradeBand_cases (g : Double.double) :
  (gradeWithin 8 12 g = true /\ gradeBand g = 10)
  \/ (gradeWithin 6 14 g = true /\ gradeWithin 8 12 g = false /\ gradeBand g = 7)
  \/ (gradeWithin 6 14 g = false /\ gradeBand g = 4).
Proof.
  rewrite gradeBand_within.
  destruct (gradeWithin 8 12 g); [left; split; reflexivity|].
  destruct (gradeWithin 6 14 g); [right; left; repeat split|right; right; split]; reflexivity.
Qed.

Lemma readability_bounds (text : string) :
  0 <= rd_score (calculateReadabilityScore text) <= 10 /\
  rd_total (calculateReadabilityScore text) = 10.
Proof.
  unfold calculateReadabilityScore.
  destruct (_ || _); cbn [rd_score rd_total]; [lia|].
  split; [|reflexivity]. unfold gradeBand.
  destruct (_ && _); [lia|]. destruct (_ && _); lia.
Qed.

Lemma relevancy_bounds (kw : Z) :
  0 <= kw -> 0 <= Z.min 25 (Math_round (inject_Z kw * (6 # 10) + 10)%Q) <= 25.
Proof.
  intros Hk. split; [|apply Z.le_min_l].
  apply Z.min_glb; [lia|].
  assert (H : (inject_Z 10 <= inject_Z kw * (6 # 10) + 10)%Q).
  { unfold Qle, Qplus, Qmult, inject_Z; simpl. lia. }
  apply Math_round_mono in H. rewrite Math_round_inject in H. lia.
Qed.

(** *** The embeddings path at two opposite vectors *)

Lemma cosine_opposite :
  calculateCosineSimilarity [1%R] [(-1)%R] = RNum (-1)%R.
Proof.
  unfold calculateCosineSimilarity. cbn [length Nat.eqb negb combine fold_left cosineStep].
  replace (0 + 1 * 1)%R with 1%R by lra.
  replace (0 + -1 * -1)%R with 1%R by lra.
  rewrite sqrt_1.
  destruct (Req_EM_T (1 * 1) 0) as [H|H]; [lra|].
  f_equal. lra.
Qed.

Lemma Math_round_R_minus_25 :
  Math_round_R (real_mul (RNum (-1)%R) 25%R) = Num (-25).
Proof.
  cbn [real_mul Math_round_R]. f_equal.
  symmetry. apply Int_part_spec. split; simpl; lra.
Qed.

(** *** The score result *)

(** Every result of [computeATSScore]: the four stored maxima are 25, 15,
    10 and 10, every sub-score lies between 0 and its maximum (40 for the
    keywords), and [overall] is the sum of the five sub-scores. *)
Theorem computeATSScore_invariant (resume : ResumeJson) (jdText : string) :
  let r := computeATSScore resume jdText in
  let b := breakdown r in
  exists rel : Z,
    rl_score (relevancy b) = Num rel /\
    rl_total (relevancy b) = 25 /\ qn_total (quantification b) = 15 /\
    fm_total (formatting b) = 10 /\ rd_total (readability b) = 10 /\
    0 <= kw_score (keywords b) <= 40 /\
    0 <= rel <= 25 /\
    0 <= qn_score (quantification b) <= 15 /\
    0 <= fm_score (formatting b) <= 10 /\
    0 <= rd_score (readability b) <= 10 /\
    overall r = Num (kw_score (keywords b) + rel + qn_score (quantification b)
                     + fm_score (formatting b) + rd_score (readability b)).
Proof.
  intros r b. unfold b, r, computeATSScore.
  cbn [breakdown keywords relevancy quantification formatting readability
       rl_score rl_total overall].
  eexists. split; [reflexivity|]. split; [reflexivity|].
  pose proof (keyword_bounds (resumeTextOf resume) jdText) as Hk.
  pose proof (quantification_bounds resume) as [Hq Hqt].
  pose proof (formatting_bounds resume) as [Hf Hft].
  pose proof (readability_bounds (resumeTextOf resume +:+ " " +:+ jdText)) as [Hr Hrt].
  repeat split; try assumption; try lia;
    try (apply relevancy_bounds; lia).
Qed.

(** C1, at the failing input: with the embeddings [[1]] and [[-1]] (cosine
    similarity -1) [computeATSScoreWithEmbeddings] stores, for every resume
    and target text, the relevancy score -25 next to the maximum 25;
    [overall] is still the sum of the five sub-scores, which is -16 for
    the blank resume and the empty target text. *)
Theorem C1_embeddings_relevancy_negative (resume : ResumeJson) (jdText : string) :
  let r := computeATSScoreWithEmbeddings resume jdText (Some [1%R]) (Some [(-1)%R]) in
  let b := breakdown r in
  rl_score (relevancy b) = Num (-25) /\
  rl_total (relevancy b) = 25 /\
  overall r = Num (kw_score (keywords b) + -25 + qn_score (quantification b)
                   + fm_score (formatting b) + rd_score (readability b)) /\
  overall (computeATSScoreWithEmbeddings blankResume "" (Some [1%R]) (Some [(-1)%R]))
  = Num (-16).
Proof.
  cbv zeta. unfold computeATSScoreWithEmbeddings.
  rewrite cosine_opposite, Math_round_R_minus_25.
  cbn [breakdown relevancy rl_score rl_total overall keywords quantification
       formatting readability].
  split; [reflexivity|]. split; [reflexivity|]. split; [reflexivity|].
  vm_compute. reflexivity.
Qed.

(** C6 (amended): the keyword sub-score is [round(40 * matched / total)]
    over the target's keywords that are longer than three characters or
    belong to the common-keyword list; it is 0 when there is no such
    keyword, it lies in [0, 40], and at most 10 unmatched keywords are
    reported, each of them an unmatched important keyword. *)
Theorem C6_keyword_coverage (resumeText jdText : string) :
  let r := calculateKeywordScore resumeText jdText in
  let important := importantKeywords (extractKeywords jdText) in
  let inResume := setHas (extractKeywords resumeText) in
  (forall k, In k important <->
             In k (extractKeywords jdText) /\ (3 < strlen k \/ In k COMMON_KEYWORDS)) /\
  kw_total r = Z.of_nat (length important) /\
  kw_matched r = Z.of_nat (length (List.filter inResume important)) /\
  kw_score r =
    (if 0 <? kw_total r
     then Math_round (40 * inject_Z (kw_matched r) / inject_Z (kw_total r))%Q
     else 0) /\
  (kw_total r = 0 -> kw_score r = 0) /\
  0 <= kw_score r <= 40 /\
  (length (kw_missing r) <= 10)%nat /\
  (forall k, In k (kw_missing r) -> In k important /\ inResume k = false).
Proof.
  intros r important inResume.
  split; [intros k; apply important_spec|].
  split; [reflexivity|]. split; [reflexivity|].
  assert (Hscore : kw_score r =
    (if 0 <? kw_total r
     then Math_round (40 * inject_Z (kw_matched r) / inject_Z (kw_total r))%Q
     else 0)).
  { unfold r, calculateKeywordScore; cbn [kw_score kw_total kw_matched].
    destruct (0 <? _); [|reflexivity].
    apply Math_round_comp. unfold Qdiv. ring. }
  split; [exact Hscore|].
  split.
  { intros H0. rewrite Hscore, H0. reflexivity. }
  split; [apply keyword_bounds|].
  split.
  { unfold r, calculateKeywordScore, slice0; cbn [kw_missing].
    rewrite length_firstn. lia. }
  intros k Hk. unfold r, calculateKeywordScore in Hk; cbn [kw_missing] in Hk.
  apply In_slice0 in Hk. apply filter_In in Hk. destruct Hk as [Hin Hb].
  split; [exact Hin|]. apply negb_true_iff in Hb. exact Hb.
Qed.

(** C6 as stated fails: for the target text "sql" and the candidate text
    "sql" the only keyword has three characters, so the score over the
    keywords longer than three characters is 0, and the code returns 40
    with one keyword out of one matched. *)
Lemma C6_short_common_keyword_counts :
  kw_score (calculateKeywordScore "sql" "sql") = 40 /\
  kw_total (calculateKeywordScore "sql" "sql") = 1 /\
  specKeywordScore "sql" "sql" = 0.
Proof. vm_compute. repeat split; reflexivity. Qed.

(** C7: the quantification sub-score is [round(15 * quantified / total)]
    over all experience bullets, a bullet being quantified exactly when
    the metric pattern matches it (which is when it holds a digit); with
    no bullet at all the score is 0. *)
Theorem C7_quantification (resume : ResumeJson) :
  let r := calculateQuantificationScore resume in
  let bullets := flat_map exp_bullets (experience resume) in
  qn_totalBullets r = Z.of_nat (length bullets) /\
  qn_quantifiedBullets r = Z.of_nat (length (List.filter (test metricPattern) bullets)) /\
  (forall bullet, test metricPattern bullet = existsChar isDigit bullet) /\
  qn_score r =
    (if 0 <? qn_totalBullets r
     then Math_round (15 * inject_Z (qn_quantifiedBullets r)
                      / inject_Z (qn_totalBullets r))%Q
     else 0) /\
  (bullets = [] -> qn_score r = 0) /\
  0 <= qn_score r <= 15.
Proof.
  intros r bullets.
  pose proof (quantification_bounds resume) as [Hb _]. fold r in Hb.
  assert (Hr : r = let total := Z.of_nat (length bullets) in
                   let quantified := Z.of_nat (length (List.filter isQuantified bullets)) in
                   {| qn_score :=
                        Math_round ((if 0 <? total
                                     then inject_Z quantified / inject_Z total
                                     else 0) * 15)%Q;
                      qn_total := 15;
                      qn_quantifiedBullets := quantified;
                      qn_totalBullets := total |}).
  { unfold r, calculateQuantificationScore. rewrite countBullets_spec. reflexivity. }
  rewrite Hr in *. cbn [qn_score qn_totalBullets qn_quantifiedBullets] in *.
  split; [reflexivity|]. split; [reflexivity|].
  split; [exact isQuantified_digit|].
  split.
  { destruct (0 <? Z.of_nat (length bullets)).
    - apply Math_round_comp. unfold Qdiv. ring.
    - reflexivity. }
  split; [|exact Hb].
  intros He. rewrite He. reflexivity.
Qed.

(** C8 (amended): the readability sub-score is 5 when the text has no
    sentence or no word; otherwise it is 10 when the grade-level
    estimate, the double that the code computes, lies in [8, 12], 7 when
    it lies in [6, 14] outside that band, and 4 in every other case. *)
Theorem C8_readability_bands (text : string) :
  let r := calculateReadabilityScore text in
  let nSentences := Z.of_nat (length (sentencesOf text)) in
  let nWords := Z.of_nat (length (wordsOf text)) in
  let g := gradeLevelOf nSentences nWords (syllablesIn (wordsOf text)) in
  ((nSentences = 0 \/ nWords = 0) /\ rd_score r = 5)
  \/ ((0 < nSentences /\ 0 < nWords) /\
      ((gradeWithin 8 12 g = true /\ rd_score r = 10)
       \/ (gradeWithin 6 14 g = true /\ gradeWithin 8 12 g = false /\ rd_score r = 7)
       \/ (gradeWithin 6 14 g = false /\ rd_score r = 4))).
Proof.
  intros r nSentences nWords g. unfold r, calculateReadabilityScore.
  fold nSentences nWords.
  destruct ((nSentences =? 0) || (nWords =? 0)) eqn:He.
  - left. split; [|reflexivity].
    apply orb_true_iff in He. rewrite !Z.eqb_eq in He. exact He.
  - right. apply orb_false_iff in He. rewrite !Z.eqb_neq in He.
    split; [unfold nSentences, nWords in *; lia|].
    cbn [rd_score]. apply gradeBand_cases.
Qed.

(** C8 as stated fails: the empty text, and the text of a blank resume
    scored against an empty target, get the readability score 5, which is
    none of 10, 7 and 4. *)
Lemma C8_empty_text_scores_5 :
  rd_score (calculateReadabilityScore "") = 5 /\
  rd_score (readability (breakdown (computeATSScore blankResume ""))) = 5 /\
  ~ In 5 [10; 7; 4].
Proof.
  split; [reflexivity|]. split; [vm_compute; reflexivity|].
  simpl. intros [H|[H|[H|H]]]; try discriminate; exact H.
Qed.

(** The estimate is the rounded double, not the exact value of the
    formula: at 39 sentences, 59 words and 135 syllables the formula is
    worth 12, the double is above 12, and the score is 7. The one-word
    text [a.] has an estimate below 6 and the score 4. *)
Lemma readability_band_edges :
  Z.of_nat (length (sentencesOf edgeText)) = 39 /\
  Z.of_nat (length (wordsOf edgeText)) = 59 /\
  syllablesIn (wordsOf edgeText) = 135 /\
  gradeWithin 8 12 (gradeLevelOf 39 59 135) = false /\
  gradeWithin 6 14 (gradeLevelOf 39 59 135) = true /\
  rd_score (calculateReadabilityScore edgeText) = 7 /\
  rd_score (calculateReadabilityScore "a.") = 4.
Proof. vm_compute. repeat split; reflexivity. Qed.

(** At most five suggestions come with a result, on both paths. *)
Theorem suggestions_at_most_5 (resume : ResumeJson) (jdText : string)
      (resumeEmbedding jdEmbedding : option (list R)) :
  (length (suggestions (computeATSScore resume jdText)) <= 5)%nat /\
  (length (suggestions (computeATSScoreWithEmbeddings resume jdText
                          resumeEmbedding jdEmbedding)) <= 5)%nat.
Proof.
  assert (H : (length (suggestions (computeATSScore resume jdText)) <= 5)%nat).
  { unfold computeATSScore. cbn [suggestions]. unfold generateSuggestions, slice0.
    rewrite length_firstn. lia. }
  split; [exact H|].
  unfold computeATSScoreWithEmbeddings.
  destruct resumeEmbedding, jdEmbedding; cbn [suggestions]; exact H.
Qed.

Import ScoreTerms.

(** *** The formatting score in closed form *)

Lemma Math_round_halves (b k : Z) :
  Math_round (inject_Z b - inject_Z k * (1 # 2))%Q = b - k / 2.
Proof.
  rewrite (Math_round_comp _ ((2 * b - k) # 2)).
  - unfold Math_round, Qfloor, Qplus; simpl.
    Z.div_mod_to_equations. lia.
  - unfold Qeq, Qminus, Qplus, Qopp, Qmult, inject_Z; simpl. lia.
Qed.

Lemma inject_Z_succ (n : nat) :
  (inject_Z (Z.of_nat (S n)) == inject_Z (Z.of_nat n) + 1)%Q.
Proof. rewrite Nat2Z.inj_succ, <- Z.add_1_r, inject_Z_plus. reflexivity. Qed.

Lemma bulletPenalty_fold (bs : list string) (s : Q) :
  (fold_left bulletPenalty bs s
   == s - inject_Z (Z.of_nat (length (List.filter outOfBand bs))) * (1 # 2))%Q.
Proof.
  revert s. induction bs as [|b bs IH]; intros s; simpl.
  - ring.
  - rewrite IH. unfold bulletPenalty, outOfBand.
    destruct (_ || _); [|reflexivity].
    cbn [length]. rewrite inject_Z_succ. ring.
Qed.

Lemma bulletPenalties_fold (exps : list ExperienceItem) (s : Q) :
  (fold_left (fun score exp => fold_left bulletPenalty (exp_bullets exp) score) exps s
   == s - inject_Z (Z.of_nat (length (List.filter outOfBand (flat_map exp_bullets exps))))
          * (1 # 2))%Q.
Proof.
  revert s. induction exps as [|e exps IH]; intros s; simpl.
  - ring.
  - rewrite IH, bulletPenalty_fold.
    rewrite List.filter_app, length_app, Nat2Z.inj_add, inject_Z_plus. ring.
Qed.

Lemma sectionPoints_range (resume : ResumeJson) : 4 <= sectionPoints resume <= 10.
Proof.
  unfold sectionPoints.
  destruct (_ || _); destruct (_ || _); destruct (_ =? 0); lia.
Qed.

(** The formatting score is what the section checks leave, minus one point
    for every two bullets that are shorter than 20 or longer than 150
    characters, and at least 0: the half point of an odd bullet is rounded
    away, so a single such bullet costs nothing. *)
Theorem formatting_closed_form (resume : ResumeJson) :
  let bad :=
    Z.of_nat (length (List.filter outOfBand (flat_map exp_bullets (experience resume)))) in
  fm_score (calculateFormattingScore resume) = Z.max 0 (sectionPoints resume - bad / 2) /\
  (bad <= 1 -> fm_score (calculateFormattingScore resume) = sectionPoints resume).
Proof.
  intros bad.
  assert (E : fm_score (calculateFormattingScore resume)
              = Z.max 0 (sectionPoints resume - bad / 2)).
  { unfold calculateFormattingScore. cbn [fm_score]. f_equal.
    rewrite <- Math_round_halves. apply Math_round_comp.
    rewrite bulletPenalties_fold. fold bad.
    apply Qplus_comp; [|reflexivity].
    unfold sectionPoints.
    destruct (_ || _); destruct (_ || _); destruct (_ =? 0); reflexivity. }
  split; [exact E|].
  intros Hb. rewrite E.
  pose proof (sectionPoints_range resume) as Hs.
  assert (Hn : 0 <= bad) by (unfold bad; lia).
  assert (Hz : bad / 2 = 0) by (apply Z.div_small; lia).
  rewrite Hz. lia.
Qed.

(** *** Keyword extraction *)

Lemma truthy_toLowerCase (a b : string) :
  toLowerCase a = toLowerCase b -> truthy a = truthy b.
Proof. destruct a, b; simpl; intros H; try reflexivity; discriminate. Qed.

Lemma extractKeywords_case (a b : string) :
  toLowerCase a = toLowerCase b -> extractKeywords a = extractKeywords b.
Proof.
  intros H. unfold extractKeywords.
  rewrite (truthy_toLowerCase a b H), H. reflexivity.
Qed.

(** The keyword data depend on the two texts only through their lower-case
    forms: two resumes, and two target texts, that differ in letter case
    only get the same score, counts and missing keywords. *)
Theorem keyword_match_ignores_case (resume1 resume2 jd1 jd2 : string) :
  toLowerCase resume1 = toLowerCase resume2 ->
  toLowerCase jd1 = toLowerCase jd2 ->
  calculateKeywordScore resume1 jd1 = calculateKeywordScore resume2 jd2.
Proof.
  intros Hr Hj. unfold calculateKeywordScore.
  rewrite (extractKeywords_case _ _ Hr), (extractKeywords_case _ _ Hj). reflexivity.
Qed.

Lemma keyword_match_ignores_case_witness :
  calculateKeywordScore "Python and SQL Developer" "PYTHON developer, AWS"
  = calculateKeywordScore "python and sql developer" "python Developer, aws".
Proof. apply keyword_match_ignores_case; reflexivity. Defined.

Lemma setAdd_keeps {P : string -> Prop} (x : string) (set : list string) :
  List.NoDup set -> Forall P set -> P x ->
  List.NoDup (setAdd x set) /\ Forall P (setAdd x set).
Proof.
  intros Hn Hf Hx. unfold setAdd.
  destruct (arrIncludes set x) eqn:E; [split; assumption|].
  split.
  - apply NoDup_ListNoDup, NoDup_app.
    split; [apply NoDup_ListNoDup; exact Hn|]. split; [|apply NoDup_singleton].
    intros y Hy Hy'. apply list_elem_of_singleton in Hy'. subst y.
    apply list_elem_of_In, arrIncludes_In in Hy. congruence.
  - apply Forall_app. split; [exact Hf | constructor; [exact Hx | constructor]].
Qed.

Lemma extractKeywords_wf (text : string) :
  List.NoDup (extractKeywords text)
  /\ Forall (fun k => 2 < strlen k) (extractKeywords text).
Proof.
  unfold extractKeywords. destruct (negb (truthy text)); [split; constructor|].
  set (words := List.filter _ _).
  assert (Hw : Forall (fun k => 2 < strlen k) words).
  { apply List.Forall_forall. intros k Hk. apply filter_In in Hk.
    destruct Hk as [_ Hk]. apply Z.ltb_lt in Hk. exact Hk. }
  assert (H1 : forall l set,
             Forall (fun k => 2 < strlen k) l ->
             List.NoDup set /\ Forall (fun k => 2 < strlen k) set ->
             List.NoDup (fold_left (fun set word => setAdd word set) l set)
             /\ Forall (fun k => 2 < strlen k)
                       (fold_left (fun set word => setAdd word set) l set)).
  { induction l as [|w l IH]; intros set Hl [Hn Hf]; simpl; [split; assumption|].
    inversion Hl; subst. apply IH; [assumption|].
    apply setAdd_keeps; assumption. }
  specialize (H1 words [] Hw (conj (List.NoDup_nil _) (List.Forall_nil _))).
  revert H1. generalize (fold_left (fun set word => setAdd word set) words []).
  assert (Hp : Forall (fun p => 2 < strlen (filterChars (fun c => negb (isSpace c)) p))
                      phrases).
  { unfold phrases. repeat (constructor; [reflexivity|]). constructor. }
  revert Hp. generalize phrases.
  induction l as [|p l IH]; intros Hp set [Hn Hf]; simpl; [split; assumption|].
  inversion Hp; subst. apply IH; [assumption|].
  destruct (includes (toLowerCase text) p); [|split; assumption].
  apply setAdd_keeps; assumption.
Qed.

Lemma NoDup_slice0 {A} (n : nat) (l : list A) : List.NoDup l -> List.NoDup (slice0 n l).
Proof.
  unfold slice0. revert l. induction n as [|n IH]; intros [|x l] H; simpl;
    try constructor.
  - inversion H; subst. intros Hx. apply (In_slice0 n l x) in Hx. contradiction.
  - inversion H; subst. apply IH. assumption.
Qed.

Lemma filter_split_length {A} (f : A -> bool) (l : list A) :
  (length (List.filter f l) + length (List.filter (fun x => negb (f x)) l) = length l)%nat.
Proof.
  induction l as [|x l IH]; simpl; [reflexivity|].
  destruct (f x); simpl; lia.
Qed.

(** Every keyword is counted once: the keywords drawn from a text are
    pairwise distinct and longer than two characters, however often a word
    is repeated; the matched count never exceeds the total, and the
    reported missing keywords are distinct and number
    [min 10 (total - matched)]. *)
Theorem keywords_counted_once (resumeText jdText : string) :
  let r := calculateKeywordScore resumeText jdText in
  List.NoDup (extractKeywords jdText) /\
  (forall k, In k (extractKeywords jdText) -> 2 < strlen k) /\
  List.NoDup (kw_missing r) /\
  0 <= kw_matched r <= kw_total r /\
  Z.of_nat (length (kw_missing r)) = Z.min 10 (kw_total r - kw_matched r).
Proof.
  intros r. destruct (extractKeywords_wf jdText) as [Hn Hf].
  split; [exact Hn|]. split; [apply List.Forall_forall; exact Hf|].
  unfold r, calculateKeywordScore. cbn [kw_missing kw_matched kw_total].
  set (important := importantKeywords (extractKeywords jdText)).
  set (inResume := fun keyword => setHas (extractKeywords resumeText) keyword).
  pose proof (filter_split_length inResume important) as Hs.
  pose proof (filter_shorter inResume important) as Hle.
  split; [|split].
  - apply NoDup_slice0. apply List.NoDup_filter. unfold important, importantKeywords.
    apply List.NoDup_filter. exact Hn.
  - lia.
  - unfold slice0. rewrite length_firstn. fold inResume. lia.
Qed.

Lemma filter_all {A} (f : A -> bool) (l : list A) :
  (forall x, In x l -> f x = true) -> List.filter f l = l.
Proof.
  induction l as [|x l IH]; intros H; simpl; [reflexivity|].
  rewrite (H x (or_introl eq_refl)). f_equal. apply IH.
  intros y Hy. apply H. right. exact Hy.
Qed.

Lemma filter_none {A} (f : A -> bool) (l : list A) :
  (forall x, In x l -> f x = false) -> List.filter f l = [].
Proof.
  induction l as [|x l IH]; intros H; simpl; [reflexivity|].
  rewrite (H x (or_introl eq_refl)). apply IH.
  intros y Hy. apply H. right. exact Hy.
Qed.

Lemma full_share (t : Z) : 0 < t -> Math_round (inject_Z t / inject_Z t * 40)%Q = 40.
Proof.
  intros Ht. rewrite (Math_round_comp _ (inject_Z 40)); [apply Math_round_inject|].
  change (inject_Z 40) with 40%Q. field.
  unfold Qeq, inject_Z; simpl. lia.
Qed.

(** A resume text that holds every important keyword of the target text
    gets the full keyword score: nothing is reported missing, the matched
    count is the total, and the score is 40 as soon as the target has an
    important keyword. *)
Theorem full_coverage_scores_40 (resumeText jdText : string) :
  (forall k, In k (importantKeywords (extractKeywords jdText)) ->
             In k (extractKeywords resumeText)) ->
  let r := calculateKeywordScore resumeText jdText in
  kw_matched r = kw_total r /\ kw_missing r = [] /\
  kw_score r = (if 0 <? kw_total r then 40 else 0).
Proof.
  intros H r. unfold r, calculateKeywordScore.
  cbn [kw_matched kw_total kw_missing kw_score].
  set (important := importantKeywords (extractKeywords jdText)) in *.
  rewrite filter_all, filter_none.
  - split; [reflexivity|]. split; [reflexivity|].
    destruct (0 <? Z.of_nat (length important)) eqn:Ht; [|reflexivity].
    apply full_share. apply Z.ltb_lt. exact Ht.
  - intros k Hk. apply negb_false_iff. unfold setHas. apply arrIncludes_In, H, Hk.
  - intros k Hk. unfold setHas. apply arrIncludes_In, H, Hk.
Qed.

Lemma full_coverage_scores_40_witness :
  let r := calculateKeywordScore "Senior Python developer with AWS and SQL"
                                 "python developer, aws" in
  kw_matched r = kw_total r /\ kw_missing r = [] /\
  kw_score r = (if 0 <? kw_total r then 40 else 0).
Proof.
  apply full_coverage_scores_40.
  intros k Hk. vm_compute in Hk. vm_compute.
  intuition congruence.
Defined.

(** *** The overall score of [computeATSScore] *)

Lemma readability_at_least_4 (text : string) :
  4 <= rd_score (calculateReadabilityScore text).
Proof.
  unfold calculateReadabilityScore.
  destruct (_ || _); cbn [rd_score]; [lia|].
  unfold gradeBand. destruct (_ && _); [lia|]. destruct (_ && _); lia.
Qed.

Lemma relevancy_at_least_10 (kw : Z) :
  0 <= kw -> 10 <= Z.min 25 (Math_round (inject_Z kw * (6 # 10) + 10)%Q).
Proof.
  intros Hk. apply Z.min_glb; [lia|].
  assert (H : (inject_Z 10 <= inject_Z kw * (6 # 10) + 10)%Q).
  { unfold Qle, Qplus, Qmult, inject_Z; simpl. lia. }
  apply Math_round_mono in H. rewrite Math_round_inject in H. exact H.
Qed.

(** The relevancy score of [computeATSScore] is a function of the keyword
    score, [min 25 (round (0.6 * keywords + 10))], and is at least 10; the
    readability score is at least 4; so the overall score of every resume,
    an empty one included, lies between 14 and 100. *)
Theorem overall_between_14_and_100 (resume : ResumeJson) (jdText : string) :
  let r := computeATSScore resume jdText in
  let b := breakdown r in
  exists total rel : Z,
    overall r = Num total /\ rl_score (relevancy b) = Num rel /\
    rel = Z.min 25 (Math_round (inject_Z (kw_score (keywords b)) * (6 # 10) + 10)%Q) /\
    10 <= rel <= 25 /\
    4 <= rd_score (readability b) <= 10 /\
    14 <= total <= 100.
Proof.
  intros r b. unfold b, r, computeATSScore.
  cbn [breakdown keywords relevancy quantification formatting readability
       rl_score rl_total overall].
  pose proof (keyword_bounds (resumeTextOf resume) jdText) as Hk.
  pose proof (quantification_bounds resume) as [Hq _].
  pose proof (formatting_bounds resume) as [Hf _].
  pose proof (readability_bounds (resumeTextOf resume +:+ " " +:+ jdText)) as [Hr _].
  pose proof (readability_at_least_4 (resumeTextOf resume +:+ " " +:+ jdText)) as Hr4.
  pose proof (relevancy_at_least_10 _ (proj1 Hk)) as Hrel.
  pose proof (relevancy_bounds _ (proj1 Hk)) as Hrel'.
  eexists. eexists. split; [reflexivity|]. split; [reflexivity|].
  split; [reflexivity|]. repeat split; lia.
Qed.

End ATSEngineFacts.


(* ===================================================================== *)
(** * Properties of the quota gate                                        *)
(* ===================================================================== *)

Module QuotaFacts.
Import QuotaGate.

Lemma consume_count (k : nat) (q : QuotaState) :
  dailyRequestCount (consume k q) = dailyRequestCount q + Z.of_nat k /\
  lastResetDate (consume k q) = lastResetDate q.
Proof.
  revert q. induction k as [|k IH]; intros q.
  - simpl. split; [lia | reflexivity].
  - cbn [consume]. destruct (IH (incrementQuotaCount q)) as [Hc Hd].
    rewrite Hc, Hd. cbn [incrementQuotaCount dailyRequestCount lastResetDate].
    split; [lia | reflexivity].
Qed.

Lemma checkQuotaLimit_cases (today : string) (q : QuotaState) :
  checkQuotaLimit today q =
  if String.eqb today (lastResetDate q)
  then (dailyRequestCount q <? MAX_DAILY_REQUESTS, q)
  else (true, {| dailyRequestCount := 0; lastResetDate := today |}).
Proof.
  unfold checkQuotaLimit. destruct (String.eqb today (lastResetDate q)); reflexivity.
Qed.

(** C4: the limit is 45; [k] calls of [incrementQuotaCount] on the day the
    window started leave the count at [k], and [checkQuotaLimit] then
    answers [k < 45], so it answers [false] after 45 calls; a check on a
    day other than the stored one first resets the count to 0 and the date
    to today, and answers [true]. *)
Theorem C4_quota_gate (d today : string) (k : nat) (q : QuotaState) :
  let start := {| dailyRequestCount := 0; lastResetDate := d |} in
  MAX_DAILY_REQUESTS = 45 /\
  dailyRequestCount (consume k start) = Z.of_nat k /\
  fst (checkQuotaLimit d (consume k start)) = (Z.of_nat k <? 45) /\
  fst (checkQuotaLimit d (consume 45 start)) = false /\
  checkQuotaLimit today q =
    (if String.eqb today (lastResetDate q)
     then (dailyRequestCount q <? 45, q)
     else (true, {| dailyRequestCount := 0; lastResetDate := today |})) /\
  (String.eqb today d = false ->
   checkQuotaLimit today (consume 45 start)
   = (true, {| dailyRequestCount := 0; lastResetDate := today |})).
Proof.
  intros start.
  assert (Hk : forall n, checkQuotaLimit d (consume n start)
                         = (Z.of_nat n <? 45, consume n start)).
  { intros n. rewrite checkQuotaLimit_cases.
    destruct (consume_count n start) as [Hc Hd]. rewrite Hd, Hc.
    cbn [start lastResetDate dailyRequestCount]. rewrite String.eqb_refl.
    reflexivity. }
  split; [reflexivity|].
  split; [destruct (consume_count k start) as [Hc _]; rewrite Hc; reflexivity|].
  split; [rewrite Hk; reflexivity|].
  split; [rewrite Hk; reflexivity|].
  split; [apply checkQuotaLimit_cases|].
  intros Hne. rewrite checkQuotaLimit_cases.
  destruct (consume_count 45 start) as [_ Hd]. rewrite Hd.
  cbn [start lastResetDate]. rewrite Hne. reflexivity.
Qed.
End QuotaFacts.

(* ===================================================================== *)
(** * Properties of the assisted scorer (gemini-ats-scorer.ts)            *)
(* ===================================================================== *)

Module GeminiFacts.
Import JS Schema QuotaGate GeminiScorer GeminiTerms Samples.

Lemma num_max_0_range (n : jsnum) :
  n <> JNaN -> exists q, num_max (JFin 0) n = match n with JPosInf => JPosInf | _ => JFin q end
                         /\ (0 <= q)%Q.
Proof.
  intros Hn. destruct n as [| |q|]; try congruence.
  - exists 0%Q. split; [reflexivity | apply Qle_refl].
  - cbn [num_max num_leb]. destruct (Qle_bool 0 q) eqn:H.
    + exists q. split; [reflexivity | apply Qle_bool_iff; exact H].
    + exists 0%Q. split; [reflexivity | apply Qle_refl].
  - exists 0%Q. split; [reflexivity | apply Qle_refl].
Qed.

Lemma clamp_number (hi : Q) (n : jsnum) :
  (0 <= hi)%Q -> n <> JNaN -> inScoreRange hi (num_min (JFin hi) (num_max (JFin 0) n)).
Proof.
  intros Hhi Hn. destruct n as [| |q|]; try congruence.
  - (* -Infinity *) cbn [num_max num_leb num_min].
    destruct (Qle_bool hi 0) eqn:H.
    + exists hi. split; [reflexivity|]. split; [exact Hhi | apply Qle_refl].
    + exists 0%Q. split; [reflexivity|]. split; [apply Qle_refl | exact Hhi].
  - cbn [num_max num_leb]. destruct (Qle_bool 0 q) eqn:H0; cbn [num_min num_leb].
    + destruct (Qle_bool hi q) eqn:H1.
      * exists hi. split; [reflexivity|]. split; [exact Hhi | apply Qle_refl].
      * exists q. split; [reflexivity|]. split; [apply Qle_bool_iff; exact H0|].
        destruct (Qlt_le_dec q hi) as [L|L]; [apply Qlt_le_weak; exact L|].
        apply Qle_bool_iff in L. congruence.
    + destruct (Qle_bool hi 0) eqn:H1.
      * exists hi. split; [reflexivity|]. split; [exact Hhi | apply Qle_refl].
      * exists 0%Q. split; [reflexivity|]. split; [apply Qle_refl | exact Hhi].
  - (* +Infinity *) cbn [num_max num_leb num_min].
    exists hi. split; [reflexivity|]. split; [exact Hhi | apply Qle_refl].
Qed.

Lemma ToNumber_returns (rt : Runtime) (v : JValue) :
  convertible v = true -> exists n, ToNumber rt v = Return n.
Proof.
  intros Hc. destruct v; unfold ToNumber; try rewrite Hc; eexists; reflexivity.
Qed.

Lemma ToNumber_throws (rt : Runtime) (v : JValue) :
  convertible v = false -> ToNumber rt v = Throw "TypeError".
Proof.
  intros Hc. destruct v; try discriminate Hc; unfold ToNumber; rewrite Hc; reflexivity.
Qed.

(** [v || d] with a primitive [d] converts exactly when [v] does: a value
    that is not truthy is a primitive. *)
Lemma orElse_convertible (v d : JValue) :
  convertible d = true -> convertible (orElse v d) = convertible v.
Proof.
  intros Hd. unfold orElse. destruct (isTruthy v) eqn:Ht; [reflexivity|].
  rewrite Hd. destruct v; try reflexivity; discriminate Ht.
Qed.

Lemma Math_max_cases (rt : Runtime) (lo : Q) (v : JValue) :
  (convertible v = true /\ exists n, Math_max rt lo v = Return n)
  \/ (convertible v = false /\ Math_max rt lo v = Throw "TypeError").
Proof.
  unfold Math_max. destruct (convertible v) eqn:Hc.
  - left. split; [reflexivity|].
    destruct (ToNumber_returns rt v Hc) as [n E]. rewrite E. eexists; reflexivity.
  - right. split; [reflexivity|]. rewrite (ToNumber_throws rt v Hc). reflexivity.
Qed.

Lemma clampScore_cases (rt : Runtime) (hi : Q) (v : JValue) :
  (convertible v = true /\ exists n, clampScore rt hi v = Return n)
  \/ (convertible v = false /\ clampScore rt hi v = Throw "TypeError").
Proof.
  unfold clampScore.
  destruct (Math_max_cases rt 0 (orElse v zero)) as [[Hc [n E]]|[Hc E]];
    rewrite (orElse_convertible v zero eq_refl) in Hc; rewrite E.
  - left. split; [exact Hc|]. eexists; reflexivity.
  - right. split; [exact Hc | reflexivity].
Qed.

Lemma clampScore_plain (rt : Runtime) (hi : Q) (v : JValue) :
  (0 <= hi)%Q -> plainScore v ->
  exists n, clampScore rt hi v = Return n /\ inScoreRange hi n.
Proof.
  intros Hhi Hv. unfold clampScore, Math_min, Math_max, orElse.
  destruct v as [| |b|n|s|l|f]; cbn [plainScore] in Hv; try contradiction;
    cbn [isTruthy zero ToNumber bind].
  - eexists; split; [reflexivity|]. apply clamp_number; [exact Hhi | discriminate].
  - eexists; split; [reflexivity|]. apply clamp_number; [exact Hhi | discriminate].
  - destruct b; cbn [ToNumber bind]; (eexists; split; [reflexivity|]);
      apply clamp_number; try exact Hhi; discriminate.
  - destruct n as [| |q|]; cbn [ToNumber bind].
    + eexists; split; [reflexivity|]. apply clamp_number; [exact Hhi | discriminate].
    + eexists; split; [reflexivity|]. apply clamp_number; [exact Hhi | discriminate].
    + destruct (negb (Qeq_bool q 0)); cbn [ToNumber bind];
        (eexists; split; [reflexivity|]);
        apply clamp_number; try exact Hhi; discriminate.
    + eexists; split; [reflexivity|]. apply clamp_number; [exact Hhi | discriminate].
Qed.

(** A finite score inside the range is kept (up to the equality of rationals). *)
Lemma clampScore_inside (rt : Runtime) (hi q : Q) :
  (0 <= q)%Q -> (q <= hi)%Q ->
  exists q', clampScore rt hi (JNumber (JFin q)) = Return (JFin q') /\ (q' == q)%Q.
Proof.
  intros H0 H1. unfold clampScore, Math_min, Math_max, orElse. cbn [isTruthy].
  destruct (Qeq_bool q 0) eqn:Hz; cbn [negb zero ToNumber bind].
  - apply Qeq_bool_iff in Hz. cbn [num_max num_leb].
    change (Qle_bool 0 0) with true. cbn [num_min num_leb].
    destruct (Qle_bool hi 0) eqn:Hh.
    + exists hi. split; [reflexivity|]. apply Qle_bool_iff in Hh.
      apply Qle_antisym; [rewrite Hz; exact Hh | exact H1].
    + exists 0%Q. split; [reflexivity | symmetry; exact Hz].
  - cbn [num_max num_leb]. apply Qle_bool_iff in H0. rewrite H0.
    cbn [num_min num_leb]. destruct (Qle_bool hi q) eqn:Hh.
    + exists hi. split; [reflexivity|]. apply Qle_bool_iff in Hh.
      apply Qle_antisym; assumption.
    + exists q. split; reflexivity.
Qed.

(** What [sanitize] returns: the ten converted numbers in their places. *)
Lemma sanitize_returned (rt : Runtime) (analysis : list (string * JValue))
      (result : ATSResult) :
  sanitize rt analysis = Return result ->
  let b := breakdown result in
  clampScore rt 40 (scoreField analysis "keywords") = Return (kw_score (keywords b)) /\
  clampScore rt 25 (scoreField analysis "relevancy") = Return (rl_score (relevancy b)) /\
  clampScore rt 15 (scoreField analysis "quantification")
  = Return (qn_score (quantification b)) /\
  clampScore rt 10 (scoreField analysis "formatting") = Return (fm_score (formatting b)) /\
  clampScore rt 10 (scoreField analysis "readability") = Return (rd_score (readability b)) /\
  overall result = sumScores b /\
  suggestions result =
  (if isArray (lookupField analysis "suggestions")
   then sliceArray 5 (lookupField analysis "suggestions")
   else [JString "Resume analyzed successfully"]).
Proof.
  unfold sanitize, scoreField.
  repeat match goal with
         | |- context [bind ?c _] =>
             lazymatch c with
             | context [bind] => fail
             | _ => destruct c eqn:?; cbn [bind]; [|discriminate]
             end
         end.
  intros E. injection E as <-. cbn. repeat split; reflexivity.
Qed.

(** [sanitize] returns when each of the ten numeric fields converts, and
    throws a [TypeError] otherwise. *)
Lemma sanitize_cases (rt : Runtime) (analysis : list (string * JValue)) :
  (allConvertible analysis = true /\ exists result, sanitize rt analysis = Return result)
  \/ (allConvertible analysis = false /\ sanitize rt analysis = Throw "TypeError").
Proof.
  unfold allConvertible, numericFields, sanitize. cbn [forallb].
  repeat match goal with
         | |- context [bind (clampScore ?r ?h ?v) _] =>
             destruct (clampScore_cases r h v) as [[-> [? ->]]|[-> ->]];
             cbn [bind andb]; [|right; split; reflexivity]
         | |- context [bind (Math_max ?r ?l (orElse ?v ?d)) _] =>
             destruct (Math_max_cases r l (orElse v d)) as [[Hc [? ->]]|[Hc ->]];
             rewrite (orElse_convertible v d eq_refl) in Hc; rewrite Hc; clear Hc;
             cbn [bind andb]; [|right; split; reflexivity]
         end.
  left. split; [reflexivity|]. eexists; reflexivity.
Qed.

Lemma scoreBody_outcomes (rt : Runtime) (env : Env) (q : QuotaState)
      (resume : ResumeJson) (jdText : string) :
  fst (scoreBody rt env q resume jdText) = Return (getFallbackATSScore resume jdText)
  \/ (exists message, fst (scoreBody rt env q resume jdText) = Throw message)
  \/ (exists text analysis result,
        model env = ResponseText text (Some analysis) /\
        sanitize rt analysis = Return result /\
        fst (scoreBody rt env q resume jdText) = Return result).
Proof.
  unfold scoreBody.
  destruct (keyUnusable (apiKeyOf env)); [left; reflexivity|].
  destruct (checkQuotaLimit (today env) q) as [hasQuota q1].
  destruct hasQuota; cbn [negb]; [|left; reflexivity].
  destruct (model env) as [| |text parsed] eqn:Hm.
  - right; left. eexists; reflexivity.
  - right; left. eexists; reflexivity.
  - unfold parseResponse. destruct (test jsonPattern text); [|left; reflexivity].
    destruct parsed as [analysis|]; [|left; reflexivity].
    cbn [fst]. destruct (sanitize rt analysis) as [result|message] eqn:Hs.
    + right; right. exists text, analysis, result. repeat split; assumption.
    + right; left. eexists; reflexivity.
Qed.

(** C2 (amended): [computeGeminiATSScore] always returns a result. It is
    the fallback result when no usable key is configured, when the quota
    is used up, when the client or the request fails, when the answer
    holds no JSON that parses, and when the answer parses and one of its
    ten numeric fields cannot be converted to a number (an object with a
    key [toString], or an array that holds one: the conversion throws).
    When the answer parses and the ten fields convert, the result is
    built from it, whatever fields it has, and every sub-score whose
    field is a number, a boolean, [null] or missing lies in its range:
    keywords in [0, 40], relevancy in [0, 25], quantification in [0, 15],
    formatting and readability in [0, 10]. *)
Theorem C2_assisted_scoring (rt : Runtime) (env : Env) (q : QuotaState)
        (resume : ResumeJson) (jdText : string) :
  let out := fst (computeGeminiATSScore rt env q resume jdText) in
  let fallback := getFallbackATSScore resume jdText in
  (exists result, out = Return result) /\
  (keyUnusable (apiKeyOf env) = true -> out = Return fallback) /\
  (fst (checkQuotaLimit (today env) q) = false -> out = Return fallback) /\
  (model env = ClientFails -> out = Return fallback) /\
  (model env = CallFails -> out = Return fallback) /\
  (forall text parsed message,
      model env = ResponseText text parsed ->
      parseResponse text parsed = Throw message -> out = Return fallback) /\
  (forall text parsed analysis,
      keyUnusable (apiKeyOf env) = false ->
      fst (checkQuotaLimit (today env) q) = true ->
      model env = ResponseText text parsed ->
      parseResponse text parsed = Return analysis ->
      (allConvertible analysis = false ->
       sanitize rt analysis = Throw "TypeError" /\ out = Return fallback) /\
      (allConvertible analysis = true ->
       exists result, sanitize rt analysis = Return result /\ out = Return result)) /\
  (forall analysis result,
      sanitize rt analysis = Return result ->
      let b := breakdown result in
      (plainScore (scoreField analysis "keywords") -> inScoreRange 40 (kw_score (keywords b))) /\
      (plainScore (scoreField analysis "relevancy") -> inScoreRange 25 (rl_score (relevancy b))) /\
      (plainScore (scoreField analysis "quantification") ->
       inScoreRange 15 (qn_score (quantification b))) /\
      (plainScore (scoreField analysis "formatting") -> inScoreRange 10 (fm_score (formatting b))) /\
      (plainScore (scoreField analysis "readability") ->
       inScoreRange 10 (rd_score (readability b)))).
Proof.
  intros out fallback. unfold out, computeGeminiATSScore.
  split.
  { destruct (scoreBody rt env q resume jdText) as [[r|m] q']; eexists; reflexivity. }
  split.
  { intros Hk. unfold scoreBody. rewrite Hk. reflexivity. }
  split.
  { intros Hq. unfold scoreBody.
    destruct (keyUnusable (apiKeyOf env)); [reflexivity|].
    destruct (checkQuotaLimit (today env) q) as [hasQuota q1]. cbn [fst] in Hq.
    subst hasQuota. reflexivity. }
  split.
  { intros Hm. unfold scoreBody.
    destruct (keyUnusable (apiKeyOf env)); [reflexivity|].
    destruct (checkQuotaLimit (today env) q) as [[|] q1]; cbn [negb];
      [rewrite Hm|]; reflexivity. }
  split.
  { intros Hm. unfold scoreBody.
    destruct (keyUnusable (apiKeyOf env)); [reflexivity|].
    destruct (checkQuotaLimit (today env) q) as [[|] q1]; cbn [negb];
      [rewrite Hm|]; reflexivity. }
  split.
  { intros text parsed message Hm Hp. unfold scoreBody.
    destruct (keyUnusable (apiKeyOf env)); [reflexivity|].
    destruct (checkQuotaLimit (today env) q) as [[|] q1]; cbn [negb];
      [rewrite Hm, Hp|]; reflexivity. }
  split.
  { intros text parsed analysis Hk Hq Hm Hp. unfold scoreBody. rewrite Hk.
    destruct (checkQuotaLimit (today env) q) as [hasQuota q1]. cbn [fst] in Hq.
    subst hasQuota. cbn [negb]. rewrite Hm, Hp.
    destruct (sanitize_cases rt analysis) as [[Hc [result E]]|[Hc E]];
      rewrite Hc, E; (split; [intros Hd; try discriminate Hd|intros Hd; try discriminate Hd]).
    - exists result. split; reflexivity.
    - split; reflexivity. }
  intros analysis result Hs.
  destruct (sanitize_returned rt analysis result Hs) as [Ek [Er [Eq [Ef [Ed _]]]]].
  cbv zeta.
  repeat split; intros Hv;
    match goal with
    | |- inScoreRange ?hi _ =>
        let H := fresh in
        assert (H : (0 <= hi)%Q) by discriminate;
        destruct (clampScore_plain rt hi _ H Hv) as [n [En In]]
    end; congruence.
Qed.

(** C2 as stated fails: the answer [{}] parses and has none of the fields
    of the schema; the result is not the fallback result (overall 89, four
    fixed suggestions) but a result with every sub-score 0 and the single
    suggestion "Resume analyzed successfully". *)
Lemma C2_schema_violation_is_not_a_fallback :
  (forall rt : Runtime,
      exists result,
        fst (computeGeminiATSScore rt emptyObjectEnv freshQuota annResume
                                   "Python and SQL engineer") = Return result /\
        overall result = JFin 0 /\
        suggestions result = [JString "Resume analyzed successfully"]) /\
  overall (getFallbackATSScore annResume "Python and SQL engineer") = JFin 89 /\
  suggestions (getFallbackATSScore annResume "Python and SQL engineer")
  = List.map JString fallbackSuggestions.
Proof.
  split.
  - intros rt. eexists. split; [vm_compute; reflexivity|].
    split; reflexivity.
  - split; vm_compute; reflexivity.
Qed.

(** An answer within the schema: the scores 55 and -3 are cut to 40 and 0,
    and 8.5 is kept. *)
Example sanitize_greedy (rt : Runtime) :
  exists result,
    fst (computeGeminiATSScore rt greedyEnv freshQuota annResume "Python") = Return result /\
    kw_score (keywords (breakdown result)) = JFin 40 /\
    rl_score (relevancy (breakdown result)) = JFin 0 /\
    fm_score (formatting (breakdown result)) = JFin (17 # 2).
Proof. eexists. split; [vm_compute; reflexivity|]. repeat split. Qed.

(** A score that is an object is not cut to the range: the result is [NaN]. *)
Example sanitize_object_score (rt : Runtime) :
  exists result,
    sanitize rt [("keywords", JObject [("score", JObject [])])] = Return result /\
    kw_score (keywords (breakdown result)) = JNaN.
Proof. eexists. split; reflexivity. Qed.

(** A score that is an object with a key [toString]: the conversion
    throws, and the caller gets the fallback result. *)
Example sanitize_trap (rt : Runtime) :
  sanitize rt trapAnalysis = Throw "TypeError" /\
  fst (computeGeminiATSScore rt trapEnv freshQuota annResume "Python and SQL engineer")
  = Return (getFallbackATSScore annResume "Python and SQL engineer").
Proof. split; reflexivity. Qed.


(** The quota is charged once per request that gets as far as the model:
    not without a usable key, not without capacity, and not when the client
    cannot be built. *)
Theorem quota_is_charged_per_request (rt : Runtime) (env : Env) (q : QuotaState)
        (resume : ResumeJson) (jdText : string) :
  let q' := snd (computeGeminiATSScore rt env q resume jdText) in
  let checked := snd (checkQuotaLimit (today env) q) in
  q' = (if keyUnusable (apiKeyOf env) then q
        else if negb (fst (checkQuotaLimit (today env) q)) then checked
        else match model env with
             | ClientFails => checked
             | _ => incrementQuotaCount checked
             end).
Proof.
  cbv zeta. unfold computeGeminiATSScore, scoreBody.
  destruct (keyUnusable (apiKeyOf env)); [reflexivity|].
  destruct (checkQuotaLimit (today env) q) as [hasQuota q1]. cbn [fst snd].
  destruct hasQuota; cbn [negb]; [|reflexivity].
  destruct (model env) as [| |text parsed]; try reflexivity.
  destruct (parseResponse text parsed) as [analysis|];
    [destruct (sanitize rt analysis)|]; reflexivity.
Qed.

(** The assisted scorer returns at most five suggestions. *)
Lemma gemini_suggestions_at_most_5 (rt : Runtime) (env : Env) (q : QuotaState)
      (resume : ResumeJson) (jdText : string) :
  exists result,
    fst (computeGeminiATSScore rt env q resume jdText) = Return result /\
    (length (suggestions result) <= 5)%nat.
Proof.
  assert (Hf : (length (suggestions (getFallbackATSScore resume jdText)) <= 5)%nat).
  { unfold getFallbackATSScore. destruct (ATSEngine.countBullets resume).
    cbn [suggestions]. rewrite length_map. simpl. lia. }
  assert (Hs : forall analysis result,
               sanitize rt analysis = Return result ->
               (length (suggestions result) <= 5)%nat).
  { intros analysis result E.
    destruct (sanitize_returned rt analysis result E) as [_ [_ [_ [_ [_ [_ ->]]]]]].
    destruct (lookupField analysis "suggestions") as [| | | | |items|];
      cbn [isArray sliceArray length]; try lia.
    unfold slice0. rewrite length_firstn. lia. }
  unfold computeGeminiATSScore.
  destruct (scoreBody_outcomes rt env q resume jdText) as [H|[[m H]|[t [a [r [_ [E H]]]]]]];
    destruct (scoreBody rt env q resume jdText) as [c q']; cbn [fst] in H; subst c;
    eexists; (split; [reflexivity|]); eauto.
Qed.

(** *** The fallback result *)

Lemma sum_of_scores (a b c d e : Z) :
  exists total : Q,
    num_add (num_add (num_add (num_add (ofZ a) (ofZ b)) (ofZ c)) (ofZ d)) (ofZ e)
    = JFin total /\
    (total == inject_Z (a + b + c + d + e))%Q.
Proof.
  eexists. split; [reflexivity|]. rewrite !inject_Z_plus. reflexivity.
Qed.

(** Every fallback result: the keyword score lies in [0,40], the relevancy
    score is [min 25 (keywords + 5)], the quantification score lies in
    [0,15], the formatting score in [2,10] and the readability score is the
    constant 8; [overall] is their sum, between 15 and 98: a fallback
    result never reaches 100. At most 20 keywords are counted, at most 5
    reported missing, and the four fixed suggestions are returned. *)
Theorem fallback_invariant (resume : ResumeJson) (jdText : string) :
  let r := getFallbackATSScore resume jdText in
  let b := breakdown r in
  exists kw qn fm matched counted : Z,
    kw_score (keywords b) = ofZ kw /\ 0 <= kw <= 40 /\
    rl_score (relevancy b) = ofZ (Z.min 25 (kw + 5)) /\
    qn_score (quantification b) = ofZ qn /\ 0 <= qn <= 15 /\
    fm_score (formatting b) = ofZ fm /\ 2 <= fm <= 10 /\
    rd_score (readability b) = ofZ 8 /\
    (exists total : Q,
        overall r = JFin total /\
        (total == inject_Z (kw + Z.min 25 (kw + 5) + qn + fm + 8))%Q /\
        (15 <= total)%Q /\ (total <= 98)%Q) /\
    kw_matched (keywords b) = ofZ matched /\ kw_total (keywords b) = ofZ counted /\
    0 <= matched <= counted /\ counted <= 20 /\
    (length (kw_missing (keywords b)) <= 5)%nat /\
    suggestions r = List.map JString fallbackSuggestions.
Proof.
  intros r b. unfold b, r, getFallbackATSScore.
  rewrite ATSEngineFacts.countBullets_spec.
  cbn [breakdown keywords relevancy quantification formatting readability
       kw_score kw_matched kw_total kw_missing rl_score qn_score fm_score rd_score
       overall suggestions sumScores].
  set (common := slice0 20 _).
  set (matchedKeywords := List.filter _ common).
  set (bullets := flat_map exp_bullets (experience resume)).
  set (kw := Math_round _).
  set (qn := if 0 <? Z.of_nat (length bullets) then _ else 0).
  set (fm := Z.max 0 _).
  assert (Hc : (length common <= 20)%nat).
  { unfold common, slice0. rewrite length_firstn. lia. }
  pose proof (ATSEngineFacts.filter_shorter
                (fun keyword => includes (toLowerCase (convertResumeToText resume)) keyword)
                common) as Hm.
  fold matchedKeywords in Hm.
  assert (Hkw : 0 <= kw <= 40).
  { unfold kw. apply (ATSEngineFacts.share_bounds _ _ 40); lia. }
  assert (Hqn : 0 <= qn <= 15).
  { unfold qn. destruct (0 <? Z.of_nat (length bullets)) eqn:Ht; [|lia].
    apply Z.ltb_lt in Ht.
    pose proof (ATSEngineFacts.filter_shorter ATSEngine.isQuantified bullets) as Hq.
    apply (ATSEngineFacts.share_bounds _ _ 15); lia. }
  assert (Hfm : 2 <= fm <= 10).
  { unfold fm. destruct (_ || _); destruct (_ || _); destruct (_ =? 0); lia. }
  exists kw, qn, fm, (Z.of_nat (length matchedKeywords)), (Z.of_nat (length common)).
  repeat (split; [first [reflexivity | lia]|]).
  split.
  { destruct (sum_of_scores kw (Z.min 25 (kw + 5)) qn fm 8) as [total [E Hq]].
    exists total. split; [exact E|]. split; [exact Hq|].
    rewrite Hq. change 15%Q with (inject_Z 15). change 98%Q with (inject_Z 98).
    rewrite <- !Zle_Qle. lia. }
  repeat (split; [first [reflexivity | lia]|]).
  split; [|reflexivity].
  rewrite length_map. unfold slice0. rewrite length_firstn. lia.
Qed.

(** *** The sanitized result *)

Lemma inScoreRange_add (h1 h2 : Q) (a b : jsnum) :
  inScoreRange h1 a -> inScoreRange h2 b -> inScoreRange (h1 + h2) (num_add a b).
Proof.
  intros [p [Ea [Hp0 Hp1]]] [q [Eb [Hq0 Hq1]]]. subst a b.
  exists (p + q)%Q. split; [reflexivity|]. split.
  - change 0%Q with (0 + 0)%Q. apply Qplus_le_compat; assumption.
  - apply Qplus_le_compat; assumption.
Qed.

(** When the five score fields of a parsed answer are plain (a number, a
    boolean, [null] or absent), the overall score of a sanitized result
    is a finite number between 0 and 100, whatever the fields hold: it is
    the sum of the clamped sub-scores, not a field of the answer. There
    is such a result when the other five numeric fields convert to a
    number. *)
Theorem sanitized_overall_in_range (rt : Runtime) (analysis : list (string * JValue)) :
  plainScore (scoreField analysis "keywords") ->
  plainScore (scoreField analysis "relevancy") ->
  plainScore (scoreField analysis "quantification") ->
  plainScore (scoreField analysis "formatting") ->
  plainScore (scoreField analysis "readability") ->
  (allConvertible analysis = true -> exists result, sanitize rt analysis = Return result) /\
  (forall result,
      sanitize rt analysis = Return result -> inScoreRange 100 (overall result)).
Proof.
  intros Hk Hr Hq Hf Hd.
  split.
  { intros Hc. destruct (sanitize_cases rt analysis) as [[_ H]|[H _]]; [exact H|congruence]. }
  intros result Hs.
  destruct (sanitize_returned rt analysis result Hs) as [Ek [Er [Eq [Ef [Ed [Eo _]]]]]].
  rewrite Eo. unfold sumScores.
  assert (L : forall hi n v, (0 <= hi)%Q -> plainScore v ->
                             clampScore rt hi v = Return n -> inScoreRange hi n).
  { intros hi n v Hhi Hv E. destruct (clampScore_plain rt hi v Hhi Hv) as [n' [E' I']].
    congruence. }
  pose proof (L 40%Q _ _ ltac:(discriminate) Hk Ek) as Ik.
  pose proof (L 25%Q _ _ ltac:(discriminate) Hr Er) as Ir.
  pose proof (L 15%Q _ _ ltac:(discriminate) Hq Eq) as Iq.
  pose proof (L 10%Q _ _ ltac:(discriminate) Hf Ef) as If'.
  pose proof (L 10%Q _ _ ltac:(discriminate) Hd Ed) as Id.
  pose proof (inScoreRange_add _ _ _ _
                (inScoreRange_add _ _ _ _
                   (inScoreRange_add _ _ _ _
                      (inScoreRange_add _ _ _ _ Ik Ir) Iq) If') Id) as H.
  destruct H as [q [E [H0 H1]]]. exists q. split; [exact E|]. split; [exact H0|].
  eapply Qle_trans; [exact H1|]. discriminate.
Qed.

Lemma sanitized_overall_in_range_witness :
  let rt := {| StringToNumber := fun _ => JNaN; ArrayToNumber := fun _ => JNaN |} in
  exists result,
    sanitize rt greedyAnalysis = Return result /\ inScoreRange 100 (overall result).
Proof.
  intros rt.
  destruct (sanitized_overall_in_range rt greedyAnalysis I I I I I) as [He Hr].
  destruct (He eq_refl) as [result E].
  exists result. split; [exact E | exact (Hr result E)].
Defined.

(** *** The quota counter *)

(** A request never takes the daily count out of the range 0..45: the
    count is only incremented after the quota check has found it below
    45. *)
Theorem quota_count_stays_in_range (rt : Runtime) (env : Env) (q : QuotaState)
        (resume : ResumeJson) (jdText : string) :
  0 <= dailyRequestCount q <= MAX_DAILY_REQUESTS ->
  0 <= dailyRequestCount (snd (computeGeminiATSScore rt env q resume jdText))
    <= MAX_DAILY_REQUESTS.
Proof.
  intros Hq. unfold computeGeminiATSScore, scoreBody.
  destruct (keyUnusable (apiKeyOf env)); [exact Hq|].
  unfold checkQuotaLimit, MAX_DAILY_REQUESTS in *.
  destruct (negb (String.eqb (today env) (lastResetDate q)));
    cbn [dailyRequestCount lastResetDate].
  - cbn. destruct (model env) as [| |text parsed]; cbn; try lia.
    destruct (parseResponse text parsed) as [analysis|];
        [destruct (sanitize rt analysis)|]; cbn; lia.
  - destruct (dailyRequestCount q <? 45) eqn:Hlt; cbn [negb].
    + apply Z.ltb_lt in Hlt.
      destruct (model env) as [| |text parsed]; cbn; try lia.
      destruct (parseResponse text parsed) as [analysis|];
        [destruct (sanitize rt analysis)|]; cbn; lia.
    + cbn. exact Hq.
Qed.

Lemma quota_count_stays_in_range_witness :
  0 <= dailyRequestCount
         (snd (computeGeminiATSScore
                 {| StringToNumber := fun _ => JNaN; ArrayToNumber := fun _ => JNaN |}
                 greedyEnv (consume 44 freshQuota) annResume "Python"))
    <= MAX_DAILY_REQUESTS.
Proof. apply quota_count_stays_in_range. vm_compute. split; discriminate. Defined.

End GeminiFacts.

(* ===================================================================== *)
(** * Properties of the channel registry                                  *)
(* ===================================================================== *)

Module BroadcastFacts.
Import JS Broadcast.

Lemma sendIfOpen_fold {D} (readyState : ConnId -> ReadyState) (message : Message D)
      (connections : list ConnId) (sent : list (Delivery D)) :
  fold_left (sendIfOpen readyState message) connections sent =
  (sent ++ List.map (fun ws => (ws, message))
                    (List.filter (fun ws => isOpen (readyState ws)) connections))%list.
Proof.
  revert sent. induction connections as [|ws l IH]; intros sent.
  - simpl. rewrite app_nil_r. reflexivity.
  - cbn [fold_left List.filter]. rewrite IH. unfold sendIfOpen.
    destruct (isOpen (readyState ws)); [|reflexivity].
    cbn [List.map]. rewrite <- app_assoc. reflexivity.
Qed.

Lemma isOpen_OPEN (s : ReadyState) : isOpen s = true <-> s = OPEN.
Proof. destruct s; simpl; split; congruence. Qed.

(** C5 (amended): a publish whose payload is an object that
    [JSON.stringify] accepts never raises. On a channel that has no set
    of subscribers, or an empty one, it hands no message to any socket;
    on a channel with subscribers it builds one message [{channel, data}]
    and hands that same message, once and in subscription order, to every
    subscribed connection whose [readyState] is [OPEN], and to no other;
    when all the N subscribers are open, exactly N messages are handed
    out. A publish whose payload is [null] or [undefined] raises a
    [TypeError] on every channel, and one whose payload cannot be
    serialized raises it on a channel that has a set of subscribers; a
    publish that raises hands out no message. *)
Theorem C5_publish_delivery {D : Type} (readyState : ConnId -> ReadyState)
        (wsConnections : gmap string (list ConnId)) (channel : string) (data : D)
        (sent : list (Delivery D)) :
  let publish := broadcastToChannelAny readyState wsConnections channel in
  let sent' := broadcastToChannel readyState wsConnections channel data sent in
  let message := {| msg_channel := channel; msg_data := data |} in
  publish (Plain data) sent = (Return tt, sent') /\
  publish Nullish sent = (Throw "TypeError", sent) /\
  publish Unserializable sent
  = (match wsConnections !! channel with
     | Some _ => Throw "TypeError"
     | None => Return tt
     end, sent) /\
  (wsConnections !! channel = None -> sent' = sent) /\
  (wsConnections !! channel = Some [] -> sent' = sent) /\
  (forall connections,
      wsConnections !! channel = Some connections ->
      sent' = (sent ++ List.map (fun ws => (ws, message))
                                (List.filter (fun ws => isOpen (readyState ws))
                                             connections))%list
      /\ (forall ws, In ws connections -> readyState ws = OPEN -> In (ws, message) sent')
      /\ (forall ws m, In (ws, m) sent' ->
                       In (ws, m) sent
                       \/ (m = message /\ In ws connections /\ readyState ws = OPEN))
      /\ ((forall ws, In ws connections -> readyState ws = OPEN) ->
          length sent' = (length sent + length connections)%nat)).
Proof.
  intros publish sent' message. unfold publish, sent', broadcastToChannelAny.
  split; [reflexivity|].
  split; [reflexivity|].
  split; [destruct (wsConnections !! channel); reflexivity|].
  unfold broadcastToChannel.
  split; [intros H; rewrite H; reflexivity|].
  split; [intros H; rewrite H; reflexivity|].
  intros connections H. rewrite H. fold message. rewrite sendIfOpen_fold.
  split; [reflexivity|].
  split.
  { intros ws Hin Hopen. apply in_or_app. right. apply in_map_iff.
    exists ws. split; [reflexivity|]. apply filter_In. split; [exact Hin|].
    apply isOpen_OPEN. exact Hopen. }
  split.
  { intros ws m Hin. apply in_app_or in Hin. destruct Hin as [Hin|Hin]; [left; exact Hin|].
    right. apply in_map_iff in Hin. destruct Hin as [ws' [He Hf]].
    inversion He; subst. apply filter_In in Hf. destruct Hf as [Hin Hopen].
    split; [reflexivity|]. split; [exact Hin | apply isOpen_OPEN; exact Hopen]. }
  intros Hall. rewrite length_app, length_map. f_equal.
  clear H. induction connections as [|ws l IH]; [reflexivity|].
  cbn [List.filter]. rewrite (proj2 (isOpen_OPEN _) (Hall ws (or_introl eq_refl))).
  cbn [length]. f_equal. apply IH. intros x Hx. apply Hall. right. exact Hx.
Qed.

(** C5 as stated fails: connection 7 is subscribed to the channel and is in
    the state CLOSING; a publish hands it no message. *)
Lemma C5_closing_subscriber_gets_nothing :
  (<["ats:r1:j1" := [7%nat]]> (∅ : gmap string (list ConnId))) !! "ats:r1:j1" = Some [7%nat] /\
  broadcastToChannel (fun _ => CLOSING) (<["ats:r1:j1" := [7%nat]]> ∅) "ats:r1:j1"
                     "final score" [] = [].
Proof. split; reflexivity. Qed.

Lemma connDelete_not_in (ws : ConnId) (set : list ConnId) : ~ In ws (connDelete ws set).
Proof.
  unfold connDelete. intros H. apply filter_In in H. destruct H as [_ H].
  rewrite Nat.eqb_refl in H. discriminate.
Qed.

(** After the [close] handler ran for a connection, no publish on any
    channel hands it a message. *)
Theorem closed_connection_gets_nothing {D : Type} (readyState : ConnId -> ReadyState)
        (wsConnections : gmap string (list ConnId)) (ws : ConnId)
        (channel : string) (data : D) (sent : list (Delivery D)) (m : Message D) :
  In (ws, m) (broadcastToChannel readyState (unsubscribe ws wsConnections) channel data sent)
  <-> In (ws, m) sent.
Proof.
  unfold broadcastToChannel, unsubscribe. rewrite lookup_fmap.
  destruct (wsConnections !! channel) as [set|]; cbn [fmap option_fmap option_map];
    [|reflexivity].
  rewrite sendIfOpen_fold. rewrite in_app_iff. split; [|tauto].
  intros [H|H]; [exact H|]. exfalso.
  apply in_map_iff in H. destruct H as [x [He Hf]]. inversion He; subst.
  apply filter_In in Hf. destruct Hf as [Hf _]. exact (connDelete_not_in _ _ Hf).
Qed.

(** A subscribe message with a non-empty channel name puts the connection
    into the set of that channel. *)
Lemma subscribe_then_member (channel : string) (ws : ConnId)
      (wsConnections : gmap string (list ConnId)) :
  truthy channel = true ->
  exists set, subscribe channel ws wsConnections !! channel = Some set /\ In ws set.
Proof.
  intros Ht. unfold subscribe. rewrite Ht.
  assert (Hadd : forall set, In ws (connAdd ws set)).
  { intros set. unfold connAdd. destruct (existsb (Nat.eqb ws) set) eqn:He.
    - apply existsb_exists in He. destruct He as [x [Hx Hq]].
      apply Nat.eqb_eq in Hq. subst. exact Hx.
    - apply in_or_app. right. left. reflexivity. }
  destruct (wsConnections !! channel) as [set|] eqn:Hc.
  - rewrite Hc. rewrite lookup_insert_eq. eexists. split; [reflexivity | apply Hadd].
  - rewrite lookup_insert_eq. rewrite lookup_insert_eq.
    eexists. split; [reflexivity | apply Hadd].
Qed.

(** *** Subscribing *)

Lemma connAdd_idempotent (ws : ConnId) (set : list ConnId) :
  connAdd ws (connAdd ws set) = connAdd ws set.
Proof.
  unfold connAdd. destruct (existsb (Nat.eqb ws) set) eqn:He.
  - rewrite He. reflexivity.
  - rewrite existsb_app. cbn [existsb].
    rewrite Nat.eqb_refl, orb_true_r. reflexivity.
Qed.

(** Subscribing a connection to a channel a second time changes nothing,
    so a publish still hands it one message; a subscription touches no
    other channel; a message with an empty channel name is ignored. *)
Theorem subscribe_idempotent_and_local (channel : string) (ws : ConnId)
        (wsConnections : gmap string (list ConnId)) :
  subscribe channel ws (subscribe channel ws wsConnections)
  = subscribe channel ws wsConnections /\
  (forall other, other <> channel ->
                 subscribe channel ws wsConnections !! other = wsConnections !! other) /\
  subscribe "" ws wsConnections = wsConnections.
Proof.
  split; [|split; [|reflexivity]].
  - unfold subscribe. destruct (truthy channel); [|reflexivity].
    destruct (wsConnections !! channel) as [set|] eqn:Hc.
    + rewrite Hc. rewrite !lookup_insert_eq.
      rewrite insert_insert_eq, connAdd_idempotent. reflexivity.
    + rewrite !lookup_insert_eq.
      rewrite !insert_insert_eq, connAdd_idempotent. reflexivity.
  - intros other Hne. unfold subscribe. destruct (truthy channel); [|reflexivity].
    destruct (wsConnections !! channel) as [set|] eqn:Hc.
    + rewrite Hc. rewrite lookup_insert_ne by congruence. reflexivity.
    + rewrite lookup_insert_eq. rewrite !lookup_insert_ne by congruence. reflexivity.
Qed.

Lemma connAdd_NoDup (ws : ConnId) (set : list ConnId) :
  List.NoDup set -> List.NoDup (connAdd ws set).
Proof.
  intros H. unfold connAdd. destruct (existsb (Nat.eqb ws) set) eqn:He; [exact H|].
  apply NoDup_ListNoDup. apply NoDup_app. split; [apply NoDup_ListNoDup; exact H|].
  split; [|apply NoDup_singleton].
  intros x Hx Hx'. apply list_elem_of_singleton in Hx'. subst x.
  apply list_elem_of_In in Hx.
  assert (Ht : existsb (Nat.eqb ws) set = true).
  { apply existsb_exists. exists ws. split; [exact Hx | apply Nat.eqb_refl]. }
  congruence.
Qed.

(** When no set of the channel map holds a connection twice, this stays so
    after a subscription and after the [close] handler, and one publish
    hands at most one message to each connection. Every map built from the
    empty one by these two handlers is of that kind. *)
Theorem one_message_per_connection {D : Type} (readyState : ConnId -> ReadyState)
        (wsConnections : gmap string (list ConnId)) (channel : string) (ws : ConnId)
        (data : D) :
  (forall c set, wsConnections !! c = Some set -> List.NoDup set) ->
  (forall c set, subscribe channel ws wsConnections !! c = Some set -> List.NoDup set) /\
  (forall c set, unsubscribe ws wsConnections !! c = Some set -> List.NoDup set) /\
  List.NoDup (List.map fst (broadcastToChannel readyState wsConnections channel data [])).
Proof.
  intros Hwf. split; [|split].
  - intros c set. unfold subscribe. destruct (truthy channel); [|apply Hwf].
    destruct (wsConnections !! channel) as [old|] eqn:Hc.
    + rewrite Hc. destruct (decide (c = channel)) as [->|Hne].
      * rewrite lookup_insert_eq. intros E. injection E as <-.
        apply connAdd_NoDup. exact (Hwf _ _ Hc).
      * rewrite lookup_insert_ne by congruence. apply Hwf.
    + rewrite lookup_insert_eq. destruct (decide (c = channel)) as [->|Hne].
      * rewrite lookup_insert_eq. intros E. injection E as <-.
        apply connAdd_NoDup. constructor.
      * rewrite !lookup_insert_ne by congruence. apply Hwf.
  - intros c set. unfold unsubscribe. rewrite lookup_fmap.
    destruct (wsConnections !! c) as [old|] eqn:Hc; cbn; [|discriminate].
    intros E. injection E as <-. unfold connDelete.
    apply List.NoDup_filter. exact (Hwf _ _ Hc).
  - unfold broadcastToChannel.
    destruct (wsConnections !! channel) as [connections|] eqn:Hc; [|constructor].
    rewrite sendIfOpen_fold. cbn [app]. rewrite List.map_map. cbn [fst].
    rewrite List.map_id. apply List.NoDup_filter. exact (Hwf _ _ Hc).
Qed.

Lemma one_message_per_connection_witness :
  List.NoDup (List.map fst
    (broadcastToChannel (fun _ => OPEN) (<["ats:r1:j1" := [7%nat; 9%nat]]> ∅)
                        "ats:r1:j1" "final score" [])).
Proof.
  refine (proj2 (proj2 (one_message_per_connection (fun _ => OPEN)
                          (<["ats:r1:j1" := [7%nat; 9%nat]]> ∅)
                          "ats:r1:j1" 7%nat "final score" _))).
  intros c set.
  destruct (decide (c = "ats:r1:j1")) as [->|Hne].
  - rewrite lookup_insert_eq. intros E. injection E as <-.
    repeat constructor; simpl; intuition discriminate.
  - rewrite lookup_insert_ne by congruence. rewrite lookup_empty. discriminate.
Defined.

End BroadcastFacts.

(* ===================================================================== *)
(** * Properties of the batch-job orchestrator                            *)
(* ===================================================================== *)

Module BatchFacts.
Import JS Schema Storage Broadcast BatchJobs BatchTerms Samples.

Lemma targetLoop_spec (env : Env) (channel : string) (p : BatchPayload) (n : nat)
      (jds : list (option JobDescription)) :
  forall (i : nat) (w : World) (results : list BatchResult),
    let out := targetLoop env channel p n i jds w results in
    snd out = (results ++ entriesOf env (resolvedFrom i jds))%list /\
    published (fst out)
    = (published w ++ progressEventsOf channel n (resolvedFrom i jds))%list /\
    statusLog (fst out) = statusLog w /\
    jobs (db (fst out)) = jobs (db w) /\
    resumes (db (fst out)) = resumes (db w) /\
    jobDescriptions (db (fst out)) = jobDescriptions (db w) /\
    wsConnections (fst out) = wsConnections w.
Proof.
  induction jds as [|[jd|] rest IH]; intros i w results; cbn zeta.
  - cbn [targetLoop resolvedFrom entriesOf progressEventsOf List.map fst snd].
    rewrite !app_nil_r. repeat split; reflexivity.
  - cbn [targetLoop resolvedFrom].
    unfold entriesOf, progressEventsOf, entryFor. cbn [List.map fst snd].
    destruct (targetOp env i jd) as [content coverId|].
    + cbn [createCoverLetter].
      match goal with |- context [targetLoop env channel p n (S i) rest ?w1 ?r1] =>
        specialize (IH (S i) w1 r1) end.
      cbn zeta in IH. destruct IH as (H1 & H2 & H3 & H4 & H5 & H6 & H7).
      rewrite H1, H2, H3, H4, H5, H6, H7.
      cbn [withDb publish published statusLog db wsConnections jobs resumes
           jobDescriptions cl_id].
      rewrite <- !app_assoc. repeat split; reflexivity.
    + match goal with |- context [targetLoop env channel p n (S i) rest ?w1 ?r1] =>
        specialize (IH (S i) w1 r1) end.
      cbn zeta in IH. destruct IH as (H1 & H2 & H3 & H4 & H5 & H6 & H7).
      rewrite H1, H2, H3, H4, H5, H6, H7.
      cbn [publish published statusLog db wsConnections].
      rewrite <- !app_assoc. repeat split; reflexivity.
  - cbn [targetLoop resolvedFrom]. apply IH.
Qed.

Lemma resolvedFrom_length (jds : list (option JobDescription)) (i : nat) :
  (length (resolvedFrom i jds) <= length jds)%nat /\
  (In None jds -> (length (resolvedFrom i jds) < length jds)%nat).
Proof.
  revert i. induction jds as [|[jd|] rest IH]; intros i; cbn [resolvedFrom length].
  - split; [lia | intros []].
  - destruct (IH (S i)) as [H1 H2]. split; [lia|].
    intros [H|H]; [discriminate | specialize (H2 H); lia].
  - destruct (IH (S i)) as [H1 H2]. split; [lia|]. intros _. lia.
Qed.

Lemma statusesOf_app (id : string) (w : World) (log : list (string * JobStatus)) :
  List.map snd (List.filter (fun e => String.eqb (fst e) id) (statusLog w ++ log))
  = (statusesOf id w ++ List.map snd (List.filter (fun e => String.eqb (fst e) id) log))%list.
Proof. unfold statusesOf. rewrite List.filter_app, List.map_app. reflexivity. Qed.

Lemma setJobStatus_found (id : string) (status : JobStatus) (artifacts : option Artifacts)
      (w : World) (job : Job) :
  getJob (db w) id = Some job ->
  let w' := setJobStatus id status artifacts w in
  getJob (db w') id
  = Some {| job_id := job_id job; job_type := job_type job;
            job_payload := job_payload job; job_status := status;
            job_artifacts := artifacts |} /\
  statusLog w' = (statusLog w ++ [(id, status)])%list /\
  published w' = published w /\
  resumes (db w') = resumes (db w) /\
  jobDescriptions (db w') = jobDescriptions (db w).
Proof.
  intros Hjob. cbn zeta. unfold setJobStatus, updateJobStatus.
  cbn [db statusLog published]. rewrite Hjob. unfold getJob in *. rewrite Hjob.
  cbn [withJobs jobs resumes jobDescriptions].
  split; [apply lookup_insert_eq|]. repeat split; reflexivity.
Qed.

(** The processor on a job whose resume is found. *)
Lemma process_completes (env : Env) (jobId : string) (w : World) (job : Job) (r : Resume) :
  getJob (db w) jobId = Some job ->
  getResume (db w) (resumeId (job_payload job)) = Some r ->
  let p := job_payload job in
  let jds := List.map (getJobDescription (db w)) (jdIds p) in
  let results := entriesOf env (resolvedFrom 0 jds) in
  let channel := "batch:" +:+ jobId in
  let w' := processBatchCoverLetters env jobId w in
  getJob (db w') jobId
  = Some {| job_id := job_id job; job_type := job_type job; job_payload := p;
            job_status := completed;
            job_artifacts := Some (ResultsArtifact results) |} /\
  statusLog w' = (statusLog w ++ [(jobId, running); (jobId, completed)])%list /\
  published w'
  = (published w ++ progressEventsOf channel (length jds) (resolvedFrom 0 jds)
     ++ [(channel, Completed results)])%list.
Proof.
  intros Hjob Hres p jds results channel w'.
  unfold w', processBatchCoverLetters. rewrite Hjob.
  destruct (setJobStatus_found jobId running None w job Hjob)
    as (Hg1 & Hl1 & Hp1 & Hr1 & Hd1).
  set (w1 := setJobStatus jobId running None w) in *.
  unfold getResume, getJobDescription in *. rewrite Hr1, Hres, Hd1.
  fold p. fold channel.
  change (List.map (fun id => jobDescriptions (db w) !! id) (jdIds p)) with jds.
  pose proof (targetLoop_spec env channel p (length jds) jds 0 w1 []) as Hloop.
  cbn zeta in Hloop.
  destruct (targetLoop env channel p (length jds) 0 jds w1 []) as [w2 results2].
  cbn [fst snd] in Hloop. destruct Hloop as (H1 & H2 & H3 & H4 & H5 & H6 & H7).
  cbn [app] in H1. subst results2. fold results.
  set (w3 := publish env channel (Completed results) w2).
  assert (Hg3 : getJob (db w3) jobId
                = Some {| job_id := job_id job; job_type := job_type job;
                          job_payload := job_payload job; job_status := running;
                          job_artifacts := None |}).
  { unfold w3, publish, getJob. cbn [db]. rewrite H4. exact Hg1. }
  destruct (setJobStatus_found jobId completed (Some (ResultsArtifact results)) w3 _ Hg3)
    as (Hg4 & Hl4 & Hp4 & _ & _).
  cbn [job_id job_type job_payload] in Hg4.
  split; [exact Hg4|].
  split.
  - rewrite Hl4. unfold w3, publish. cbn [statusLog]. rewrite H3, Hl1.
    rewrite <- app_assoc. reflexivity.
  - rewrite Hp4. unfold w3, publish. cbn [published]. rewrite H2, Hp1.
    rewrite <- app_assoc. reflexivity.
Qed.


Lemma statusesOf_log (id : string) (w w' : World) (added : list JobStatus) :
  statusLog w' = (statusLog w ++ List.map (fun s => (id, s)) added)%list ->
  statusesOf id w' = (statusesOf id w ++ added)%list.
Proof.
  intros H. unfold statusesOf. rewrite H, List.filter_app, List.map_app. f_equal.
  clear H. induction added as [|s l IH]; [reflexivity|].
  cbn [List.map List.filter fst]. rewrite String.eqb_refl. cbn [List.map snd].
  f_equal. exact IH.
Qed.

(** C3: a batch of three targets that all resolve, with the resume found;
    the operation fails for the second target and succeeds for the other
    two. The job ends in [completed] with the three entries in order, the
    second one with [success: false] and the text "Generation failed", the
    other two with [success: true]; the last event published carries the
    same list. *)
Theorem C3_failing_target_is_recorded
        (env : Env) (jobId : string) (w : World) (job : Job) (r : Resume)
        (id1 id2 id3 : string) (jd1 jd2 jd3 : JobDescription)
        (content1 cover1 content3 cover3 : string) :
  getJob (db w) jobId = Some job ->
  jdIds (job_payload job) = [id1; id2; id3] ->
  getResume (db w) (resumeId (job_payload job)) = Some r ->
  getJobDescription (db w) id1 = Some jd1 ->
  getJobDescription (db w) id2 = Some jd2 ->
  getJobDescription (db w) id3 = Some jd3 ->
  targetOp env 0 jd1 = Generated content1 cover1 ->
  targetOp env 1 jd2 = Failed ->
  targetOp env 2 jd3 = Generated content3 cover3 ->
  let w' := processBatchCoverLetters env jobId w in
  let results := [successEntry jd1 cover1; failureEntry jd2; successEntry jd3 cover3] in
  (exists job',
      getJobStatus w' jobId = Some job' /\
      job_status job' = completed /\
      job_artifacts job' = Some (ResultsArtifact results)) /\
  countSuccess false results = 1%nat /\
  countSuccess true results = 2%nat /\
  last (published w') = Some ("batch:" +:+ jobId, Completed results) /\
  statusLog w' = (statusLog w ++ [(jobId, running); (jobId, completed)])%list.
Proof.
  intros Hjob Hids Hres H1 H2 H3 O1 O2 O3 w' results.
  destruct (process_completes env jobId w job r Hjob Hres) as (Hg & Hl & Hp).
  fold w' in Hg, Hl, Hp. rewrite Hids in Hg, Hp.
  cbn [List.map] in Hg, Hp. rewrite H1, H2, H3 in Hg, Hp.
  cbn [resolvedFrom entriesOf List.map fst snd] in Hg, Hp.
  unfold entryFor in Hg, Hp. rewrite O1, O2, O3 in Hg, Hp. fold results in Hg, Hp.
  split.
  { eexists. split; [exact Hg|]. split; reflexivity. }
  split; [reflexivity|]. split; [reflexivity|].
  split; [|exact Hl].
  rewrite Hp, app_assoc. apply last_snoc.
Qed.

(** C3 at a concrete batch: the job "job-1" over the targets jd-a, jd-b
    and jd-c, where the operation fails at index 1. *)
Lemma C3_witness :
  let w' := processBatchCoverLetters secondFails "job-1" (queued ["jd-a"; "jd-b"; "jd-c"]) in
  let results := [successEntry jdBackend "cover-jd-a"; failureEntry jdData;
                  successEntry jdPlatform "cover-jd-c"] in
  (exists job',
      getJobStatus w' "job-1" = Some job' /\
      job_status job' = completed /\
      job_artifacts job' = Some (ResultsArtifact results)) /\
  countSuccess false results = 1%nat /\
  countSuccess true results = 2%nat /\
  last (published w') = Some ("batch:" +:+ "job-1", Completed results) /\
  statusLog w'
  = (statusLog (queued ["jd-a"; "jd-b"; "jd-c"])
     ++ [("job-1", running); ("job-1", completed)])%list.
Proof.
  apply (C3_failing_target_is_recorded
           secondFails "job-1" (queued ["jd-a"; "jd-b"; "jd-c"])
           (queuedJob ["jd-a"; "jd-b"; "jd-c"]) annRow
           "jd-a" "jd-b" "jd-c" jdBackend jdData jdPlatform
           "Dear team at Acme" "cover-jd-a" "Dear team at Initech" "cover-jd-c");
    vm_compute; reflexivity.
Defined.

(** C10: with the resume found, the job ends in [completed]; its results
    hold one entry for every target whose lookup gave a job description,
    in order, and none for a target whose lookup gave [undefined]; the
    events published are one [generating] event per resolved target and
    the final one. So the results are never more than the targets asked
    for, and fewer as soon as one lookup gave [undefined]. *)
Theorem C10_unresolved_target_is_skipped
        (env : Env) (jobId : string) (w : World) (job : Job) (r : Resume) :
  getJob (db w) jobId = Some job ->
  getResume (db w) (resumeId (job_payload job)) = Some r ->
  let p := job_payload job in
  let jds := List.map (getJobDescription (db w)) (jdIds p) in
  let resolved := resolvedFrom 0 jds in
  let results := entriesOf env resolved in
  let channel := "batch:" +:+ jobId in
  let w' := processBatchCoverLetters env jobId w in
  (exists job',
      getJobStatus w' jobId = Some job' /\
      job_status job' = completed /\
      job_artifacts job' = Some (ResultsArtifact results)) /\
  List.map res_jdId results = List.map (fun e => jd_id (snd e)) resolved /\
  published w'
  = (published w ++ progressEventsOf channel (length jds) resolved
     ++ [(channel, Completed results)])%list /\
  (length results <= length (jdIds p))%nat /\
  (In None jds -> (length results < length (jdIds p))%nat).
Proof.
  intros Hjob Hres p jds resolved results channel w'.
  destruct (process_completes env jobId w job r Hjob Hres) as (Hg & Hl & Hp).
  fold p jds resolved results channel w' in Hg, Hp.
  split.
  { eexists. split; [exact Hg|]. split; reflexivity. }
  split.
  { unfold results, entriesOf. rewrite List.map_map. apply List.map_ext.
    intros [i jd]. unfold entryFor. cbn [fst snd].
    destruct (targetOp env i jd); reflexivity. }
  split; [exact Hp|].
  destruct (resolvedFrom_length jds 0) as [Hle Hlt].
  unfold results, entriesOf. rewrite length_map. fold resolved in Hle, Hlt.
  unfold jds in Hle, Hlt at 2. rewrite length_map in Hle, Hlt.
  split; [exact Hle | exact Hlt].
Qed.

(** C10 at a concrete batch: the target jd-x is not in the store; the job
    completes with two entries for the three targets asked for, and no
    event names the missing target. *)
Lemma C10_witness :
  let w' := processBatchCoverLetters secondFails "job-1" (queued ["jd-a"; "jd-x"; "jd-c"]) in
  let results := [successEntry jdBackend "cover-jd-a"; successEntry jdPlatform "cover-jd-c"] in
  (exists job',
      getJobStatus w' "job-1" = Some job' /\
      job_status job' = completed /\
      job_artifacts job' = Some (ResultsArtifact results)) /\
  published w'
  = [("batch:job-1", Generating 0 "Backend Engineer");
     ("batch:job-1", Generating 67 "Platform Engineer");
     ("batch:job-1", Completed results)] /\
  (length results < length ["jd-a"; "jd-x"; "jd-c"])%nat.
Proof.
  pose proof (C10_unresolved_target_is_skipped
                secondFails "job-1" (queued ["jd-a"; "jd-x"; "jd-c"])
                (queuedJob ["jd-a"; "jd-x"; "jd-c"]) annRow eq_refl eq_refl) as H.
  cbv zeta in H. destruct H as (Hjob & _ & Hpub & _ & Hlt).
  split; [exact Hjob|]. split; [exact Hpub|].
  apply Hlt. right. left. reflexivity.
Defined.

(** *** The statuses of a job, task by task *)

Lemma view_setJobStatus_other (id j : string) (status : JobStatus)
      (artifacts : option Artifacts) (w : World) :
  id <> j -> view (setJobStatus j status artifacts w) id = view w id.
Proof.
  intros Hne. unfold view, statusesOf, setJobStatus, updateJobStatus, getJob.
  cbn [db statusLog].
  destruct (jobs (db w) !! j) as [job|]; [|reflexivity].
  cbn [withJobs jobs]. rewrite lookup_insert_ne by congruence.
  rewrite List.filter_app, List.map_app. cbn [List.filter fst].
  destruct (String.eqb j id) eqn:E; [apply String.eqb_eq in E; congruence|].
  cbn [List.map]. rewrite app_nil_r. reflexivity.
Qed.

Lemma view_setJobStatus_same (j : string) (status : JobStatus)
      (artifacts : option Artifacts) (w : World) (job : Job) :
  getJob (db w) j = Some job ->
  view (setJobStatus j status artifacts w) j = (Some status, (statusesOf j w ++ [status])%list).
Proof.
  intros Hjob. unfold view.
  destruct (setJobStatus_found j status artifacts w job Hjob) as (Hg & Hl & _).
  rewrite Hg. cbn [fmap option_fmap option_map job_status]. f_equal.
  apply (statusesOf_log j w _ [status]). exact Hl.
Qed.

Lemma view_same_tables (w w' : World) (id : string) :
  jobs (db w') = jobs (db w) -> statusLog w' = statusLog w -> view w' id = view w id.
Proof.
  intros Hj Hl. unfold view, statusesOf, getJob. rewrite Hj, Hl. reflexivity.
Qed.

(** The loop stores nothing for another job; when it gives way it has
    stored nothing, and when it ends it has stored [completed]. *)
Lemma loopFrom_view (env : Env) (jobId : string) (p : BatchPayload) (n : nat)
      (jds : list (option JobDescription)) :
  forall (i : nat) (results : list BatchResult) (w : World),
    let out := loopFrom env jobId p n i jds results w in
    (forall id, id <> jobId -> view (fst out) id = view w id) /\
    match snd out with
    | Some sp => view (fst out) jobId = view w jobId
    | None =>
        forall job, getJob (db w) jobId = Some job ->
                    view (fst out) jobId
                    = (Some completed, (statusesOf jobId w ++ [completed])%list)
    end.
Proof.
  induction jds as [|[jd|] rest IH]; intros i results w; cbn zeta.
  - cbn [loopFrom fst snd]. split.
    + intros id Hne. rewrite view_setJobStatus_other by exact Hne. reflexivity.
    + intros job Hjob.
      rewrite (view_setJobStatus_same jobId completed _ _ job) by exact Hjob.
      reflexivity.
  - cbn [loopFrom fst snd]. split; [intros id Hne|]; reflexivity.
  - cbn [loopFrom]. apply IH.
Qed.

(** The first stretch of the processor of a job that was just created. *)
Lemma startProcessor_view (env : Env) (jobId : string) (w : World) (job : Job) :
  getJob (db w) jobId = Some job ->
  let out := startProcessor env jobId w in
  (forall id, id <> jobId -> view (fst out) id = view w id) /\
  match snd out with
  | Some sp => view (fst out) jobId = (Some running, (statusesOf jobId w ++ [running])%list)
  | None =>
      exists final,
        (final = completed \/ final = error) /\
        view (fst out) jobId = (Some final, (statusesOf jobId w ++ [running; final])%list)
  end.
Proof.
  intros Hjob. cbn zeta. unfold startProcessor. rewrite Hjob.
  destruct (setJobStatus_found jobId running None w job Hjob) as (Hg1 & _).
  pose proof (view_setJobStatus_same jobId running None w job Hjob) as Hv1.
  set (w1 := setJobStatus jobId running None w) in *.
  assert (Ho : forall id, id <> jobId -> view w1 id = view w id).
  { intros id Hne. apply view_setJobStatus_other. exact Hne. }
  destruct (getResume (db w1) (resumeId (job_payload job))) as [r|].
  - match goal with |- context [loopFrom env jobId ?p ?n 0 ?jds [] w1] =>
      pose proof (loopFrom_view env jobId p n jds 0 [] w1) as Hloop;
      destruct (loopFrom env jobId p n 0 jds [] w1) as [w2 next]
    end.
    cbn [fst snd] in *. destruct Hloop as [Hother Hself]. split.
    + intros id Hne. rewrite Hother by exact Hne. apply Ho. exact Hne.
    + destruct next as [sp|].
      * rewrite Hself. exact Hv1.
      * exists completed. split; [left; reflexivity|].
        rewrite (Hself _ Hg1). f_equal.
        injection Hv1 as _ ->. rewrite <- app_assoc. reflexivity.
  - cbn [fst snd]. split.
    + intros id Hne. rewrite view_setJobStatus_other by exact Hne. apply Ho. exact Hne.
    + exists error. split; [right; reflexivity|].
      rewrite (view_setJobStatus_same jobId error _ w1 _ Hg1). f_equal.
      injection Hv1 as _ ->. rewrite <- app_assoc. reflexivity.
Qed.

(** The handler on a request with a non-empty list of targets. *)
Lemma postCoversBatch_view (newId : string) (req : BatchRequest) (w : World)
      (firstId : string) (otherIds : list string) :
  req_jdIds req = Some (firstId :: otherIds) ->
  let out := postCoversBatch newId req w in
  fst out = JobAccepted newId /\
  (exists job, getJob (db (snd out)) newId = Some job /\ job_status job = pending) /\
  view (snd out) newId = (Some pending, (statusesOf newId w ++ [pending])%list) /\
  (forall id, id <> newId -> view (snd out) id = view w id).
Proof.
  intros Hids. cbn zeta. unfold postCoversBatch. rewrite Hids.
  cbn [createJob fst snd job_id].
  split; [reflexivity|].
  split.
  { unfold getJob. cbn [db withJobs jobs]. rewrite lookup_insert_eq.
    eexists. split; reflexivity. }
  split.
  { unfold view, getJob, statusesOf. cbn [db withJobs jobs statusLog].
    rewrite lookup_insert_eq. cbn [fmap option_fmap option_map job_status]. f_equal.
    rewrite List.filter_app, List.map_app. cbn [List.filter fst].
    rewrite String.eqb_refl. reflexivity. }
  intros id Hne. unfold view, getJob, statusesOf. cbn [db withJobs jobs statusLog].
  rewrite lookup_insert_ne by congruence.
  rewrite List.filter_app, List.map_app. cbn [List.filter fst].
  destruct (String.eqb newId id) eqn:E; [apply String.eqb_eq in E; congruence|].
  cbn [List.map]. rewrite app_nil_r. reflexivity.
Qed.

Lemma lifecycle_view (s : Server) (id : string) :
  lifecycle s id <->
  match view (world s) id with
  | (None, log) => log = [] /\ waiting s !! id = None
  | (Some pending, _) => False
  | (Some running, log) => log = [pending; running] /\ is_Some (waiting s !! id)
  | (Some final, log) => log = [pending; running; final] /\ waiting s !! id = None
  end.
Proof. reflexivity. Qed.

Lemma untouched_same (s : Server) (id : string) : Change s s id.
Proof. apply Untouched; reflexivity. Qed.

(** The batch endpoint on an id that is not in use and a non-empty list
    of targets. *)
Lemma post_change (env : Env) (newId : string) (req : BatchRequest) (s : Server)
      (firstId : string) (otherIds : list string) :
  lifecycle s newId ->
  getJob (db (world s)) newId = None ->
  req_jdIds req = Some (firstId :: otherIds) ->
  let s' := handle env (PostCoversBatch newId req) s in
  view (world s) newId = (None, []) /\
  (forall id, id <> newId ->
              view (world s') id = view (world s) id /\
              waiting s' !! id = waiting s !! id) /\
  ((view (world s') newId = (Some running, [pending; running]) /\
    is_Some (waiting s' !! newId))
   \/ (exists final,
         (final = completed \/ final = error) /\
         view (world s') newId = (Some final, [pending; running; final]) /\
         waiting s' !! newId = None)).
Proof.
  intros Hfresh Hold Hids. cbn zeta. cbn [handle]. rewrite Hold.
  pose proof (postCoversBatch_view newId req (world s) firstId otherIds Hids) as Hpost.
  cbn zeta in Hpost.
  destruct (postCoversBatch newId req (world s)) as [response w1].
  cbn [fst snd] in Hpost. destruct Hpost as (-> & [job [Hjob _]] & Hself & Hother).
  pose proof (startProcessor_view env newId w1 job Hjob) as Hstart. cbn zeta in Hstart.
  destruct (startProcessor env newId w1) as [w2 next]. cbn [fst snd] in Hstart.
  destruct Hstart as [Hother2 Hself2].
  rewrite lifecycle_view in Hfresh.
  assert (Hnone : view (world s) newId = (None, []) /\ waiting s !! newId = None).
  { unfold view in *. rewrite Hold in *. cbn [fmap option_fmap option_map] in *.
    destruct Hfresh as [-> Hw]. split; [reflexivity | exact Hw]. }
  destruct Hnone as [Hv0 Hw0].
  assert (Hlog1 : statusesOf newId w1 = [pending]).
  { unfold view in Hself, Hv0. injection Hself as _ ->. injection Hv0 as _ ->.
    reflexivity. }
  split; [exact Hv0|].
  split.
  { intros id Hne. destruct next as [sp|]; cbn [withWorld world waiting].
    - rewrite lookup_insert_ne by congruence.
      rewrite Hother2 by exact Hne. split; [apply Hother; exact Hne | reflexivity].
    - rewrite Hother2 by exact Hne. split; [apply Hother; exact Hne | reflexivity]. }
  destruct next as [sp|]; cbn [withWorld world waiting].
  - left. rewrite Hself2, Hlog1. split; [reflexivity|].
    rewrite lookup_insert_eq. eexists; reflexivity.
  - right. destruct Hself2 as [final [Hfinal Hv2]]. exists final.
    split; [exact Hfinal|]. rewrite Hv2, Hlog1. split; [reflexivity | exact Hw0].
Qed.

Lemma handle_change (env : Env) (task : Task) (s : Server) :
  (forall id, lifecycle s id) ->
  forall id, Change s (handle env task s) id.
Proof.
  intros Hinv id. destruct task as [newId req|jobId outcome|jobId|channel ws|ws].
  - (* the batch endpoint *)
    destruct (getJob (db (world s)) newId) as [old|] eqn:Hold;
      [cbn [handle]; rewrite Hold; apply untouched_same|].
    destruct (req_jdIds req) as [[|firstId otherIds]|] eqn:Hids;
      try (cbn [handle]; rewrite Hold; unfold postCoversBatch; rewrite Hids;
           apply Untouched; reflexivity).
    destruct (post_change env newId req s firstId otherIds (Hinv newId) Hold Hids)
      as (Hv0 & Hother & Hself).
    destruct (decide (id = newId)) as [->|Hne].
    + destruct Hself as [[Hv Hw]|[final (Hfinal & Hv & Hw)]].
      * apply Started; assumption.
      * apply (StartedAndEnded _ _ _ final); assumption.
    + destruct (Hother id Hne) as [Hv Hw]. apply Untouched; [exact Hv|].
      rewrite Hw. reflexivity.
  - (* the generation settled *)
    cbn [handle]. destruct (waiting s !! jobId) as [sp|] eqn:Hsp; [|apply untouched_same].
    destruct (sp_wait sp) as [jd|]; [|apply untouched_same].
    unfold afterGeneration.
    destruct outcome as [content coverId|]; cbn [createCoverLetter];
      apply Untouched; cbn [world waiting]; try reflexivity;
      (destruct (decide (id = jobId)) as [->|Hne];
       [rewrite lookup_insert_eq, Hsp; split; discriminate
       |rewrite lookup_insert_ne by congruence; reflexivity]).
  - (* the delay elapsed *)
    cbn [handle]. destruct (waiting s !! jobId) as [sp|] eqn:Hsp; [|apply untouched_same].
    destruct (sp_wait sp); [apply untouched_same|].
    pose proof (loopFrom_view env jobId (sp_payload sp) (sp_total sp) (sp_rest sp)
                              (S (sp_i sp)) (sp_results sp) (world s)) as Hloop.
    cbn zeta in Hloop.
    destruct (loopFrom env jobId (sp_payload sp) (sp_total sp) (S (sp_i sp))
                       (sp_rest sp) (sp_results sp) (world s)) as [w2 next].
    cbn [fst snd] in Hloop. destruct Hloop as [Hother Hself].
    destruct (decide (id = jobId)) as [->|Hne].
    + pose proof (Hinv jobId) as Hrun. rewrite lifecycle_view in Hrun.
      destruct (view (world s) jobId) as [[status|] log] eqn:Hv.
      * destruct status; try contradiction;
          try (destruct Hrun as [_ Hw]; rewrite Hsp in Hw; discriminate).
        destruct Hrun as [-> _].
        destruct next as [sp'|].
        -- apply Untouched; cbn [world waiting]; [rewrite Hv; exact Hself|].
           rewrite lookup_insert_eq, Hsp. split; discriminate.
        -- assert (Hjob : exists job, getJob (db (world s)) jobId = Some job).
           { unfold view in Hv. destruct (getJob (db (world s)) jobId) as [job|];
               [eexists; reflexivity | discriminate]. }
           destruct Hjob as [job Hjob].
           apply Ended; cbn [world waiting].
           ++ exact Hv.
           ++ rewrite (Hself job Hjob). f_equal.
              unfold view in Hv. injection Hv as _ ->. reflexivity.
           ++ apply lookup_delete_eq.
      * destruct Hrun as [_ Hw]. rewrite Hsp in Hw. discriminate.
    + destruct next as [sp'|]; apply Untouched; cbn [world waiting];
        try (apply Hother; exact Hne).
      * rewrite lookup_insert_ne by congruence. reflexivity.
      * rewrite lookup_delete_ne by congruence. reflexivity.
  - apply Untouched; reflexivity.
  - apply Untouched; reflexivity.
Qed.

Lemma change_lifecycle (s s' : Server) (id : string) :
  lifecycle s id -> Change s s' id -> lifecycle s' id.
Proof.
  intros Hinv Hc. rewrite lifecycle_view in *.
  destruct Hc as [Hv Hw|Hv Hv' Hw|final Hv Hfinal Hv' Hw|Hv Hv' Hw].
  - rewrite Hv. destruct (view (world s) id) as [[[]|] log];
      try exact Hinv; destruct Hinv as [Hl Hws]; split; try exact Hl.
    + destruct (waiting s' !! id) eqn:E; [eexists; reflexivity|].
      pose proof (proj1 Hw eq_refl) as E'. rewrite E' in Hws.
      destruct Hws as [x Hx]. discriminate.
    + apply Hw. exact Hws.
    + apply Hw. exact Hws.
    + apply Hw. exact Hws.
  - rewrite Hv'. split; [reflexivity | exact Hw].
  - rewrite Hv'. destruct Hfinal as [-> | ->]; split; (reflexivity || exact Hw).
  - rewrite Hv'. split; [reflexivity | exact Hw].
Qed.

Lemma run_lifecycle (env : Env) (tasks : list Task) :
  forall s, (forall id, lifecycle s id) -> forall id, lifecycle (run env tasks s) id.
Proof.
  induction tasks as [|task rest IH]; intros s Hinv; [exact Hinv|].
  cbn [run fold_left]. apply IH. intros id.
  apply (change_lifecycle s); [apply Hinv | apply handle_change; exact Hinv].
Qed.

(** C9 (amended): the batch endpoint creates the job with the status
    [pending] and answers with its id, and its processor stores [running]
    before the server runs another task: a status lookup never reports
    [pending]. In every state that the server reaches, task after task,
    each job is [running] with the statuses [pending, running] stored
    and its processor suspended, or it is [completed] or [error] with
    that status stored after [pending] and [running]; and once a job is
    [completed] or [error], no task stores another status for it. *)
Theorem C9_job_lifecycle (env : Env) (tasks : list Task) (s0 : Server) :
  (forall id, lifecycle s0 id) ->
  let s := run env tasks s0 in
  (forall id, lifecycle s id) /\
  (forall id,
      reportedStatus s id = None \/ reportedStatus s id = Some running \/
      reportedStatus s id = Some completed \/ reportedStatus s id = Some error) /\
  (forall newId req firstId otherIds,
      getJob (db (world s)) newId = None ->
      req_jdIds req = Some (firstId :: otherIds) ->
      let posted := postCoversBatch newId req (world s) in
      let s' := handle env (PostCoversBatch newId req) s in
      fst posted = JobAccepted newId /\
      statusesOf newId (snd posted) = [pending] /\
      (reportedStatus s' newId = Some running \/
       reportedStatus s' newId = Some completed \/
       reportedStatus s' newId = Some error)) /\
  (forall id task,
      reportedStatus s id = Some completed \/ reportedStatus s id = Some error ->
      reportedStatus (handle env task s) id = reportedStatus s id /\
      statusesOf id (world (handle env task s)) = statusesOf id (world s)).
Proof.
  intros Hinv0 s.
  assert (Hinv : forall id, lifecycle s id) by (apply run_lifecycle; exact Hinv0).
  assert (Hreported : forall s1, (forall id, lifecycle s1 id) ->
            forall id,
              reportedStatus s1 id = None \/ reportedStatus s1 id = Some running \/
              reportedStatus s1 id = Some completed \/ reportedStatus s1 id = Some error).
  { intros s1 H1 id. specialize (H1 id). unfold lifecycle in H1.
    destruct (reportedStatus s1 id) as [[]|]; try contradiction; auto. }
  split; [exact Hinv|].
  split; [apply Hreported; exact Hinv|].
  split.
  { intros newId req firstId otherIds Hfresh Hids posted s'.
    destruct (postCoversBatch_view newId req (world s) firstId otherIds Hids)
      as (Hresp & _ & Hv & _).
    fold posted in Hresp, Hv.
    split; [exact Hresp|].
    pose proof (Hinv newId) as Hnew. rewrite lifecycle_view in Hnew.
    unfold view in Hnew, Hv. rewrite Hfresh in Hnew.
    cbn [fmap option_fmap option_map] in Hnew. destruct Hnew as [Hlog _].
    split.
    { injection Hv as _ ->. rewrite Hlog. reflexivity. }
    destruct (post_change env newId req s firstId otherIds (Hinv newId) Hfresh Hids)
      as (_ & _ & Hself).
    fold s' in Hself. unfold reportedStatus, getJobStatus.
    destruct Hself as [[Hv' _]|[final (Hfinal & Hv' & _)]];
      unfold view in Hv'; injection Hv' as Hst _.
    - left. exact Hst.
    - destruct Hfinal as [-> | ->]; [right; left|right; right]; exact Hst. }
  intros id task Hterminal.
  pose proof (handle_change env task s Hinv id) as Hc.
  pose proof (Hinv id) as Hid. rewrite lifecycle_view in Hid.
  assert (Hst : fst (view (world s) id) = reportedStatus s id) by reflexivity.
  destruct Hc as [Hu _|Hv _ _|final Hv _ _ _|Hv _ _].
  - unfold reportedStatus, getJobStatus. unfold view in Hu.
    injection Hu as Hs Hl. split; assumption.
  - rewrite Hv in Hst. cbn [fst] in Hst. rewrite <- Hst in Hterminal.
    destruct Hterminal; discriminate.
  - rewrite Hv in Hst. cbn [fst] in Hst. rewrite <- Hst in Hterminal.
    destruct Hterminal; discriminate.
  - rewrite Hv in Hst. cbn [fst] in Hst. rewrite <- Hst in Hterminal.
    destruct Hterminal; discriminate.
Qed.

Lemma idle_lifecycle (w : World) :
  jobs (db w) = ∅ -> statusLog w = [] -> forall id, lifecycle (idle w) id.
Proof.
  intros Hj Hl id. unfold lifecycle, reportedStatus, getJobStatus, getJob, statusesOf.
  cbn [idle world waiting]. rewrite Hj, Hl, !lookup_empty. split; reflexivity.
Qed.

(** C9 at a concrete server: the request for three targets on a server
    without jobs. *)
Lemma C9_witness :
  let s := run secondFails [PostCoversBatch "job-1" (requestFor ["jd-a"; "jd-b"; "jd-c"])]
               (idle sampleWorld) in
  lifecycle s "job-1" /\
  (reportedStatus s "job-1" = None \/ reportedStatus s "job-1" = Some running \/
   reportedStatus s "job-1" = Some completed \/ reportedStatus s "job-1" = Some error).
Proof.
  pose proof (C9_job_lifecycle
                secondFails [PostCoversBatch "job-1" (requestFor ["jd-a"; "jd-b"; "jd-c"])]
                (idle sampleWorld) (idle_lifecycle sampleWorld eq_refl eq_refl)) as H.
  cbv zeta in H. destruct H as (Hlife & Hreported & _).
  split; [apply Hlife | apply Hreported].
Defined.

(** C9 as stated fails: no lookup finds the job [pending]. The handler
    calls the processor before it answers, and the processor stores
    [running] before the server takes the next request: the first lookup
    after the request reports [running], with [pending] and [running]
    already stored; when the processor has run its tasks, the lookup
    reports [completed]. *)
Lemma C9_first_lookup_reports_running :
  let s0 := idle sampleWorld in
  let s1 := handle secondFails
                   (PostCoversBatch "job-1" (requestFor ["jd-a"; "jd-b"; "jd-c"])) s0 in
  let s2 := run secondFails batchOfThree s0 in
  reportedStatus s0 "job-1" = None /\
  reportedStatus s1 "job-1" = Some running /\
  statusesOf "job-1" (world s1) = [pending; running] /\
  reportedStatus s2 "job-1" = Some completed /\
  statusesOf "job-1" (world s2) = [pending; running; completed].
Proof. vm_compute. repeat split; reflexivity. Qed.

(** The store itself refuses no update: the order of the statuses is
    what the processor does, not a rule of [updateJobStatus]. *)
Example store_accepts_any_status :
  let w := world (run secondFails batchOfThree (idle sampleWorld)) in
  job_status <$> getJob (db w) "job-1" = Some completed /\
  job_status <$> getJob (updateJobStatus (db w) "job-1" pending None) "job-1"
  = Some pending.
Proof. vm_compute. split; reflexivity. Qed.

(** The percentage in doubles and in exact arithmetic: the two agree at
    the thirds of a batch of three, and differ at index 23 of 40, where
    the exact value is 57.5 and the double is below it. *)
Example progress_rounding :
  List.map (fun i => progressOf i 3) [0; 1; 2]%nat = [0; 33; 67] /\
  List.map (fun i => PrimFloat.eqb (progressInDoubles i 3) (Double.ofZ (progressOf i 3)))
           [0; 1; 2]%nat = [true; true; true] /\
  progressOf 23 40 = 58 /\
  PrimFloat.eqb (progressInDoubles 23 40) (Double.ofZ 57) = true.
Proof. vm_compute. repeat split; reflexivity. Qed.

(** *** The processor as the sequence of its tasks *)

Lemma tasksFor_idle (env : Env) (jobId : string) (jds : list (option JobDescription)) :
  forall (i : nat) (s : Server),
    waiting s !! jobId = None -> run env (tasksFor env jobId i jds) s = s.
Proof.
  induction jds as [|[jd|] rest IH]; intros i s Hw; cbn [tasksFor].
  - reflexivity.
  - assert (H1 : handle env (GenerationSettles jobId (targetOp env i jd)) s = s)
      by (cbn [handle]; rewrite Hw; reflexivity).
    assert (H2 : handle env (DelayElapses jobId) s = s)
      by (cbn [handle]; rewrite Hw; reflexivity).
    unfold run. cbn [fold_left]. rewrite H1, H2. apply IH. exact Hw.
  - apply IH. exact Hw.
Qed.

(** From a state in which the loop has just given way or ended, the
    tasks of the processor lead to the state in which [targetLoop], run
    in one piece, and the two statements after it end. *)
Lemma tasksFor_targetLoop (env : Env) (jobId : string) (p : BatchPayload) (n : nat)
      (jds : list (option JobDescription)) :
  forall (i : nat) (results : list BatchResult) (w : World) (s : Server),
    world s = fst (loopFrom env jobId p n i jds results w) ->
    (forall sp, snd (loopFrom env jobId p n i jds results w) = Some sp ->
                waiting s !! jobId = Some sp) ->
    let channel := "batch:" +:+ jobId in
    let out := targetLoop env channel p n i jds w results in
    world (run env (tasksFor env jobId i jds) s)
    = setJobStatus jobId completed (Some (ResultsArtifact (snd out)))
                   (publish env channel (Completed (snd out)) (fst out)).
Proof.
  induction jds as [|[jd|] rest IH]; intros i results w s Hworld Hwait; cbn zeta.
  - cbn [tasksFor targetLoop loopFrom fst snd] in *. exact Hworld.
  - cbn [tasksFor targetLoop loopFrom fst snd] in *.
    specialize (Hwait _ eq_refl).
    unfold run. cbn [fold_left handle]. rewrite Hwait. cbn [sp_wait].
    unfold afterGeneration. cbn [sp_payload sp_total sp_i sp_rest sp_results].
    rewrite Hworld.
    destruct (targetOp env i jd) as [content coverId|].
    + cbn [createCoverLetter handle waiting world].
      rewrite lookup_insert_eq.
      cbn [sp_wait sp_payload sp_total sp_i sp_rest sp_results].
      match goal with |- context [loopFrom env jobId p n (S i) rest ?r1 ?w1] =>
        specialize (IH (S i) r1 w1);
        destruct (loopFrom env jobId p n (S i) rest r1 w1) as [w2 next] eqn:Hloop
      end.
      cbn [fst snd] in IH. cbn zeta in IH.
      destruct next as [sp|]; apply IH; cbn [world waiting]; try reflexivity.
      * intros sp' E. injection E as <-. apply lookup_insert_eq.
      * intros sp' E. discriminate E.
    + cbn [handle waiting world].
      rewrite lookup_insert_eq.
      cbn [sp_wait sp_payload sp_total sp_i sp_rest sp_results].
      match goal with |- context [loopFrom env jobId p n (S i) rest ?r1 ?w1] =>
        specialize (IH (S i) r1 w1);
        destruct (loopFrom env jobId p n (S i) rest r1 w1) as [w2 next] eqn:Hloop
      end.
      cbn [fst snd] in IH. cbn zeta in IH.
      destruct next as [sp|]; apply IH; cbn [world waiting]; try reflexivity.
      * intros sp' E. injection E as <-. apply lookup_insert_eq.
      * intros sp' E. discriminate E.
  - cbn [tasksFor targetLoop loopFrom]. apply IH; assumption.
Qed.

(** When no other task runs in between, the request and the tasks of its
    processor leave the state that [processBatchCoverLetters], run in one
    piece on the state in which the handler calls it, returns. *)
Lemma processor_in_tasks (env : Env) (newId : string) (req : BatchRequest) (s : Server)
      (firstId : string) (otherIds : list string) :
  getJob (db (world s)) newId = None ->
  waiting s !! newId = None ->
  req_jdIds req = Some (firstId :: otherIds) ->
  let w1 := snd (postCoversBatch newId req (world s)) in
  let jds := List.map (getJobDescription (db w1)) (firstId :: otherIds) in
  world (run env (PostCoversBatch newId req :: tasksFor env newId 0 jds) s)
  = processBatchCoverLetters env newId w1.
Proof.
  intros Hfresh Hwait Hids w1 jds.
  unfold run. cbn [fold_left handle]. rewrite Hfresh.
  assert (Hpost : postCoversBatch newId req (world s) = (JobAccepted newId, w1)).
  { unfold w1, postCoversBatch. rewrite Hids. reflexivity. }
  rewrite Hpost.
  assert (Hjob : getJob (db w1) newId
                 = Some {| job_id := newId; job_type := "batch_cover_letters";
                           job_payload :=
                             {| resumeId := req_resumeId req; jdIds := firstId :: otherIds;
                                tone := orDefault (req_tone req) "professional";
                                wordCount := orDefault (req_wordCount req) 250;
                                userId := headerOr (req_userIdHeader req) "anonymous" |};
                           job_status := pending; job_artifacts := None |}).
  { unfold w1, postCoversBatch. rewrite Hids. cbn [createJob snd]. unfold getJob.
    cbn [db withJobs jobs]. apply lookup_insert_eq. }
  unfold startProcessor, processBatchCoverLetters. rewrite Hjob.
  cbn [job_payload jdIds resumeId].
  set (w2 := setJobStatus newId running None w1).
  assert (Hjds : List.map (getJobDescription (db w2)) (firstId :: otherIds) = jds).
  { unfold jds, w2, getJobDescription, setJobStatus, updateJobStatus. cbn [db].
    destruct (jobs (db w1) !! newId); reflexivity. }
  rewrite Hjds.
  destruct (getResume (db w2) (req_resumeId req)) as [r|].
  - match goal with |- context [loopFrom env newId ?p ?n 0 jds [] w2] =>
      pose proof (tasksFor_targetLoop env newId p n jds 0 [] w2) as Hloop;
      destruct (loopFrom env newId p n 0 jds [] w2) as [w3 next] eqn:E
    end.
    cbn [fst snd] in Hloop. cbn zeta in Hloop.
    destruct (targetLoop env ("batch:" +:+ newId) _ (length jds) 0 jds w2 [])
      as [w4 results] eqn:Et.
    cbn [fst snd] in Hloop.
    destruct next as [sp|]; apply Hloop; cbn [withWorld world waiting]; try reflexivity.
    + intros sp' E'. injection E' as <-. apply lookup_insert_eq.
    + intros sp' E'. discriminate E'.
  - match goal with |- context [fold_left ?f ?l ?s0] =>
      change (fold_left f l s0) with (run env l s0) end.
    rewrite tasksFor_idle by exact Hwait. reflexivity.
Qed.

Import ProgressTerms.

(** *** What the processor leaves alone *)

Lemma setJobStatus_frame (id : string) (status : JobStatus) (artifacts : option Artifacts)
      (w : World) :
  let w' := setJobStatus id status artifacts w in
  resumes (db w') = resumes (db w) /\
  jobDescriptions (db w') = jobDescriptions (db w) /\
  coverLetters (db w') = coverLetters (db w) /\
  wsConnections w' = wsConnections w /\
  published w' = published w /\
  sent w' = sent w /\
  (forall other, other <> id -> getJob (db w') other = getJob (db w) other).
Proof.
  unfold setJobStatus, updateJobStatus, getJob. cbn [db wsConnections published sent].
  destruct (jobs (db w) !! id) as [job|]; cbn [withJobs resumes jobDescriptions
                                                coverLetters jobs];
    repeat split; try reflexivity.
  intros other Hne. rewrite lookup_insert_ne by congruence. reflexivity.
Qed.


Lemma targetLoop_keeps_covers (env : Env) (channel : string) (p : BatchPayload) (n : nat)
      (jds : list (option JobDescription)) :
  forall (i : nat) (w : World) (results : list BatchResult) (id : string),
    is_Some (coverLetters (db w) !! id) ->
    is_Some (coverLetters (db (fst (targetLoop env channel p n i jds w results))) !! id).
Proof.
  induction jds as [|[jd|] rest IH]; intros i w results id H; cbn [targetLoop].
  - exact H.
  - destruct (targetOp env i jd) as [content coverId|].
    + cbn [createCoverLetter]. apply IH. cbn [withDb db coverLetters publish].
      destruct (decide (coverId = id)) as [->|Hne].
      * rewrite lookup_insert_eq. eexists. reflexivity.
      * rewrite lookup_insert_ne by congruence. exact H.
    + apply IH. exact H.
  - apply IH. exact H.
Qed.

(** The processor changes the row of its own job and adds cover letters;
    it leaves the resumes, the job descriptions, the channel map and every
    other job as they were, drops no cover letter, and does nothing at all
    for an id that names no job. *)
Theorem processor_frame (env : Env) (jobId : string) (w : World) :
  let w' := processBatchCoverLetters env jobId w in
  resumes (db w') = resumes (db w) /\
  jobDescriptions (db w') = jobDescriptions (db w) /\
  wsConnections w' = wsConnections w /\
  (forall other, other <> jobId -> getJob (db w') other = getJob (db w) other) /\
  (forall id, is_Some (coverLetters (db w) !! id) -> is_Some (coverLetters (db w') !! id)) /\
  (getJob (db w) jobId = None -> w' = w).
Proof.
  intros w'. unfold w', processBatchCoverLetters.
  destruct (getJob (db w) jobId) as [job|] eqn:Hjob;
    [|repeat split; try reflexivity; auto].
  destruct (setJobStatus_frame jobId running None w) as (R1 & D1 & L1 & W1 & _ & _ & J1).
  set (w1 := setJobStatus jobId running None w) in *.
  destruct (getResume (db w1) (resumeId (job_payload job))) as [r|].
  - set (p := job_payload job).
    set (jds := List.map (getJobDescription (db w1)) (jdIds p)).
    set (channel := "batch:" +:+ jobId).
    pose proof (targetLoop_spec env channel p (length jds) jds 0 w1 []) as Hloop.
    pose proof (targetLoop_keeps_covers env channel p (length jds) jds 0 w1 []) as Hkeep.
    cbn zeta in Hloop.
    destruct (targetLoop env channel p (length jds) 0 jds w1 []) as [w2 results].
    cbn [fst snd] in Hloop, Hkeep. destruct Hloop as (_ & _ & _ & J2 & R2 & D2 & W2).
    set (w3 := publish env channel (Completed results) w2).
    destruct (setJobStatus_frame jobId completed (Some (ResultsArtifact results)) w3)
      as (R4 & D4 & L4 & W4 & _ & _ & J4).
    cbn zeta in *.
    assert (Hdb3 : db w3 = db w2) by reflexivity.
    assert (Hws3 : wsConnections w3 = wsConnections w2) by reflexivity.
    split; [rewrite R4, Hdb3, R2; exact R1|].
    split; [rewrite D4, Hdb3, D2; exact D1|].
    split; [rewrite W4, Hws3, W2; exact W1|].
    split; [|split; [|discriminate]].
    + intros other Hne. rewrite (J4 other Hne). unfold getJob. rewrite Hdb3, J2.
      apply (J1 other Hne).
    + intros id Hid. rewrite L4, Hdb3. apply Hkeep. rewrite L1. exact Hid.
  - destruct (setJobStatus_frame jobId error (Some (ErrorArtifact "Resume not found")) w1)
      as (R4 & D4 & L4 & W4 & _ & _ & J4).
    cbn zeta in *.
    split; [rewrite R4; exact R1|].
    split; [rewrite D4; exact D1|].
    split; [rewrite W4; exact W1|].
    split; [|split; [|discriminate]].
    + intros other Hne. rewrite (J4 other Hne). apply (J1 other Hne).
    + intros id Hid. rewrite L4, L1. exact Hid.
Qed.

(** *** The entries of the results *)




(** *** The progress events *)

Lemma progressOf_range (i n : nat) : (i <= n)%nat -> 0 <= progressOf i n <= 100.
Proof.
  intros H. destruct n as [|n].
  - assert (i = 0%nat) as -> by lia. vm_compute. split; discriminate.
  - unfold progressOf.
    apply (ATSEngineFacts.share_bounds (Z.of_nat i) (Z.of_nat (S n)) 100); lia.
Qed.

Lemma progressOf_mono (i j n : nat) : (i <= j)%nat -> progressOf i n <= progressOf j n.
Proof.
  intros H. unfold progressOf. apply ATSEngineFacts.Math_round_mono.
  apply Qmult_le_compat_r; [|discriminate].
  unfold Qdiv. apply Qmult_le_compat_r.
  - rewrite <- Zle_Qle. lia.
  - destruct n as [|n]; [discriminate|].
    apply Qinv_le_0_compat. change 0%Q with (inject_Z 0). rewrite <- Zle_Qle. lia.
Qed.

Lemma resolvedFrom_indices (jds : list (option JobDescription)) :
  forall (i k : nat) (jd : JobDescription),
    In (k, jd) (resolvedFrom i jds) -> (i <= k < i + length jds)%nat.
Proof.
  induction jds as [|[jd0|] rest IH]; intros i k jd H; cbn [resolvedFrom length] in *.
  - destruct H.
  - destruct H as [H|H].
    + injection H as <- <-. lia.
    + apply IH in H. lia.
  - apply IH in H. lia.
Qed.

Lemma progress_events_sorted (channel : string) (n : nat)
      (jds : list (option JobDescription)) :
  forall (i : nat) (tail : list Z),
    (i + length jds <= n)%nat ->
    nonDecreasing (100 :: tail) ->
    nonDecreasing
      ((List.map (fun e => progressValue (snd e))
                 (progressEventsOf channel n (resolvedFrom i jds)) ++ 100 :: tail)%list)
    /\ (forall p rest,
           (List.map (fun e => progressValue (snd e))
                     (progressEventsOf channel n (resolvedFrom i jds)) ++ 100 :: tail)%list
           = p :: rest -> progressOf i n <= p).
Proof.
  induction jds as [|[jd|] rest IH]; intros i tail Hn Ht; cbn [resolvedFrom length] in *.
  - cbn [progressEventsOf List.map app]. split; [exact Ht|].
    intros p rest' E. injection E as <- _.
    destruct (progressOf_range i n); lia.
  - unfold progressEventsOf in *. cbn [List.map fst snd progressValue app].
    destruct (IH (S i) tail ltac:(lia) Ht) as [Hs Hfirst].
    split.
    + destruct (List.map _ _ ++ 100 :: tail)%list as [|q rest'] eqn:E.
      * exact I.
      * split; [|exact Hs].
        specialize (Hfirst q rest' eq_refl).
        pose proof (progressOf_mono i (S i) n ltac:(lia)). lia.
    + intros p rest' E. injection E as <- _. lia.
  - destruct (IH (S i) tail ltac:(lia) Ht) as [Hs Hfirst].
    split; [exact Hs|].
    intros p rest' E. specialize (Hfirst p rest' E).
    pose proof (progressOf_mono i (S i) n ltac:(lia)). lia.
Qed.

(** Whatever the job, everything the processor publishes goes to the
    channel [batch:<jobId>], every progress value is a percentage between
    0 and 100, and the values never decrease from one event to the next. *)
Theorem progress_is_a_percentage (env : Env) (jobId : string) (w : World) :
  let w' := processBatchCoverLetters env jobId w in
  exists added,
    published w' = (published w ++ added)%list /\
    (forall e, In e added ->
               fst e = "batch:" +:+ jobId /\ 0 <= progressValue (snd e) <= 100) /\
    nonDecreasing (List.map (fun e => progressValue (snd e)) added).
Proof.
  intros w'. unfold w', processBatchCoverLetters.
  destruct (getJob (db w) jobId) as [job|] eqn:Hjob.
  2:{ exists []. rewrite app_nil_r. split; [reflexivity|]. split; [intros e []|exact I]. }
  destruct (setJobStatus_frame jobId running None w) as (_ & _ & _ & _ & P1 & _).
  set (w1 := setJobStatus jobId running None w) in *.
  destruct (getResume (db w1) (resumeId (job_payload job))) as [r|].
  - set (p := job_payload job).
    set (jds := List.map (getJobDescription (db w1)) (jdIds p)).
    set (channel := "batch:" +:+ jobId).
    pose proof (targetLoop_spec env channel p (length jds) jds 0 w1 []) as Hloop.
    cbn zeta in Hloop.
    destruct (targetLoop env channel p (length jds) 0 jds w1 []) as [w2 results].
    cbn [fst snd] in Hloop. destruct Hloop as (_ & P2 & _).
    set (w3 := publish env channel (Completed results) w2).
    destruct (setJobStatus_frame jobId completed (Some (ResultsArtifact results)) w3)
      as (_ & _ & _ & _ & P4 & _).
    cbn zeta in *.
    exists (progressEventsOf channel (length jds) (resolvedFrom 0 jds)
            ++ [(channel, Completed results)])%list.
    split; [|split].
    + rewrite P4. unfold w3. cbn [publish published]. rewrite P2, P1.
      rewrite <- app_assoc. reflexivity.
    + intros e He. apply in_app_or in He. destruct He as [He|[<-|[]]].
      * unfold progressEventsOf in He. apply in_map_iff in He.
        destruct He as ([k jd] & <- & Hin). cbn [fst snd progressValue].
        split; [reflexivity|].
        apply resolvedFrom_indices in Hin. apply progressOf_range. lia.
      * cbn [fst snd progressValue]. split; [reflexivity | lia].
    + rewrite List.map_app. cbn [List.map snd progressValue].
      apply (progress_events_sorted channel (length jds) jds 0 []); [lia | exact I].
  - destruct (setJobStatus_frame jobId error (Some (ErrorArtifact "Resume not found")) w1)
      as (_ & _ & _ & _ & P4 & _).
    cbn zeta in *. exists []. rewrite app_nil_r, P4, P1.
    split; [reflexivity|]. split; [intros e []|exact I].
Qed.

(** *** A batch for a resume that does not exist *)



End BatchFacts.

(* ===================================================================== *)
(** * Properties of the score endpoint (routes.ts)                        *)
(* ===================================================================== *)

Module AtsRouteFacts.
Import JS Schema QuotaGate GeminiScorer Storage Broadcast AtsRoute GeminiTerms BatchTerms.

(** The scorer completes with a result for every input. *)
Lemma scorer_returns (rt : Runtime) (env : Env) (q : QuotaState) (resume : ResumeJson)
      (jdText : string) :
  exists result q', computeGeminiATSScore rt env q resume jdText = (Return result, q').
Proof.
  unfold computeGeminiATSScore.
  destruct (scoreBody rt env q resume jdText) as [[result|message] q'];
    eexists; eexists; reflexivity.
Qed.

(** On a body whose two ids are each absent or a string, and a store
    whose rows hold resumes that follow the schema, the endpoint answers
    400, 404 or 200 and not 500: the scorer it calls returns a result for
    every resume. It answers 400 when an id is absent or empty and 404
    when both are given and the resume or the job description is not in
    the store; in both cases nothing is sent, the quota is not charged
    and the state is left as it was. On a body with an id that the
    database driver refuses to bind, the endpoint answers 500 and leaves
    the state as it was. *)
Theorem score_request_outcomes (rt : Runtime) (env : Env)
        (readyState : nat -> ConnId -> ReadyState) (req : ScoreRequest) (s : Server) :
  let out := postAtsScoreAny rt env readyState (TypedIds req) s in
  ((exists channel result, fst out = ScoreOk channel result)
   \/ out = (badRequest, s) \/ out = (notFound, s)) /\
  (body_resumeId req = None \/ body_resumeId req = Some ""
   \/ body_jdId req = None \/ body_jdId req = Some "" -> out = (badRequest, s)) /\
  (forall resumeId jdId,
      body_resumeId req = Some resumeId -> body_jdId req = Some jdId ->
      truthy resumeId = true -> truthy jdId = true ->
      getResume (db s) resumeId = None \/ getJobDescription (db s) jdId = None ->
      out = (notFound, s)) /\
  postAtsScoreAny rt env readyState RejectedId s
  = (Status500 "Failed to compute ATS score", s).
Proof.
  intros out. unfold out, postAtsScoreAny, postAtsScore.
  split; [|split; [|split; [|reflexivity]]].
  - destruct (body_resumeId req) as [resumeId|]; [|right; left; reflexivity].
    destruct (body_jdId req) as [jdId|]; [|right; left; reflexivity].
    destruct (negb (truthy resumeId) || negb (truthy jdId)); [right; left; reflexivity|].
    destruct (getResume (db s) resumeId) as [resume|]; [|right; right; reflexivity].
    destruct (getJobDescription (db s) jdId) as [jd|]; [|right; right; reflexivity].
    destruct (scorer_returns rt env (quota s) (resume_json resume) (jd_rawText jd))
      as (result & q' & E).
    rewrite E. left. eexists. eexists. reflexivity.
  - intros [H|[H|[H|H]]]; rewrite H.
    + reflexivity.
    + destruct (body_jdId req); reflexivity.
    + destruct (body_resumeId req); reflexivity.
    + destruct (body_resumeId req) as [resumeId|]; [|reflexivity].
      cbn [truthy negb]. rewrite orb_true_r. reflexivity.
  - intros resumeId jdId Hr Hj Tr Tj Hnone. rewrite Hr, Hj, Tr, Tj. cbn [negb orb].
    destruct Hnone as [H|H]; rewrite H; [reflexivity|].
    destruct (getResume (db s) resumeId); reflexivity.
Qed.



End AtsRouteFacts.

(* ===================================================================== *)
(** * Properties of the embedding cache (gemini-enhanced.ts)              *)
(* ===================================================================== *)

Module EmbeddingCacheFacts.
Import JS QuotaGate EmbeddingCache.

Lemma generateEmbeddingWithCache_cases (env : Env) (text : string) (st : State) :
  (exists v, embeddingCache st !! cacheKeyOf text = Some v /\
             generateEmbeddingWithCache env text st = (v, st))
  \/ (embeddingCache st !! cacheKeyOf text = None /\
      exists v q, generateEmbeddingWithCache env text st
                  = (v, remember (cacheKeyOf text) v st q)).
Proof.
  unfold generateEmbeddingWithCache, startEmbedding, finishEmbedding.
  destruct (embeddingCache st !! cacheKeyOf text) as [v|] eqn:Hc.
  - left. exists v. split; reflexivity.
  - right. split; [reflexivity|].
    destruct (GeminiScorer.keyUnusable (apiKeyOf env)); [eexists; eexists; reflexivity|].
    destruct (checkQuotaLimit (today env) (quota st)) as [hasQuota q].
    destruct (negb hasQuota); [eexists; eexists; reflexivity|].
    destruct (embedContent env); cbn [embeddingCache]; try rewrite Hc;
      eexists; eexists; reflexivity.
Qed.

(** A call that is suspended has missed the cache, has changed no entry
    and has charged the quota. *)
Lemma startEmbedding_awaiting (env : Env) (text : string) (st st' : State) (key : string) :
  startEmbedding env text st = (Awaiting key, st') ->
  key = cacheKeyOf text /\
  embeddingCache st !! key = None /\
  embeddingCache st' = embeddingCache st /\
  quota st' = incrementQuotaCount (snd (checkQuotaLimit (today env) (quota st))).
Proof.
  unfold startEmbedding.
  destruct (embeddingCache st !! cacheKeyOf text) as [v|] eqn:Hc; [discriminate|].
  destruct (GeminiScorer.keyUnusable (apiKeyOf env)); [discriminate|].
  destruct (checkQuotaLimit (today env) (quota st)) as [hasQuota q].
  destruct (negb hasQuota); [discriminate|].
  destruct (embedContent env); try discriminate;
    intros E; injection E as <- <-; cbn [embeddingCache quota snd];
    repeat split; try reflexivity; exact Hc.
Qed.

(** The cache is keyed by the first 100 characters of the text. After a
    call during which no other call ran, the vector it returned is in
    the cache under that key, so a later call for any text with the same
    first 100 characters returns the same vector and changes nothing,
    whatever the key, the date and the answer of the model are then: a
    mock vector cached while the quota was exhausted is served from then
    on; such a call replaces no entry of the cache. Two calls for the
    same key that overlap, the second starting while the first awaits
    the model, both miss the cache and both charge the quota; when both
    get values, each returns its own and the entry of the call that
    settles first is replaced by that of the other. *)
Theorem embedding_is_cached_by_prefix (env1 env2 : Env) (text1 text2 : string) (st : State) :
  String.substring 0 100 text1 = String.substring 0 100 text2 ->
  let key := String.substring 0 100 text1 in
  let out1 := generateEmbeddingWithCache env1 text1 st in
  embeddingCache (snd out1) !! key = Some (fst out1) /\
  generateEmbeddingWithCache env2 text2 (snd out1) = (fst out1, snd out1) /\
  (forall key' v, embeddingCache st !! key' = Some v ->
                  embeddingCache (snd out1) !! key' = Some v) /\
  (forall st1 st2 v1 v2,
      startEmbedding env1 text1 st = (Awaiting key, st1) ->
      startEmbedding env2 text2 st1 = (Awaiting key, st2) ->
      embedContent env1 = EmbedValues v1 ->
      embedContent env2 = EmbedValues v2 ->
      let done1 := finishEmbedding env1 key st2 in
      let done2 := finishEmbedding env2 key (snd done1) in
      embeddingCache st !! key = None /\
      embeddingCache st1 !! key = None /\
      quota st2
      = incrementQuotaCount
          (snd (checkQuotaLimit (today env2)
                  (incrementQuotaCount (snd (checkQuotaLimit (today env1) (quota st)))))) /\
      fst done1 = v1 /\
      embeddingCache (snd done1) !! key = Some v1 /\
      fst done2 = v2 /\
      embeddingCache (snd done2) !! key = Some v2).
Proof.
  intros Hkey key out1.
  assert (H1 : embeddingCache (snd out1) !! cacheKeyOf text1 = Some (fst out1)).
  { unfold out1.
    destruct (generateEmbeddingWithCache_cases env1 text1 st)
      as [(v & Hc & E)|(Hc & v & q & E)]; rewrite E; cbn [fst snd].
    - exact Hc.
    - cbn [remember embeddingCache]. apply lookup_insert_eq. }
  split; [exact H1|]. split; [|split].
  - unfold generateEmbeddingWithCache, startEmbedding. unfold cacheKeyOf in *.
    rewrite <- Hkey, H1. reflexivity.
  - intros key' v Hv. unfold out1.
    destruct (generateEmbeddingWithCache_cases env1 text1 st)
      as [(v' & Hc & E)|(Hc & v' & q & E)]; rewrite E; cbn [fst snd].
    + exact Hv.
    + cbn [remember embeddingCache]. rewrite lookup_insert_ne; [exact Hv|].
      intros <-. rewrite Hc in Hv. discriminate.
  - intros st1 st2 v1 v2 Hs1 Hs2 Hv1 Hv2 done1 done2.
    destruct (startEmbedding_awaiting env1 text1 st st1 key Hs1) as (_ & Hm1 & Hc1 & Hq1).
    destruct (startEmbedding_awaiting env2 text2 st1 st2 key Hs2) as (_ & Hm2 & Hc2 & Hq2).
    split; [exact Hm1|]. split; [exact Hm2|].
    split; [rewrite Hq2, Hq1; reflexivity|].
    unfold done2, done1, finishEmbedding. rewrite Hv1, Hv2.
    cbn [fst snd remember embeddingCache].
    rewrite !lookup_insert_eq. repeat split; reflexivity.
Qed.

Lemma embedding_is_cached_by_prefix_witness :
  let fresh := {| embeddingCache := ∅;
                  quota := {| dailyRequestCount := 0;
                              lastResetDate := "Tue Nov 03 2026" |} |} in
  let env1 := {| GEMINI_API_KEY := Some "AIza-test-key"; VITE_GEMINI_API_KEY := None;
                 today := "Tue Nov 03 2026"; mockEmbedding := [1%R; (-1)%R];
                 embedContent := EmbedValues [0%R; 1%R] |} in
  let env2 := {| GEMINI_API_KEY := Some "AIza-test-key"; VITE_GEMINI_API_KEY := None;
                 today := "Tue Nov 03 2026"; mockEmbedding := [0%R; 0%R];
                 embedContent := EmbedValues [1%R; 0%R] |} in
  let key := "Backend engineer" in
  let out1 := generateEmbeddingWithCache env1 "Backend engineer" fresh in
  let st1 := snd (startEmbedding env1 "Backend engineer" fresh) in
  let st2 := snd (startEmbedding env2 "Backend engineer" st1) in
  let done1 := finishEmbedding env1 key st2 in
  let done2 := finishEmbedding env2 key (snd done1) in
  generateEmbeddingWithCache env2 "Backend engineer" (snd out1) = (fst out1, snd out1) /\
  dailyRequestCount (quota st2) = 2 /\
  embeddingCache (snd done1) !! key = Some [0%R; 1%R] /\
  embeddingCache (snd done2) !! key = Some [1%R; 0%R].
Proof.
  intros fresh env1 env2 key out1 st1 st2 done1 done2.
  destruct (embedding_is_cached_by_prefix env1 env2 "Backend engineer" "Backend engineer"
              fresh eq_refl) as (_ & Hagain & _ & Hoverlap).
  destruct (Hoverlap st1 st2 [0%R; 1%R] [1%R; 0%R] eq_refl eq_refl eq_refl eq_refl)
    as (_ & _ & Hq & _ & Hd1 & _ & Hd2).
  split; [exact Hagain|]. split; [rewrite Hq; reflexivity|].
  split; [exact Hd1 | exact Hd2].
Defined.

End EmbeddingCacheFacts.

(* ===================================================================== *)
(** * Properties of the score history of the client (ats-store.ts)        *)
(* ===================================================================== *)

Module AtsStoreFacts.
Import JS GeminiScorer AtsStore.

Lemma sliceLast_length {A} (n : nat) (l : list A) :
  length (sliceLast n l) = Nat.min n (length l).
Proof. unfold sliceLast. rewrite length_skipn. lia. Qed.

Lemma sliceLast_snoc {A} (n : nat) (l : list A) (x : A) :
  sliceLast (S n) (l ++ [x]) = (sliceLast n l ++ [x])%list.
Proof.
  unfold sliceLast. rewrite length_app. cbn [length].
  replace (length l + 1 - S n)%nat with (length l - n)%nat by lia.
  apply drop_app_le. lia.
Qed.

Lemma sliceLast_sliceLast {A} (n : nat) (l : list A) :
  sliceLast n (sliceLast (S n) l) = sliceLast n l.
Proof.
  unfold sliceLast. rewrite length_skipn, skipn_skipn. f_equal. lia.
Qed.

Lemma addToHistory_fold (scores : list JValue) :
  forall st,
    scoreHistory st = sliceLast 10 (scoreHistory st) ->
    scoreHistory (fold_left (fun st score => addToHistory score st) scores st)
    = sliceLast 10 (scoreHistory st ++ scores).
Proof.
  induction scores as [|x scores IH] using rev_ind; intros st Hst.
  - cbn [fold_left]. rewrite app_nil_r. exact Hst.
  - rewrite fold_left_app. cbn [fold_left addToHistory scoreHistory].
    rewrite (IH st Hst), sliceLast_sliceLast, app_assoc, sliceLast_snoc. reflexivity.
Qed.

(** The history holds the last ten scores added, oldest first: after any
    sequence of [addToHistory] from the initial state it is the sequence
    itself while that has at most ten entries, and its last ten entries
    from then on. *)
Theorem history_keeps_last_10 (scores : list JValue) :
  let st := fold_left (fun st score => addToHistory score st) scores initialState in
  scoreHistory st = sliceLast 10 scores /\
  (length (scoreHistory st) <= 10)%nat /\
  ((length scores <= 10)%nat -> scoreHistory st = scores) /\
  (forall score, last (scoreHistory (addToHistory score st)) = Some score).
Proof.
  intros st.
  assert (E : scoreHistory st = sliceLast 10 scores).
  { unfold st. rewrite addToHistory_fold; reflexivity. }
  split; [exact E|]. split; [|split].
  - rewrite E, sliceLast_length. lia.
  - intros Hlen. rewrite E. unfold sliceLast.
    replace (length scores - 10)%nat with 0%nat by lia. reflexivity.
  - intros score. cbn [addToHistory scoreHistory]. apply last_snoc.
Qed.

Lemma ats_prefix (rest : string) : String.prefix "ats:" ("ats:" +:+ rest) = true.
Proof. destruct rest; reflexivity. Qed.

(** The two messages that the server publishes for one scoring, handled in
    order by the panel, add exactly one entry to the history, the overall
    score, and end the scoring state with the final score shown; the
    history has at most ten entries afterwards. A message on a channel
    whose name does not start with [ats:] changes nothing. *)
Theorem one_scoring_one_history_entry
        (st : ATSState) (resumeId jdId : string) (overall breakdown suggestions : JValue) :
  let channel := "ats:" +:+ resumeId +:+ ":" +:+ jdId in
  let st' :=
    fold_left onMessage
      [ scoreMessage "partial" channel overall breakdown suggestions;
        scoreMessage "final" channel overall breakdown suggestions ] st in
  scoreHistory st' = (sliceLast 9 (scoreHistory st) ++ [overall])%list /\
  (length (scoreHistory st') <= 10)%nat /\
  isScoring st' = false /\
  atsScore st'
  = Some (JObject [ ("final", JBool true); ("overall", overall);
                    ("breakdown", breakdown); ("suggestions", suggestions) ]) /\
  (forall flag other,
      String.prefix "ats:" other = false ->
      onMessage st (scoreMessage flag other overall breakdown suggestions) = st).
Proof.
  intros channel st'.
  assert (E : scoreHistory st' = (sliceLast 9 (scoreHistory st) ++ [overall])%list
              /\ isScoring st' = false
              /\ atsScore st'
                 = Some (JObject [ ("final", JBool true); ("overall", overall);
                                   ("breakdown", breakdown);
                                   ("suggestions", suggestions) ])).
  { unfold st', channel. cbn [fold_left]. unfold onMessage, scoreMessage. cbn.
    rewrite !ats_prefix. cbn. repeat split. }
  destruct E as (E1 & E2 & E3).
  split; [exact E1|]. split.
  - rewrite E1, length_app, sliceLast_length. cbn [length]. lia.
  - split; [exact E2|]. split; [exact E3|].
    intros flag other Hp. unfold onMessage, scoreMessage.
    cbn [getOpt lookupField String.eqb Ascii.eqb Bool.eqb isAtsChannel].
    rewrite Hp. reflexivity.
Qed.

End AtsStoreFacts.

(* ===================================================================== *)
(** * Properties of the reconnecting socket of the client (websocket.ts)  *)
(* ===================================================================== *)

Module WsClientFacts.
Import Broadcast WsClient WsClientTerms.

(** Every event keeps the hook in one of the three shapes. *)
Lemma step_invariant (h h' : Hook) (e : Event) :
  oneAtATime h -> step h e = Some h' -> oneAtATime h'.
Proof.
  unfold oneAtATime, maxReconnectAttempts. intros [Ha Hshape] Hstep.
  destruct e as [s|s|t|]; cbn [step] in Hstep.
  - (* a socket opens *)
    destruct (sockets h !! s) as [[| | |]|] eqn:Hs; try discriminate.
    injection Hstep as <-. cbn [onopen withSockets reconnectAttempts sockets timers].
    split; [lia|].
    destruct Hshape as [(s0 & st & Hm & Ht)|[(Hm & _)|(Hm & _)]].
    + left. rewrite Hm in *. apply lookup_singleton_Some in Hs. destruct Hs as [-> _].
      exists s, OPEN. split; [apply insert_singleton_eq | exact Ht].
    + rewrite Hm, lookup_empty in Hs. discriminate.
    + rewrite Hm, lookup_empty in Hs. discriminate.
  - (* a socket closes *)
    destruct (sockets h !! s) as [st|] eqn:Hs; try discriminate.
    injection Hstep as <-.
    destruct Hshape as [(s0 & st0 & Hm & Ht)|[(Hm & _)|(Hm & _)]].
    + rewrite Hm in Hs. apply lookup_singleton_Some in Hs. destruct Hs as [-> _].
      unfold onclose, maxReconnectAttempts.
      cbn [withSockets reconnectAttempts sockets timers nextId].
      rewrite Hm, delete_singleton_eq, Ht.
      destruct (reconnectAttempts h <? 5) eqn:Hlt;
        cbn [withSockets reconnectAttempts sockets timers app]; rewrite ?Ht.
      * apply Z.ltb_lt in Hlt. split; [lia|]. right. left.
        split; [reflexivity|]. split; [eexists; reflexivity | exact Hlt].
      * split; [lia|]. right. right. split; reflexivity.
    + rewrite Hm, lookup_empty in Hs. discriminate.
    + rewrite Hm, lookup_empty in Hs. discriminate.
  - (* a timer fires *)
    destruct (existsb (Nat.eqb t) (timers h)) eqn:Ht; try discriminate.
    injection Hstep as <-.
    destruct Hshape as [(s0 & st0 & Hm & Hn)|[(Hm & (t0 & Hn) & Hlt)|(Hm & Hn)]].
    + rewrite Hn in Ht. discriminate.
    + rewrite Hn in Ht. cbn [existsb] in Ht. rewrite orb_false_r in Ht.
      apply Nat.eqb_eq in Ht. subst t0.
      cbn [onTimeout connect withTimers reconnectAttempts sockets timers nextId].
      rewrite Hn, Hm. unfold clearTimeout. cbn [List.filter]. rewrite Nat.eqb_refl.
      cbn [negb]. split; [lia|]. left. eexists. eexists.
      split; [apply insert_empty | reflexivity].
    + rewrite Hn in Ht. discriminate.
  - (* disconnect *)
    injection Hstep as <-. cbn [disconnect reconnectAttempts sockets timers].
    split; [exact Ha|].
    destruct Hshape as [(s0 & st0 & Hm & Hn)|[(Hm & (t0 & Hn) & Hlt)|(Hm & Hn)]].
    + left. rewrite Hm, Hn.
      assert (Hp : match reconnectTimeoutRef h with
                   | Some t => clearTimeout t []
                   | None => []
                   end = []) by (destruct (reconnectTimeoutRef h); reflexivity).
      rewrite Hp.
      destruct (wsRef h) as [s|]; [|exists s0, st0; split; reflexivity].
      destruct (decide (s = s0)) as [->|Hne].
      * rewrite alter_singleton_eq. eexists. eexists. split; reflexivity.
      * rewrite alter_singleton_ne by exact Hne. eexists. eexists. split; reflexivity.
    + right. rewrite Hm, Hn.
      assert (Hs : match wsRef h with
                   | Some s => alter closing s (∅ : gmap nat ReadyState)
                   | None => ∅
                   end = ∅) by (destruct (wsRef h); [apply alter_empty | reflexivity]).
      rewrite Hs.
      destruct (reconnectTimeoutRef h) as [t|].
      * unfold clearTimeout. cbn [List.filter].
        destruct (negb (t =? t0)%nat).
        -- left. split; [reflexivity|]. split; [eexists; reflexivity | exact Hlt].
        -- right. split; reflexivity.
      * left. split; [reflexivity|]. split; [eexists; reflexivity | exact Hlt].
    + right. right. rewrite Hm, Hn.
      split.
      * destruct (wsRef h); [apply alter_empty | reflexivity].
      * destruct (reconnectTimeoutRef h); reflexivity.
Qed.

Lemma run_invariant (events : list Event) :
  forall h h',
    oneAtATime h -> run events h = Some h' -> oneAtATime h'.
Proof.
  induction events as [|e rest IH]; intros h h' Hinv Hrun; cbn [run] in Hrun.
  - injection Hrun as <-. exact Hinv.
  - destruct (step h e) as [h1|] eqn:Hstep; [|discriminate].
    apply (IH h1 h'); [|exact Hrun].
    apply (step_invariant h h1 e); assumption.
Qed.

Lemma mounted_invariant : oneAtATime mounted.
Proof.
  split; [unfold maxReconnectAttempts; cbn; lia|].
  left. exists 0%nat, CONNECTING. split; [apply insert_empty | reflexivity].
Qed.

(** Whatever happens to a mounted hook, the attempt counter stays between
    0 and 5 and at most one socket or one timer is alive at a time, never
    both. When the counter is at 5 and the socket closes, no timer is set:
    the hook has given up, and neither a socket nor a timer is left. *)
Theorem reconnect_attempts_bounded (events : list Event) (h : Hook) :
  run events mounted = Some h ->
  0 <= reconnectAttempts h <= maxReconnectAttempts /\
  (size (sockets h) + length (timers h) <= 1)%nat /\
  (reconnectAttempts h = maxReconnectAttempts ->
   forall s h', step h (SocketClosed s) = Some h' -> sockets h' = ∅ /\ timers h' = []).
Proof.
  intros Hrun.
  destruct (run_invariant events mounted h mounted_invariant Hrun) as [Ha Hshape].
  split; [exact Ha|]. split.
  - destruct Hshape as [(s0 & st0 & Hm & Hn)|[(Hm & (t0 & Hn) & _)|(Hm & Hn)]];
      rewrite Hm, Hn; rewrite ?map_size_singleton, ?map_size_empty; cbn [length]; lia.
  - intros Hmax s h' Hstep. cbn [step] in Hstep.
    destruct (sockets h !! s) as [st|] eqn:Hs; [|discriminate].
    injection Hstep as <-.
    destruct Hshape as [(s0 & st0 & Hm & Hn)|[(Hm & _)|(Hm & _)]].
    + rewrite Hm in Hs. apply lookup_singleton_Some in Hs. destruct Hs as [-> _].
      unfold onclose. cbn [withSockets reconnectAttempts].
      rewrite Hmax, Z.ltb_irrefl. cbn [sockets timers].
      rewrite Hm, delete_singleton_eq. split; [reflexivity | exact Hn].
    + rewrite Hm, lookup_empty in Hs. discriminate.
    + rewrite Hm, lookup_empty in Hs. discriminate.
Qed.

Lemma reconnect_attempts_bounded_witness :
  let h := {| wsRef := None; reconnectTimeoutRef := Some 3%nat; reconnectAttempts := 0;
              sockets := ∅; timers := [3%nat]; nextId := 4 |} in
  0 <= reconnectAttempts h <= maxReconnectAttempts /\
  (size (sockets h) + length (timers h) <= 1)%nat /\
  (reconnectAttempts h = maxReconnectAttempts ->
   forall s h', step h (SocketClosed s) = Some h' -> sockets h' = ∅ /\ timers h' = []).
Proof.
  intros h.
  apply (reconnect_attempts_bounded
           [SocketClosed 0; TimerFired 1; SocketOpened 2; Disconnect; SocketClosed 2]).
  reflexivity.
Defined.

(** [disconnect] does not end the reconnecting: it closes the socket, and
    when the [close] event of that socket arrives with fewer than five
    attempts counted, the handler sets a new timer, whose callback opens a
    new socket. *)
Theorem disconnect_does_not_stop_reconnecting (events : list Event) (h : Hook)
        (s : nat) (st : ReadyState) :
  run events mounted = Some h ->
  sockets h !! s = Some st ->
  reconnectAttempts h < maxReconnectAttempts ->
  exists h1 t h2,
    run [Disconnect; SocketClosed s] h = Some h1 /\
    wsRef h1 = None /\ timers h1 = [t] /\
    step h1 (TimerFired t) = Some h2 /\
    wsRef h2 = Some (nextId h1) /\ sockets h2 = {[nextId h1 := CONNECTING]}.
Proof.
  intros Hrun Hs Hlt.
  destruct (run_invariant events mounted h mounted_invariant Hrun) as [Ha Hshape].
  destruct Hshape as [(s0 & st0 & Hm & Hn)|[(Hm & _)|(Hm & _)]];
    try (rewrite Hm, lookup_empty in Hs; discriminate).
  rewrite Hm in Hs. apply lookup_singleton_Some in Hs. destruct Hs as [-> ->].
  assert (Hp : match reconnectTimeoutRef h with
               | Some t => clearTimeout t (timers h)
               | None => timers h
               end = []).
  { rewrite Hn. destruct (reconnectTimeoutRef h); reflexivity. }
  assert (Hd : exists st', sockets (disconnect h) = {[s := st']}).
  { cbn [disconnect sockets]. rewrite Hm. destruct (wsRef h) as [s'|].
    - destruct (decide (s' = s)) as [->|Hne].
      + rewrite alter_singleton_eq. eexists. reflexivity.
      + rewrite alter_singleton_ne by exact Hne. eexists. reflexivity.
    - eexists. reflexivity. }
  destruct Hd as [st' Hd].
  apply Z.ltb_lt in Hlt.
  exists {| wsRef := None; reconnectTimeoutRef := Some (nextId h);
            reconnectAttempts := reconnectAttempts h; sockets := ∅;
            timers := [nextId h]; nextId := S (nextId h) |}.
  exists (nextId h).
  eexists. split; [|split; [reflexivity|split; [reflexivity|]]].
  - cbn [run step]. rewrite Hd, lookup_singleton_eq. f_equal.
    unfold onclose, withSockets. cbn [reconnectAttempts disconnect]. rewrite Hlt.
    cbn [wsRef timers nextId sockets reconnectAttempts reconnectTimeoutRef disconnect].
    rewrite Hp, delete_singleton_eq. reflexivity.
  - cbn [step timers existsb]. rewrite Nat.eqb_refl. cbn [orb].
    split; [reflexivity|].
    cbn [onTimeout connect withTimers wsRef sockets nextId].
    split; [reflexivity | apply insert_empty].
Qed.

Lemma disconnect_does_not_stop_reconnecting_witness :
  exists h1 t h2,
    run [Disconnect; SocketClosed 0] {| wsRef := Some 0%nat; reconnectTimeoutRef := None;
                                        reconnectAttempts := 0;
                                        sockets := {[0%nat := OPEN]}; timers := [];
                                        nextId := 1 |} = Some h1 /\
    wsRef h1 = None /\ timers h1 = [t] /\
    step h1 (TimerFired t) = Some h2 /\
    wsRef h2 = Some (nextId h1) /\ sockets h2 = {[nextId h1 := CONNECTING]}.
Proof.
  apply (disconnect_does_not_stop_reconnecting [SocketOpened 0] _ 0%nat OPEN).
  - reflexivity.
  - reflexivity.
  - reflexivity.
Defined.

End WsClientFacts.
